(** * NimbusSafeCex: the Binance adapter core

    A shallow embedding of
      - [src/exchanges/binance/binance.exchange.ts] (order formatter,
        bootstrap and tick fetches, [setLeverage], placing and cancelling
        orders, the position mode),
      - [src/exchanges/binance/orderQueueManager.ts] (rate-limited dispatch),
      - [src/exchanges/binance/binance.ws-private.ts] (private stream),
    together with the properties the design document states about them
    and further properties read off the code.

    Conventions of the embedding.
      - A JavaScript [number] is an exact rational ([Q]).  [NaN], the
        infinities and the rounding of IEEE doubles are outside the model;
        where the source can produce [NaN] from an absent operand the model
        says so with an [option].  Division is that of [Q], which is total
        with [x / 0 == 0]; where the source divides by zero it has [NaN] or
        an infinity, so the properties that depend on such a quotient assume
        that the divisor is not zero.  Comparisons are those of [Q]; where
        two computed numbers are equal, or as good as equal, the source's
        comparison of doubles can go either way.
      - A JavaScript object used as a record of venue fields is a
        [gmap string jsval]; [undefined] fields are absent keys.
      - A string built by a template literal is a [text]: literal segments
        and interpolated numbers.  An interpolated number is kept as its
        reduced fraction, so that equal numbers give equal texts.
      - Exceptions, the emitter, the identifier generator and the requests
        sent to the venue are threaded through a small monad [M]; the reply
        of the venue to a request is an argument of the function that
        awaits it.
      - What the covered files import from files that are not covered
        ([utils/safe-math], [utils/uuid], [utils/scaleWeights], the tables of
        [binance.types], the store) is a parameter or is modelled from the
        design document, and says so.

    Not embedded, and the subject of no property below: the OHLCV and order
    book calls, [getAccount], [validateAccount], [updateOrder], [dispose],
    and the connection and listen-key life cycle of the private stream. *)

From Stdlib Require Import QArith Qround Qabs ZArith Lia Lqa Sorted.
From stdpp Require Import gmap strings list pretty.

Local Open Scope string_scope.
Local Open Scope Q_scope.

(** ** JavaScript numbers and the [Math] functions the source uses *)

Module Js.

Definition ltb (a b : Q) : bool := negb (Qle_bool b a).
Definition gtb (a b : Q) : bool := ltb b a.
Definition geb (a b : Q) : bool := Qle_bool b a.

(** [x ? _ : _], [if (x)], [x && _] on a number: zero is falsy. *)
Definition truthy (x : Q) : bool := negb (Qeq_bool x 0).

(** [a === b] and [a !== b] on numbers. *)
Definition eqb (a b : Q) : bool := Qeq_bool a b.

Definition trunc (x : Q) : Z :=
    if Qle_bool 0 x then Qfloor x else Qceiling x.

Definition Math_floor (x : Q) : Q := inject_Z (Qfloor x).
Definition Math_ceil (x : Q) : Q := inject_Z (Qceiling x).
(** [Math.round] rounds halves towards plus infinity. *)
Definition Math_round (x : Q) : Q := inject_Z (Qfloor (x + (1 # 2))).
Definition Math_abs (x : Q) : Q := Qabs x.
Definition Math_min (a b : Q) : Q := if Qle_bool a b then a else b.
Definition Math_max (a b : Q) : Q := if Qle_bool a b then b else a.

(** [a % b]: the remainder has the sign of the dividend. *)
Definition rem (a b : Q) : Q := a - b * inject_Z (trunc (a / b)).

End Js.

(** ** Texts and venue field values *)

Inductive piece :=
  | Lit (s : string)
  | Num (q : Q).

Abbreviation text := (list piece).

Inductive jsval :=
  | JNum (q : Q)
  | JString (t : text).

(** A string literal, and the template literal [`${q}`]. *)
Definition str (s : string) : jsval := JString [Lit s].
Definition tpl (q : Q) : jsval := JString [Num (Qred q)].
Definition num (q : Q) : jsval := JNum (Qred q).

(** [PayloadOrder]: a flat object of venue fields. *)
Abbreviation PayloadOrder := (gmap string jsval).

(** [omitUndefined({k1: v1, ...})]: the object literal (a later key
    overrides an earlier one) without the keys whose value is [undefined]. *)
Definition omitUndefined (fields : list (string * option jsval)) : PayloadOrder :=
  foldl (fun o kv =>
           match kv.2 with
           | Some x => <[kv.1 := x]> o
           | None => delete kv.1 o
           end) ∅ fields.

(** ** The shared data model ([src/types], consumed by the adapter) *)

Module OrderType.
Inductive t := Market | Limit | StopLoss | TakeProfit | TrailingStopLoss.
Definition eqb (a b : t) : bool :=
    match a, b with
    | Market, Market | Limit, Limit | StopLoss, StopLoss
    | TakeProfit, TakeProfit | TrailingStopLoss, TrailingStopLoss => true
    | _, _ => false
    end.
End OrderType.

Module OrderSide.
Inductive t := Buy | Sell.
Definition eqb (a b : t) : bool :=
    match a, b with Buy, Buy | Sell, Sell => true | _, _ => false end.
End OrderSide.

Module PositionSide.
Inductive t := Long | Short.
Definition eqb (a b : t) : bool :=
    match a, b with Long, Long | Short, Short => true | _, _ => false end.
End PositionSide.

Module OrderTimeInForce.
Inductive t := GoodTillCancel | ImmediateOrCancel | FillOrKill | PostOnly.
End OrderTimeInForce.

Module OrderStatus.
Inductive t := Open | Closed | Canceled.
End OrderStatus.

Module MinMax.
Record t := mk { min : Q; max : Q }.
End MinMax.

Module Precision.
Record t := mk { amount : Q; price : Q }.
End Precision.

Module Limits.
Record t := mk { amount : MinMax.t; minNotional : Q; leverage : MinMax.t }.
End Limits.

Module Market.
Record t := mk {
    id : string;
    symbol : string;
    base : string;
    quote : string;
    active : bool;
    precision : Precision.t;
    limits : Limits.t
  }.
End Market.

Module Ticker.
Record t := mk {
    id : string;
    symbol : string;
    bid : Q;
    ask : Q;
    last : Q;
    mark : Q;
    index : Q;
    percentage : Q;
    fundingRate : Q;
    volume : Q;
    quoteVolume : Q;
    openInterest : Q
  }.
End Ticker.

Module Position.
Record t := mk {
    symbol : string;
    side : PositionSide.t;
    entryPrice : Q;
    notional : Q;
    leverage : Q;
    unrealizedPnl : Q;
    contracts : Q;
    liquidationPrice : Q
  }.
End Position.

Module Order.
Record t := mk {
    id : string;
    orderId : string;
    status : OrderStatus.t;
    symbol : string;
    type : option OrderType.t;
    side : option OrderSide.t;
    price : Q;
    amount : Q;
    filled : Q;
    remaining : Q;
    reduceOnly : bool
  }.
End Order.

Module WalletAsset.
Record t := mk { symbol : string; walletBalance : Q; usdValue : Q }.
End WalletAsset.

Module Balance.
Record t := mk {
    total : Q;
    free : Q;
    used : Q;
    upnl : Q;
    assets : list WalletAsset.t
  }.
End Balance.

Module Loaded.
Record t := mk {
    markets : bool;
    tickers : bool;
    balance : bool;
    positions : bool;
    orders : bool
  }.
End Loaded.

(** [PlaceOrderOpts].  An optional number is an [option]; [reduceOnly] is
    only ever read for its truthiness, so an absent flag is [false]. *)
Module PlaceOrderOpts.
Record t := mk {
    symbol : string;
    type : OrderType.t;
    side : OrderSide.t;
    price : option Q;
    amount : Q;
    timeInForce : option OrderTimeInForce.t;
    reduceOnly : bool;
    stopLoss : option Q;
    takeProfit : option Q
  }.
End PlaceOrderOpts.

(** [SplidOrderOpts] (the source's spelling). *)
Module SplidOrderOpts.
Record t := mk {
    symbol : string;
    side : OrderSide.t;
    type : OrderType.t;
    amount : Q;
    orders : Z;
    fromPrice : Q;
    toPrice : Q;
    fromScale : Q;
    toScale : Q;
    autoReAdjust : bool
  }.
End SplidOrderOpts.

(** ** The store

    The store interface is consumed, not defined, by the adapter: it is a
    record of the projections the adapter reads, and its update operations
    are modelled further down from the design document. *)
Module Store.
Record t := mk {
    markets : list Market.t;
    tickers : list Ticker.t;
    positions : list Position.t;
    balance : Balance.t;
    orders : list Order.t;
    isHedged : bool;
    loaded : Loaded.t;
    latency : Q
  }.
End Store.

(** ** Errors, events and the effect monad *)

(** A caught JavaScript error, as far as the adapter inspects it:
    [err?.response?.data?.msg] (set by the HTTP client on a venue error) and
    [err?.message]. *)
Module JsError.
Record t := mk { response_msg : option string; message : option text }.

(** [new Error(m)] *)
Definition Error (m : string) : t := mk None (Some [Lit m]).

(** [err?.response?.data?.msg || err?.message] *)
Definition describe (err : t) : option text :=
  match response_msg err with
  | Some m => if String.eqb m "" then message err else Some [Lit m]
  | None => message err
  end.
End JsError.

(** The error kinds of the design document and the [Error]s the source
    throws for them. *)
Definition MarketNotFound (symbol : string) : JsError.t :=
  JsError.Error ("Market " +:+ symbol +:+ " not found").
Definition TickerNotFound (symbol : string) : JsError.t :=
  JsError.Error ("Ticker " +:+ symbol +:+ " not found").
Definition PositionNotFound (symbol : string) : JsError.t :=
  JsError.Error ("Position " +:+ symbol +:+ " not found").

(** A request handed to the HTTP client: endpoint and body. *)
Module Request.
Inductive t :=
  | get_MARKETS
  | get_LEVERAGE_BRACKET
  | get_TICKERS_24H
  | get_TICKERS_BOOK
  | get_TICKERS_PRICE
  | get_ACCOUNT
  | get_OPEN_ORDERS
  | get_HEDGE_MODE
  | post_SET_LEVERAGE (symbol : string) (leverage : Q).
End Request.

(** The record emitted on [fill]. *)
Module Fill.
Record t := mk {
    id : string;
    timestamp : Q;
    side : option OrderSide.t;
    symbol : string;
    price : Q;
    realizedPnl : Q;
    amount : Q;
    reduceOnly : bool;
    maker : bool;
    notional : Q;
    commission : option Q
  }.
End Fill.

(** Events of the emitter.  [Ev_error] is [emit("error", m)] with [m]
    possibly [undefined]; [Ev_error2] is the two-argument form the dispatch
    queue uses. *)
Inductive event :=
  | Ev_error (message : option text)
  | Ev_error2 (message : string) (err : JsError.t)
  | Ev_info (message : text)
  | Ev_fill (fill : Fill.t)
  | Ev_positionUpdate
  | Ev_orderManager (queueLength : nat)
  | Ev_batchResolved (orderResults : list (string * option JsError.t)).

Module World.
Record t := mk {
    store : Store.t;
    isDisposed : bool;
    ids : nat;               (* identifiers drawn so far in this session *)
    emitted : list event;    (* oldest first *)
    requests : list Request.t   (* oldest first *)
  }.
End World.

Inductive Outcome (A : Type) :=
  | Return (a : A)
  | Throw (err : JsError.t).
Arguments Return {A} a.
Arguments Throw {A} err.

Definition M (A : Type) : Type := World.t -> Outcome A * World.t.

Definition ret {A} (a : A) : M A := fun w => (Return a, w).
Definition throw {A} (err : JsError.t) : M A := fun w => (Throw err, w).
Definition bind {A B} (m : M A) (k : A -> M B) : M B :=
  fun w => match m w with
           | (Return a, w') => k a w'
           | (Throw err, w') => (Throw err, w')
           end.

Notation "'let*' x ':=' m 'in' k" := (bind m (fun x => k))
  (at level 10, x name, m at level 100, k at level 200).

(** [xs.push(x)] *)
Definition push {A} (xs : list A) (x : A) : list A := (xs ++ [x])%list.

Definition getStore : M Store.t := fun w => (Return (World.store w), w).
Definition setStore (st : Store.t) : M unit :=
  fun w => (Return tt,
            World.mk st (World.isDisposed w) (World.ids w)
                     (World.emitted w) (World.requests w)).
Definition getDisposed : M bool := fun w => (Return (World.isDisposed w), w).
Definition emit (e : event) : M unit :=
  fun w => (Return tt,
            World.mk (World.store w) (World.isDisposed w) (World.ids w)
                     (push (World.emitted w) e) (World.requests w)).
Definition fresh : M nat :=
  fun w => (Return (World.ids w),
            World.mk (World.store w) (World.isDisposed w) (S (World.ids w))
                     (World.emitted w) (World.requests w)).

(** [try { body } catch (err) { handler(err) }] *)
Definition try_catch {A} (body : M A) (handler : JsError.t -> M A) : M A :=
  fun w => match body w with
           | (Return a, w') => (Return a, w')
           | (Throw err, w') => handler err w'
           end.

(** The reply of the venue to one request: the awaited promise resolves
    with data or rejects with an error.  While the request is in flight the
    host may dispose the adapter. *)
Inductive Http (A : Type) :=
  | Resolved (data : A)
  | Rejected (err : JsError.t).
Arguments Resolved {A} data.
Arguments Rejected {A} err.

Module Reply.
Record t (A : Type) := mk { outcome : Http A; disposedMeanwhile : bool }.
Arguments mk {A}.
Arguments outcome {A}.
Arguments disposedMeanwhile {A}.
End Reply.

(** [await this.xhr.<method>(request)] *)
Definition await {A} (request : Request.t) (reply : Reply.t A) : M A :=
  fun w =>
    let w' := World.mk (World.store w)
                       (World.isDisposed w || Reply.disposedMeanwhile reply)
                       (World.ids w) (World.emitted w)
                       (push (World.requests w) request) in
    match Reply.outcome reply with
    | Resolved data => (Return data, w')
    | Rejected err => (Throw err, w')
    end.

(** [find] on an array; absent is [undefined], which the callers test. *)
Definition find {A} (p : A -> bool) (l : list A) : option A :=
  List.find p l.

(** [for (const x of xs) { ... }] with an effectful body. *)
Fixpoint forEach {A B} (f : A -> M B) (xs : list A) : M (list B) :=
  match xs with
  | [] => ret []
  | x :: rest => let* y := f x in let* ys := forEach f rest in ret (y :: ys)
  end.

(** ** What the adapter imports from outside the covered files

    [utils/safe-math], [utils/uuid], [utils/scaleWeights] and the tables
    of [binance.types] are consumed by the formatter but are not part of the
    covered sources; the formatter is parameterised by them. *)
Class Externals := {
  (* [adjust(value, step)] and [subtract(a, b)] of [utils/safe-math] *)
  adjust : Q -> Q -> Q;
  subtract : Q -> Q -> Q;
  (* [uuid()] and [generateOrderId()] of [utils/uuid]: what the call returns
     when [n] identifiers were drawn before it in the session *)
  uuid : nat -> string;
  generateOrderId : nat -> string;
  (* [ORDER_TYPE[name]], [inverseObj(ORDER_TYPE)[type]] and
     [inverseObj(TIME_IN_FORCE)[tif]] of [binance.types] *)
  ORDER_TYPE : string -> option OrderType.t;
  ORDER_TYPE_inv : OrderType.t -> string;
  TIME_IN_FORCE_inv : OrderTimeInForce.t -> string;
  (* the string value of a [PositionSide] member, as a template prints it *)
  PositionSide_value : PositionSide.t -> string;
  (* [calculateWeights({fromScale, toScale, orders})] and
     [calcValidOrdersCount({fromScale, toScale, orders, amount, minSize,
     minNotional, totalWeight, fromPrice})] of [utils/scaleWeights] *)
  calculateWeights : Q -> Q -> Z -> Q;
  calcValidOrdersCount : Q -> Q -> Z -> Q -> Q -> Q -> Q -> Q -> Z
}.

(** Modelled from the spec: the inverse of the [ORDER_SIDE] table of
    [binance.types]; the design document names the venue sides [BUY] and
    [SELL]. *)
Definition ORDER_SIDE_inv (s : OrderSide.t) : string :=
  match s with OrderSide.Buy => "BUY" | OrderSide.Sell => "SELL" end.

Section Formatter.
Context `{Ext : Externals}.

(** *** [getOrderPositionSide] *)
Definition getOrderPositionSide (isHedged : bool) (side : OrderSide.t)
    (type : OrderType.t) (reduceOnly : bool) : string :=
  let positionSide := "BOTH" in
  if isHedged then
    let positionSide :=
      if OrderSide.eqb side OrderSide.Buy then "LONG" else "SHORT" in
    if OrderType.eqb type OrderType.StopLoss
       || OrderType.eqb type OrderType.TakeProfit
       || OrderType.eqb type OrderType.TrailingStopLoss
       || reduceOnly
    then (if String.eqb positionSide "LONG" then "SHORT" else "LONG")
    else positionSide
  else positionSide.

Definition opposite (side : OrderSide.t) : OrderSide.t :=
  if OrderSide.eqb side OrderSide.Buy then OrderSide.Sell else OrderSide.Buy.

(** [payload.newClientOrderId = uuid()] *)
Definition assignClientOrderId (payload : PayloadOrder) : M PayloadOrder :=
  let* n := fresh in ret (<["newClientOrderId" := str (uuid n)]> payload).

(** *** [formatCreateTrailingStopLossOrder]

    The callback rate divides by the last price: with a last price of zero
    the source has an infinity or [NaN] there, the model zero. *)
Definition formatCreateTrailingStopLossOrder (opts : PlaceOrderOpts.t)
    : M (list PayloadOrder) :=
  let* st := getStore in
  let market := find (fun m => String.eqb (Market.symbol m) (PlaceOrderOpts.symbol opts))
                     (Store.markets st) in
  let ticker := find (fun t => String.eqb (Ticker.symbol t) (PlaceOrderOpts.symbol opts))
                     (Store.tickers st) in
  let pSide := if OrderSide.eqb (PlaceOrderOpts.side opts) OrderSide.Buy
               then PositionSide.Short else PositionSide.Long in
  let position :=
    find (fun p => String.eqb (Position.symbol p) (PlaceOrderOpts.symbol opts)
                   && PositionSide.eqb (Position.side p) pSide)
         (Store.positions st) in
  match market with
  | None => throw (MarketNotFound (PlaceOrderOpts.symbol opts))
  | Some market =>
  match ticker with
  | None => throw (TickerNotFound (PlaceOrderOpts.symbol opts))
  | Some ticker =>
  match position with
  | None => throw (JsError.Error ("Position " +:+ PlaceOrderOpts.symbol opts +:+
                                  " and side " +:+ PositionSide_value pSide +:+
                                  " not found"))
  | Some position =>
      (* [opts.price!]: an absent price makes every derived number NaN *)
      let callbackRate :=
        match PlaceOrderOpts.price opts with
        | None => str "NaN"
        | Some price =>
            let priceDistance :=
              adjust (Js.Math_max (Ticker.last ticker) price
                      - Js.Math_min (Ticker.last ticker) price)
                     (Precision.price (Market.precision market)) in
            let distancePercentage :=
              Js.Math_round (((priceDistance * 100) / Ticker.last ticker) * 10) / 10 in
            tpl distancePercentage
        end in
      let* n := fresh in
      ret [ omitUndefined [
        ("symbol", Some (str (PlaceOrderOpts.symbol opts)));
        ("positionSide",
          Some (str (getOrderPositionSide (Store.isHedged st)
                       (PlaceOrderOpts.side opts) (PlaceOrderOpts.type opts)
                       (PlaceOrderOpts.reduceOnly opts))));
        ("side", Some (str (ORDER_SIDE_inv (PlaceOrderOpts.side opts))));
        ("type", Some (str (ORDER_TYPE_inv OrderType.TrailingStopLoss)));
        ("quantity", Some (tpl (Position.contracts position)));
        ("callbackRate", Some callbackRate);
        ("priceProtect", Some (str "true"));
        ("newClientOrderId", Some (str (uuid n))) ] ]
  end end end.

(** *** [formatCreateOrder]

    The function is cut at the source's own intermediate values: the request
    skeleton [req], the payload list before identifiers are assigned, and
    the assignment loop. *)

(** [const req = omitUndefined({...})] *)
Definition createOrderReq (st : Store.t) (market : Market.t)
    (opts : PlaceOrderOpts.t) : PayloadOrder :=
  let isStopOrTP :=
    OrderType.eqb (PlaceOrderOpts.type opts) OrderType.StopLoss
    || OrderType.eqb (PlaceOrderOpts.type opts) OrderType.TakeProfit in
  let pSide := getOrderPositionSide (Store.isHedged st)
                 (PlaceOrderOpts.side opts) (PlaceOrderOpts.type opts)
                 (PlaceOrderOpts.reduceOnly opts) in
  let pPrice := Precision.price (Market.precision market) in
  let pAmount := Precision.amount (Market.precision market) in
  let amount := adjust (PlaceOrderOpts.amount opts) pAmount in
  (* price only for limit orders; market orders define none *)
  let price : option Q :=
    match PlaceOrderOpts.price opts with
    | Some p =>
        if Js.truthy p
           && negb (OrderType.eqb (PlaceOrderOpts.type opts) OrderType.Market)
        then Some (adjust p pPrice) else None
    | None => None
    end in
  (* stopPrice only for SL or TP orders *)
  let priceField := if isStopOrTP then "stopPrice" else "price" in
  let reduceOnly := negb (Store.isHedged st) && PlaceOrderOpts.reduceOnly opts in
  let timeInForce :=
    match PlaceOrderOpts.timeInForce opts with
    | Some tif => TIME_IN_FORCE_inv tif
    | None => TIME_IN_FORCE_inv OrderTimeInForce.GoodTillCancel
    end in
  omitUndefined [
    ("symbol", Some (str (PlaceOrderOpts.symbol opts)));
    ("positionSide", Some (str pSide));
    ("side", Some (str (ORDER_SIDE_inv (PlaceOrderOpts.side opts))));
    ("type", Some (str (ORDER_TYPE_inv (PlaceOrderOpts.type opts))));
    ("quantity", if Js.truthy amount then Some (tpl amount) else None);
    (priceField,
      match price with
      | Some p => if Js.truthy p then Some (tpl p) else None
      | None => None
      end);
    ("timeInForce",
      if OrderType.eqb (PlaceOrderOpts.type opts) OrderType.Limit
      then Some (str timeInForce) else None);
    ("closePosition", if isStopOrTP then Some (str "true") else None);
    ("reduceOnly",
      if reduceOnly && negb isStopOrTP then Some (str "true") else None) ].

(** The object pushed for [opts.stopLoss] and for [opts.takeProfit]:
    [{...omit(req, "price"), side, type, stopPrice, timeInForce,
    closePosition}]. *)
Definition attachedOrder (req : PayloadOrder) (side : OrderSide.t)
    (type : OrderType.t) (stopPrice : Q) : PayloadOrder :=
  <["closePosition" := str "true"]>
  (<["timeInForce" := str "GTC"]>
  (<["stopPrice" := tpl stopPrice]>
  (<["type" := str (ORDER_TYPE_inv type)]>
  (<["side" := str (ORDER_SIDE_inv (opposite side))]>
  (delete "price" req))))).

(** [const lots], [const rest] and [const lotSize], from the adjusted
    [amount]. *)
Definition lots (amount maxSize : Q) : Q :=
  if Js.gtb amount maxSize then Js.Math_ceil (amount / maxSize) else 1.

Definition rest (amount maxSize pAmount : Q) : Q :=
  if Js.gtb amount maxSize then adjust (Js.rem amount maxSize) pAmount else 0.

Definition lotSize (amount maxSize pAmount : Q) : Q :=
  adjust ((amount - rest amount maxSize pAmount) / lots amount maxSize) pAmount.

(** [payloads], up to the loop that assigns the identifiers. *)
Definition createOrderPayloads (st : Store.t) (market : Market.t)
    (opts : PlaceOrderOpts.t) : list PayloadOrder :=
  let req := createOrderReq st market opts in
  let maxSize := MinMax.max (Limits.amount (Market.limits market)) in
  let pAmount := Precision.amount (Market.precision market) in
  let amount := adjust (PlaceOrderOpts.amount opts) pAmount in
  let payloads :=
    replicate (Z.to_nat (Qfloor (lots amount maxSize)))
              (<["quantity" := tpl (lotSize amount maxSize pAmount)]> req) in
  let payloads :=
    if Js.truthy (rest amount maxSize pAmount)
    then push payloads (<["quantity" := tpl (rest amount maxSize pAmount)]> req)
    else payloads in
  let payloads :=
    match PlaceOrderOpts.stopLoss opts with
    | Some sl =>
        if Js.truthy sl
        then push payloads
               (attachedOrder req (PlaceOrderOpts.side opts) OrderType.StopLoss sl)
        else payloads
    | None => payloads
    end in
  match PlaceOrderOpts.takeProfit opts with
  | Some tp =>
      if Js.truthy tp
      then push payloads
             (attachedOrder req (PlaceOrderOpts.side opts) OrderType.TakeProfit tp)
      else payloads
  | None => payloads
  end.

Definition formatCreateOrder (opts : PlaceOrderOpts.t) : M (list PayloadOrder) :=
  if OrderType.eqb (PlaceOrderOpts.type opts) OrderType.TrailingStopLoss
  then formatCreateTrailingStopLossOrder opts
  else
    let* st := getStore in
    match find (fun m => String.eqb (Market.symbol m) (PlaceOrderOpts.symbol opts))
               (Store.markets st) with
    | None => throw (MarketNotFound (PlaceOrderOpts.symbol opts))
    | Some market =>
        (* every payload gets its own identifier, last *)
        forEach assignClientOrderId (createOrderPayloads st market opts)
    end.

(** *** [formatCreateSplitOrders] *)

(** The test [lowestSize < minSize || lowestSize * opts.fromPrice < minNotional],
    on exact numbers: where a side of it is an equality, or misses one by a
    rounding error, the source's test on doubles can differ. *)
Definition sliceInfeasible (lowestSize minSize fromPrice minNotional : Q) : bool :=
  Js.ltb lowestSize minSize || Js.ltb (lowestSize * fromPrice) minNotional.

(** One turn of the [for] loop: the request of rung [i] and the quantity it
    adds to [totalQuantity].  The weight and the price step divide by
    [opts.orders - 1], the floor by the rung price and the size by the total
    weight: with one order, a rung priced zero or a zero total weight the
    source has [NaN] or an infinity where the model has a number. *)
Definition splitOrderReq (market : Market.t) (pSide : string)
    (opts : SplidOrderOpts.t) (quantity totalWeight priceStep : Q) (i : nat)
    : M (PayloadOrder * Q) :=
  let minNotional := Limits.minNotional (Market.limits market) in
  let pPrice := Precision.price (Market.precision market) in
  let pAmount := Precision.amount (Market.precision market) in
  let weightOfOrder :=
    SplidOrderOpts.fromScale opts
    + (SplidOrderOpts.toScale opts - SplidOrderOpts.fromScale opts)
      * (inject_Z (Z.of_nat i) / (inject_Z (SplidOrderOpts.orders opts) - 1)) in
  let sizeOfOrder := quantity * (weightOfOrder / totalWeight) in
  let price := SplidOrderOpts.fromPrice opts + priceStep * inject_Z (Z.of_nat i) in
  let sizeOfOrder :=
    if Js.ltb (sizeOfOrder * price) (minNotional * 1.05)
    then (minNotional * 1.1) / price else sizeOfOrder in
  let* n := fresh in
  ret (omitUndefined [
         ("symbol", Some (str (SplidOrderOpts.symbol opts)));
         ("positionSide", Some (str pSide));
         ("side", Some (str (ORDER_SIDE_inv (SplidOrderOpts.side opts))));
         ("type", Some (str (ORDER_TYPE_inv (SplidOrderOpts.type opts))));
         ("quantity", Some (num (adjust sizeOfOrder pAmount)));
         ("timeInForce", Some (str "GTC"));
         ("price", Some (num (adjust price pPrice)));
         ("reduceOnly", Some (str "false"));
         ("newClientOrderId", Some (str (generateOrderId n))) ],
       adjust sizeOfOrder pAmount).

(** The quantity divides by the average price and the smallest slice by the
    total weight; at a zero there the source's smallest slice is [NaN] or an
    infinity and passes the test, which the model does not follow. *)
Definition formatCreateSplitOrders (opts : SplidOrderOpts.t) : M (list PayloadOrder) :=
  let* st := getStore in
  let market := find (fun m => String.eqb (Market.symbol m) (SplidOrderOpts.symbol opts))
                     (Store.markets st) in
  let ticker := find (fun t => String.eqb (Ticker.symbol t) (SplidOrderOpts.symbol opts))
                     (Store.tickers st) in
  match market with
  | None => throw (MarketNotFound (SplidOrderOpts.symbol opts))
  | Some market =>
  match ticker with
  | None => throw (TickerNotFound (SplidOrderOpts.symbol opts))
  | Some ticker =>
    let minSize := MinMax.min (Limits.amount (Market.limits market)) in
    let minNotional := Limits.minNotional (Market.limits market) in
    (* the split options carry no [reduceOnly] *)
    let pSide := getOrderPositionSide (Store.isHedged st)
                   (SplidOrderOpts.side opts) (SplidOrderOpts.type opts) false in
    let avgPrice := (SplidOrderOpts.fromPrice opts + SplidOrderOpts.toPrice opts) / 2 in
    let quantity := SplidOrderOpts.amount opts / avgPrice in
    let* _ := emit (Ev_info [Lit "Splitting "; Num (Qred (SplidOrderOpts.amount opts));
                             Lit " into "; Num (inject_Z (SplidOrderOpts.orders opts))]) in
    let* _ := emit (Ev_info [Lit "Quantity: "; Num (Qred quantity)]) in
    let totalWeight := calculateWeights (SplidOrderOpts.fromScale opts)
                         (SplidOrderOpts.toScale opts) (SplidOrderOpts.orders opts) in
    let lowestSize := (SplidOrderOpts.fromScale opts / totalWeight) * quantity in
    let proceed : M (list PayloadOrder) :=
      let priceDifference := SplidOrderOpts.toPrice opts - SplidOrderOpts.fromPrice opts in
      let priceStep := priceDifference / (inject_Z (SplidOrderOpts.orders opts) - 1) in
      let* rungs := forEach (splitOrderReq market pSide opts quantity totalWeight priceStep)
                            (seq 0 (Z.to_nat (SplidOrderOpts.orders opts))) in
      let totalQuantity := foldl Qplus 0 (List.map snd rungs) in
      let* _ := emit (Ev_info [Lit "Total Quantity: "; Num (Qred totalQuantity)]) in
      ret (List.map fst rungs) in
    if sliceInfeasible lowestSize minSize (SplidOrderOpts.fromPrice opts) minNotional then
      if SplidOrderOpts.autoReAdjust opts then
        let validOrdersAmount :=
          calcValidOrdersCount (SplidOrderOpts.fromScale opts)
            (SplidOrderOpts.toScale opts) (SplidOrderOpts.orders opts)
            quantity minSize minNotional totalWeight (SplidOrderOpts.fromPrice opts) in
        if (validOrdersAmount <? 3)%Z then
          let* _ := emit (Ev_error (Some [Lit "Bruh either u poor or retardio cannot split"])) in
          ret []
        else
          let reAdjustedWeight :=
            calculateWeights (SplidOrderOpts.fromScale opts)
              (SplidOrderOpts.toScale opts) validOrdersAmount in
          let newLowestSize := (SplidOrderOpts.fromScale opts / reAdjustedWeight) * quantity in
          if sliceInfeasible newLowestSize minSize (SplidOrderOpts.fromPrice opts) minNotional
          then
            let* _ := emit (Ev_error (Some [Lit "WTF u doing something wrong wen spliting orders ";
                                            Num (inject_Z validOrdersAmount)])) in
            ret []
          else proceed
      else
        let* _ := emit (Ev_error
                    (Some [Lit "Scale too extreme to split orders - no adjustments made"])) in
        ret []
    else proceed
  end end.

End Formatter.

(** ** A concrete instance of the imports *)

Module SpecModel.

(** Modelled from the spec: [adjust] of [utils/safe-math], which is not
    among the covered sources.  The design document has it snap a value to
    the step, flooring toward zero at the step. *)
Definition adjust (value step : Q) : Q :=
  step * inject_Z (Js.trunc (value / step)).

(** Modelled from the spec: [calculateWeights] of [utils/scaleWeights]:
    the sum over [i] in [[0, N)] of [s0 + (s1 - s0) * i / (N - 1)], or
    [N * s0] when both scales agree. *)
Definition weightOfOrder (fromScale toScale : Q) (orders : Z) (i : nat) : Q :=
  fromScale + (toScale - fromScale) * (inject_Z (Z.of_nat i) / inject_Z (orders - 1)).

Definition calculateWeights (fromScale toScale : Q) (orders : Z) : Q :=
  if Js.eqb fromScale toScale then inject_Z orders * fromScale
  else foldr Qplus 0
         (List.map (weightOfOrder fromScale toScale orders)
                   (seq 0 (Z.to_nat orders))).

(** Modelled from the spec: [calcValidOrdersCount] of [utils/scaleWeights]:
    the largest [N' <= N] that keeps the smallest slice feasible (zero when
    there is none). *)
Definition feasible (fromScale toScale amount minSize minNotional fromPrice : Q)
    (n : Z) : bool :=
  let lowest := (fromScale / calculateWeights fromScale toScale n) * amount in
  Js.geb lowest minSize && Js.geb (lowest * fromPrice) minNotional.

Definition calcValidOrdersCount
    (fromScale toScale : Q) (orders : Z)
    (amount minSize minNotional totalWeight fromPrice : Q) : Z :=
  let candidates := List.rev (List.map Z.of_nat (seq 1 (Z.to_nat orders))) in
  match List.find (feasible fromScale toScale amount minSize minNotional fromPrice)
                  candidates with
  | Some n => n
  | None => 0%Z
  end.

(** The instance the concrete inputs are run with: the three functions
    above, the plain difference for [subtract], identifiers numbered in the
    order they are drawn, and the order types and times in force under the
    names the venue gives them. *)
#[export] Instance externals : Externals :=
  Build_Externals
    adjust
    (fun a b => a - b)
    (fun n => "uuid-" +:+ pretty n)
    (fun n => "oid-" +:+ pretty n)
    (fun s =>
       if String.eqb s "LIMIT" then Some OrderType.Limit
       else if String.eqb s "MARKET" then Some OrderType.Market
       else if String.eqb s "STOP_MARKET" then Some OrderType.StopLoss
       else if String.eqb s "TAKE_PROFIT_MARKET" then Some OrderType.TakeProfit
       else if String.eqb s "TRAILING_STOP_MARKET" then Some OrderType.TrailingStopLoss
       else None)
    (fun t =>
       match t with
       | OrderType.Market => "MARKET"
       | OrderType.Limit => "LIMIT"
       | OrderType.StopLoss => "STOP_MARKET"
       | OrderType.TakeProfit => "TAKE_PROFIT_MARKET"
       | OrderType.TrailingStopLoss => "TRAILING_STOP_MARKET"
       end)
    (fun t =>
       match t with
       | OrderTimeInForce.GoodTillCancel => "GTC"
       | OrderTimeInForce.ImmediateOrCancel => "IOC"
       | OrderTimeInForce.FillOrKill => "FOK"
       | OrderTimeInForce.PostOnly => "GTX"
       end)
    (fun s =>
       match s with PositionSide.Long => "long" | PositionSide.Short => "short" end)
    calculateWeights
    calcValidOrdersCount.

End SpecModel.

(** ** Store operations

    The store is an external collaborator; the adapter only calls it. *)

(** The argument of [store.update({...})]: the sub-trees to replace. *)
Module Partial.
Record t := mk {
    markets : option (list Market.t);
    tickers : option (list Ticker.t);
    positions : option (list Position.t);
    balance : option Balance.t;
    orders : option (list Order.t);
    loaded : option Loaded.t;
    latency : option Q
  }.
Definition none : t := mk None None None None None None None.
End Partial.

(** The second argument of [store.updatePosition]. *)
Module PositionChanges.
Record t := mk {
    entryPrice : option Q;
    contracts : option Q;
    notional : option Q;
    unrealizedPnl : option Q;
    leverage : option Q
  }.
End PositionChanges.

Module StoreOps.

(** Modelled from the spec: [store.update] of the store interface, which is
    not among the covered sources.  Updates replace sub-trees rather than
    mutate in place. *)
Definition update (changes : Partial.t) (st : Store.t) : Store.t :=
  Store.mk
    (default (Store.markets st) (Partial.markets changes))
    (default (Store.tickers st) (Partial.tickers changes))
    (default (Store.positions st) (Partial.positions changes))
    (default (Store.balance st) (Partial.balance changes))
    (default (Store.orders st) (Partial.orders changes))
    (Store.isHedged st)
    (default (Store.loaded st) (Partial.loaded changes))
    (default (Store.latency st) (Partial.latency changes)).

(** Modelled from the spec: [store.setSetting("isHedged", value)]. *)
Definition setSetting_isHedged (value : bool) (st : Store.t) : Store.t :=
  Store.mk (Store.markets st) (Store.tickers st) (Store.positions st)
           (Store.balance st) (Store.orders st) value
           (Store.loaded st) (Store.latency st).

Definition applyChanges (c : PositionChanges.t) (p : Position.t) : Position.t :=
  Position.mk
    (Position.symbol p)
    (Position.side p)
    (default (Position.entryPrice p) (PositionChanges.entryPrice c))
    (default (Position.notional p) (PositionChanges.notional c))
    (default (Position.leverage p) (PositionChanges.leverage c))
    (default (Position.unrealizedPnl p) (PositionChanges.unrealizedPnl c))
    (default (Position.contracts p) (PositionChanges.contracts c))
    (Position.liquidationPrice p).

Definition samePosition (symbol : string) (side : PositionSide.t)
    (p : Position.t) : bool :=
  String.eqb (Position.symbol p) symbol && PositionSide.eqb (Position.side p) side.

(** Replace the first element that satisfies [test]. *)
Fixpoint replaceFirst {A} (test : A -> bool) (f : A -> A) (l : list A) : list A :=
  match l with
  | [] => []
  | x :: rest => if test x then f x :: rest else x :: replaceFirst test f rest
  end.

(** Modelled from the spec: [store.updatePosition(position, changes)]: the
    stored position with the symbol and side of [position] takes the fields
    of [changes]. *)
Definition updatePosition (symbol : string) (side : PositionSide.t)
    (changes : PositionChanges.t) (st : Store.t) : Store.t :=
  update
    (Partial.mk None None
       (Some (replaceFirst (samePosition symbol side) (applyChanges changes)
                           (Store.positions st)))
       None None None None)
    st.

(** Modelled from the spec: [store.updatePositions(updates)], one
    [updatePosition] per entry, in order. *)
Definition updatePositions
    (updates : list (string * PositionSide.t * PositionChanges.t))
    (st : Store.t) : Store.t :=
  foldl (fun st u => updatePosition u.1.1 u.1.2 u.2 st) st updates.

(** Modelled from the spec: [store.updateBalance(balance)]; the total is the
    sum of the assets' USD values after each balance update. *)
Definition updateBalance (balance : Balance.t) (st : Store.t) : Store.t :=
  update
    (Partial.mk None None None
       (Some (Balance.mk
                (foldl Qplus 0 (List.map WalletAsset.usdValue (Balance.assets balance)))
                (Balance.free balance) (Balance.used balance)
                (Balance.upnl balance) (Balance.assets balance)))
       None None None)
    st.

(** Modelled from the spec: [store.addOrUpdateOrder(order)], an upsert by
    client identifier. *)
Definition addOrUpdateOrder (order : Order.t) (st : Store.t) : Store.t :=
  let same (o : Order.t) := String.eqb (Order.id o) (Order.id order) in
  update
    (Partial.mk None None None None
       (Some (if existsb same (Store.orders st)
              then replaceFirst same (fun _ => order) (Store.orders st)
              else push (Store.orders st) order))
       None None)
    st.

(** Modelled from the spec: [store.removeOrder({id})]. *)
Definition removeOrder (id : string) (st : Store.t) : Store.t :=
  update
    (Partial.mk None None None None
       (Some (List.filter (fun o => negb (String.eqb (Order.id o) id))
                          (Store.orders st)))
       None None)
    st.

End StoreOps.

(** [this.store.<operation>(...)] *)
Definition modifyStore (f : Store.t -> Store.t) : M unit :=
  let* st := getStore in setStore (f st).

(** Modelled from the spec: the [POSITION_SIDE] table of [binance.types];
    the venue's position sides are [LONG] and [SHORT], anything else (the
    one-way [BOTH]) is not in the table. *)
Definition POSITION_SIDE (ps : string) : option PositionSide.t :=
  if String.eqb ps "LONG" then Some PositionSide.Long
  else if String.eqb ps "SHORT" then Some PositionSide.Short
  else None.

(** Modelled from the spec: the [ORDER_SIDE] table of [binance.types]. *)
Definition ORDER_SIDE (s : string) : option OrderSide.t :=
  if String.eqb s "BUY" then Some OrderSide.Buy
  else if String.eqb s "SELL" then Some OrderSide.Sell
  else None.

(** ** Venue data, decoded *)

Module RawFilter.
Record t := mk {
    filterType : string;
    tickSize : Q;
    stepSize : Q;
    minQty : Q;
    maxQty : Q;
    notional : Q
  }.
End RawFilter.

Module RawSymbol.
Record t := mk {
    symbol : string;
    contractType : string;
    marginAsset : string;
    status : string;
    baseAsset : string;
    quoteAsset : string;
    filters : list RawFilter.t
  }.
End RawSymbol.

Module RawBracket.
Record t := mk { symbol : string; brackets : list Q (* initialLeverage *) }.
End RawBracket.

Module RawDaily.
Record t := mk {
    symbol : string;
    lastPrice : Q;
    priceChangePercent : Q;
    volume : Q;
    quoteVolume : Q
  }.
End RawDaily.

Module RawBook.
Record t := mk { symbol : string; bidPrice : Q; askPrice : Q }.
End RawBook.

Module RawPrice.
Record t := mk {
    symbol : string;
    markPrice : Q;
    indexPrice : Q;
    lastFundingRate : Q
  }.
End RawPrice.

Module RawAsset.
Record t := mk { asset : string; walletBalance : Q }.
End RawAsset.

Module RawPosition.
Record t := mk {
    symbol : string;
    entryPrice : Q;
    positionAmt : Q;
    unrealizedProfit : Q;
    positionSide : string;
    leverage : Q;
    liquidationPrice : Q
  }.
End RawPosition.

Module RawAccount.
Record t := mk {
    availableBalance : Q;
    totalInitialMargin : Q;
    totalUnrealizedProfit : Q;
    assets : list RawAsset.t;
    positions : list RawPosition.t
  }.
End RawAccount.

Module RawOrder.
Record t := mk {
    clientOrderId : string;
    orderId : string;
    symbol : string;
    type : string;
    side : string;
    price : Q;
    stopPrice : Q;
    origQty : Q;
    executedQty : Q;
    reduceOnly : bool
  }.
End RawOrder.

(** ** Bootstrap, tick and leverage ([binance.exchange.ts]) *)

(** The replies [start] awaits, in the order it awaits them. *)
Module StartReplies.
Record t := mk {
    symbols : Reply.t (list RawSymbol.t);
    brackets : Reply.t (list RawBracket.t);
    dailys : Reply.t (list RawDaily.t);
    books : Reply.t (list RawBook.t);
    prices : Reply.t (list RawPrice.t);
    positionMode : Reply.t bool;
    account : Reply.t RawAccount.t;
    orders : Reply.t (list RawOrder.t)
  }.
End StartReplies.


Section Exchange.
Context `{Ext : Externals}.

(** Dereferencing [undefined] ([v(undefined, key)], a destructured
    [undefined]) throws a [TypeError]; inside a [try] the [catch] gets it. *)
Definition TypeError : JsError.t :=
  JsError.Error "Cannot read properties of undefined".

Definition unwantedSymbols : list string :=
  [ "BTSUSDT"; "TOMOUSDT"; "SCUSDT"; "HNTUSDT"; "SRMUSDT"; "FTTUSDT";
    "RAYUSDT"; "CVCUSDT"; "COCOSUSDT"; "STRAXUSDT"; "DGBUSDT"; "CTKUSDT";
    "ANTUSDT" ].

Definition includes (xs : list string) (x : string) : bool :=
  existsb (String.eqb x) xs.

Definition findFilter (m : RawSymbol.t) (filterType : string) : option RawFilter.t :=
  find (fun f => String.eqb (RawFilter.filterType f) filterType) (RawSymbol.filters m).

(** The body of the [.map] of [fetchMarkets]; [None] is the [TypeError]. *)
Definition marketOf (data : list RawBracket.t) (m : RawSymbol.t) : option Market.t :=
  p ← findFilter m "PRICE_FILTER";
  amt ← findFilter m "LOT_SIZE";
  notional ← findFilter m "MIN_NOTIONAL";
  mAmt ← findFilter m "MARKET_LOT_SIZE";
  b ← find (fun b => String.eqb (RawBracket.symbol b) (RawSymbol.symbol m)) data;
  initialLeverage ← head (RawBracket.brackets b);
  Some (Market.mk
          (RawSymbol.baseAsset m +:+ "/" +:+ RawSymbol.quoteAsset m +:+ ":"
             +:+ RawSymbol.marginAsset m)
          (RawSymbol.symbol m)
          (RawSymbol.baseAsset m)
          (RawSymbol.quoteAsset m)
          (String.eqb (RawSymbol.status m) "TRADING")
          (Precision.mk (RawFilter.stepSize amt) (RawFilter.tickSize p))
          (Limits.mk
             (MinMax.mk (Js.Math_max (RawFilter.minQty amt) (RawFilter.minQty mAmt))
                        (Js.Math_min (RawFilter.maxQty amt) (RawFilter.maxQty mAmt)))
             (RawFilter.notional notional)
             (MinMax.mk 1 initialLeverage))).

(** [catch (err) { emit("error", msg || message); return fallback }] *)
Definition emitAndReturn {A} (fallback : Store.t -> A) (err : JsError.t) : M A :=
  let* _ := emit (Ev_error (JsError.describe err)) in
  let* st := getStore in
  ret (fallback st).

Definition fetchMarkets (symbolsReply : Reply.t (list RawSymbol.t))
    (bracketReply : Reply.t (list RawBracket.t)) : M (list Market.t) :=
  try_catch
    (let* symbols := await Request.get_MARKETS symbolsReply in
     let* data := await Request.get_LEVERAGE_BRACKET bracketReply in
     let filteredSymbols :=
       List.filter (fun s => negb (includes unwantedSymbols (RawSymbol.symbol s)))
                   symbols in
     let supported :=
       List.filter (fun m => String.eqb (RawSymbol.contractType m) "PERPETUAL"
                             && String.eqb (RawSymbol.marginAsset m) "USDT")
                   filteredSymbols in
     match mapM (marketOf data) supported with
     | Some markets => ret markets
     | None => throw TypeError
     end)
    (emitAndReturn Store.markets).

Definition fetchTickers (dailyReply : Reply.t (list RawDaily.t))
    (bookReply : Reply.t (list RawBook.t))
    (priceReply : Reply.t (list RawPrice.t)) : M (list Ticker.t) :=
  try_catch
    (let* dailys := await Request.get_TICKERS_24H dailyReply in
     let* books := await Request.get_TICKERS_BOOK bookReply in
     let* prices := await Request.get_TICKERS_PRICE priceReply in
     let* st := getStore in
     ret (foldl
            (fun acc book =>
               let market := find (fun m => String.eqb (Market.symbol m) (RawBook.symbol book))
                                  (Store.markets st) in
               let daily := find (fun d => String.eqb (RawDaily.symbol d) (RawBook.symbol book))
                                 dailys in
               let price := find (fun p => String.eqb (RawPrice.symbol p) (RawBook.symbol book))
                                 prices in
               match market, daily, price with
               | Some market, Some daily, Some price =>
                   push acc
                     (Ticker.mk (Market.id market) (Market.symbol market)
                        (RawBook.bidPrice book) (RawBook.askPrice book)
                        (RawDaily.lastPrice daily)
                        (RawPrice.markPrice price) (RawPrice.indexPrice price)
                        (RawDaily.priceChangePercent daily)
                        (RawPrice.lastFundingRate price)
                        (RawDaily.volume daily) (RawDaily.quoteVolume daily)
                        0)
               | _, _, _ => acc
               end)
            [] books))
    (emitAndReturn Store.tickers).

(** One turn of [for (const assetData of data.assets)]. *)
Definition addAsset (st : Store.t) (balance : Balance.t) (assetData : RawAsset.t)
    : M Balance.t :=
  let walletBalance := RawAsset.walletBalance assetData in
  (* only assets with a positive wallet balance *)
  if Js.gtb walletBalance 0 then
    let asset := RawAsset.asset assetData in
    let* usdValue :=
      if negb (includes ["USDC"; "USDT"; "FDUSD"] asset) then
        let symbol := asset +:+ "USDT" in
        match find (fun t => String.eqb (Ticker.symbol t) symbol) (Store.tickers st) with
        | None => throw (TickerNotFound symbol)
        | Some ticker => ret (Ticker.last ticker * walletBalance)
        end
      else ret walletBalance in
    let assets := push (Balance.assets balance)
                       (WalletAsset.mk asset walletBalance usdValue) in
    ret (Balance.mk (foldl Qplus 0 (List.map WalletAsset.usdValue assets))
                    (Balance.free balance) (Balance.used balance)
                    (Balance.upnl balance) assets)
  else ret balance.

Fixpoint addAssets (st : Store.t) (balance : Balance.t) (assets : list RawAsset.t)
    : M Balance.t :=
  match assets with
  | [] => ret balance
  | a :: rest => let* balance := addAsset st balance a in addAssets st balance rest
  end.

(** The body of the [.map] that builds a [Position] from the account data. *)
Definition positionOf (p : RawPosition.t) : Position.t :=
  let entryPrice := RawPosition.entryPrice p in
  let contracts := RawPosition.positionAmt p in
  let upnl := RawPosition.unrealizedProfit p in
  let pSide := RawPosition.positionSide p in
  (* outside hedge mode the side comes from the sign of the amount *)
  let side :=
    match POSITION_SIDE pSide with
    | Some side => side
    | None => if Js.gtb contracts 0 then PositionSide.Long else PositionSide.Short
    end in
  Position.mk
    (RawPosition.symbol p)
    side
    entryPrice
    (Js.Math_abs (contracts * entryPrice + upnl))
    (RawPosition.leverage p)
    upnl
    (Js.Math_abs contracts)
    (RawPosition.liquidationPrice p).

Definition fetchBalanceAndPositions (accountReply : Reply.t RawAccount.t)
    : M (list Position.t * Balance.t) :=
  try_catch
    (let* data := await Request.get_ACCOUNT accountReply in
     let* st := getStore in
     let balance := Balance.mk 0 (RawAccount.availableBalance data)
                               (RawAccount.totalInitialMargin data)
                               (RawAccount.totalUnrealizedProfit data) [] in
     let* balance := addAssets st balance (RawAccount.assets data) in
     (* positions of markets the adapter does not support are dropped *)
     let supportedPositions :=
       List.filter
         (fun p => existsb (fun m => String.eqb (Market.symbol m) (RawPosition.symbol p))
                           (Store.markets st))
         (RawAccount.positions data) in
     let positions := List.map positionOf supportedPositions in
     ret (positions, balance))
    (emitAndReturn (fun st => (Store.positions st, Store.balance st))).

(** One open order of the venue.  The remaining quantity is left to
    [subtract] of [utils/safe-math], which is not part of these sources. *)
Definition orderOf (o : RawOrder.t) : Order.t :=
  Order.mk
    (RawOrder.clientOrderId o)
    (RawOrder.orderId o)
    OrderStatus.Open
    (RawOrder.symbol o)
    (ORDER_TYPE (RawOrder.type o))
    (ORDER_SIDE (RawOrder.side o))
    (if Js.truthy (RawOrder.price o) then RawOrder.price o else RawOrder.stopPrice o)
    (RawOrder.origQty o)
    (RawOrder.executedQty o)
    (subtract (RawOrder.origQty o) (RawOrder.executedQty o))
    (RawOrder.reduceOnly o).

Definition fetchOrders (ordersReply : Reply.t (list RawOrder.t)) : M (list Order.t) :=
  try_catch
    (let* data := await Request.get_OPEN_ORDERS ordersReply in
     ret (List.map orderOf data))
    (emitAndReturn Store.orders).

(** [data.dualSidePosition === true]; a rejection is not caught here. *)
Definition fetchPositionMode (modeReply : Reply.t bool) : M bool :=
  await Request.get_HEDGE_MODE modeReply.

Definition setLoaded (f : Loaded.t -> Loaded.t) (st : Store.t) : option Loaded.t :=
  Some (f (Store.loaded st)).

(** One run of [tick]; the source then schedules the next one with [loop]. *)
Definition tick (accountReply : Reply.t RawAccount.t) : M unit :=
  let* disposed := getDisposed in
  if negb disposed then
    try_catch
      (let* r := fetchBalanceAndPositions accountReply in
       let* disposed := getDisposed in
       if disposed then ret tt
       else
         modifyStore (fun st =>
           StoreOps.update
             (Partial.mk None None (Some r.1) (Some r.2) None
                (setLoaded (fun l => Loaded.mk (Loaded.markets l) (Loaded.tickers l)
                                               true true (Loaded.orders l)) st)
                None)
             st))
      (fun err => emit (Ev_error (JsError.message err)))
  else ret tt.

(** [start]; opening the two websockets and the log lines are left to the
    collaborators that own them. *)
Definition start (r : StartReplies.t) : M unit :=
  let* markets := fetchMarkets (StartReplies.symbols r) (StartReplies.brackets r) in
  let* disposed := getDisposed in
  if disposed then ret tt else
  let* _ := modifyStore (fun st =>
    StoreOps.update
      (Partial.mk (Some markets) None None None None
         (setLoaded (fun l => Loaded.mk true (Loaded.tickers l) (Loaded.balance l)
                                        (Loaded.positions l) (Loaded.orders l)) st)
         None) st) in
  let* tickers := fetchTickers (StartReplies.dailys r) (StartReplies.books r)
                               (StartReplies.prices r) in
  let* disposed := getDisposed in
  if disposed then ret tt else
  let* _ := modifyStore (fun st =>
    StoreOps.update
      (Partial.mk None (Some tickers) None None None
         (setLoaded (fun l => Loaded.mk (Loaded.markets l) true (Loaded.balance l)
                                        (Loaded.positions l) (Loaded.orders l)) st)
         None) st) in
  let* isHedged := fetchPositionMode (StartReplies.positionMode r) in
  let* _ := modifyStore (StoreOps.setSetting_isHedged isHedged) in
  let* _ := tick (StartReplies.account r) in
  let* disposed := getDisposed in
  if disposed then ret tt else
  let* orders := fetchOrders (StartReplies.orders r) in
  let* disposed := getDisposed in
  if disposed then ret tt else
  modifyStore (fun st =>
    StoreOps.update
      (Partial.mk None None None None (Some orders)
         (setLoaded (fun l => Loaded.mk (Loaded.markets l) (Loaded.tickers l)
                                        (Loaded.balance l) (Loaded.positions l) true) st)
         None) st).

(** *** [setLeverage] *)

(** [Math.min(Math.max(inputLeverage, min), max)] *)
Definition clampLeverage (market : Market.t) (inputLeverage : Q) : Q :=
  Js.Math_min
    (Js.Math_max inputLeverage (MinMax.min (Limits.leverage (Market.limits market))))
    (MinMax.max (Limits.leverage (Market.limits market))).

Definition leverageChange (leverage : Q) : PositionChanges.t :=
  PositionChanges.mk None None None None (Some leverage).

(** [postReply] is consulted only when the request is sent. *)
Definition setLeverage (symbol : string) (inputLeverage : Q)
    (postReply : Reply.t unit) : M unit :=
  let* st := getStore in
  let market := find (fun m => String.eqb (Market.symbol m) symbol) (Store.markets st) in
  let position := find (fun p => String.eqb (Position.symbol p) symbol)
                       (Store.positions st) in
  match market with
  | None => throw (MarketNotFound symbol)
  | Some market =>
  match position with
  | None => throw (PositionNotFound symbol)
  | Some position =>
      let leverage := clampLeverage market inputLeverage in
      if negb (Js.eqb (Position.leverage position) leverage) then
        try_catch
          (let* _ := await (Request.post_SET_LEVERAGE symbol leverage) postReply in
           modifyStore
             (StoreOps.updatePositions
                [ (symbol, PositionSide.Long, leverageChange leverage);
                  (symbol, PositionSide.Short, leverageChange leverage) ]))
          (fun err => emit (Ev_error (JsError.describe err)))
      else ret tt
  end end.

End Exchange.

(** ** The dispatch queue ([orderQueueManager.ts])

    The processing task is the only reader of the clock.  Each time it
    resumes it tests [queue.length > 0], reads [Date.now()] and runs one
    pass of the loop body up to its [sleep]; nothing else touches the
    windows.  A run of the manager is therefore a sequence of inputs:
    callers enqueueing, the task resuming at some clock reading, a
    dispatched batch resolving or rejecting, a caller draining the results. *)

Module OrderQueueManager.

Record t := mk {
    queue : list PayloadOrder;
    processing : bool;
    results : list string;
    orderTimestamps10s : list Z;   (* oldest first *)
    orderTimestamps60s : list Z;
    emitted : list event
  }.

(** A fresh manager. *)
Definition init : t := mk [] false [] [] [] [].

(** A number that may be [NaN] ([None]): the source reads [ts[0]] of a
    window that may be empty. *)
Definition nan_min (a b : option Q) : option Q :=
  match a, b with
  | Some a, Some b => Some (Js.Math_min a b)
  | _, _ => None
  end.

(** [enqueueOrders]; [startProcessing] is launched when no task runs. *)
Definition enqueueOrders (orders : list PayloadOrder) (s : t) : t :=
  let queue := (queue s ++ orders)%list in
  mk queue true (results s) (orderTimestamps10s s) (orderTimestamps60s s)
     (push (emitted s) (Ev_orderManager (length queue))).

Definition isProcessing (s : t) : bool := processing s.

Definition getResults (s : t) : list string * t :=
  (results s,
   mk (queue s) (processing s) [] (orderTimestamps10s s) (orderTimestamps60s s)
      (emitted s)).

(** What one pass of the loop body does before it suspends. *)
Inductive Pass :=
  | Saturated (sleep : option Q)
  | Dispatched (batch : list PayloadOrder) (sleep : option Q).

(** [ts.filter((timestamp) => now - timestamp < window)] *)
Definition prune (window now : Z) (ts : list Z) : list Z :=
  List.filter (fun timestamp => (now - timestamp <? window)%Z) ts.

(** [Math.min(300 - |w10|, 1200 - |w60|, queue.length, 5)] *)
Definition maxAllowedSize (w10 w60 : list Z) (queue : list PayloadOrder) : Z :=
  Z.min (Z.min (Z.min (300 - Z.of_nat (length w10)) (1200 - Z.of_nat (length w60)))
               (Z.of_nat (length queue)))
        5.

(** [remainingLots > 0 ? remainingTime / remainingLots : 1000] for one
    window, after the admitted timestamps were pushed. *)
Definition sleepTime (window cap now : Z) (ts : list Z) : option Q :=
  let remainingTime : option Q :=
    match head ts with
    | Some oldest => Some (inject_Z (window - (now - oldest)))
    | None => None
    end in
  let remainingLots := ((cap - Z.of_nat (length ts)) / 5)%Z in
  if (0 <? remainingLots)%Z
  then match remainingTime with
       | Some t => Some (t / inject_Z remainingLots)
       | None => None
       end
  else Some 1000.

(** The body of the [while] loop of [processOrders], entered with a
    non-empty queue at clock reading [now]. *)
Definition processOrdersPass (now : Z) (s : t) : t * Pass :=
  let w10 := prune 10000 now (orderTimestamps10s s) in
  let w60 := prune 60000 now (orderTimestamps60s s) in
  if (300 <=? Z.of_nat (length w10))%Z || (1200 <=? Z.of_nat (length w60))%Z then
    (mk (queue s) (processing s) (results s) w10 w60 (emitted s),
     Saturated
       (match head w10, head w60 with
        | Some t10, Some t60 => Some (inject_Z (now - Z.min t10 t60 + 1))
        | _, _ => None
        end))
  else
    let n := Z.to_nat (maxAllowedSize w10 w60 (queue s)) in
    let batch := take n (queue s) in
    let queue := drop n (queue s) in
    let w10 := (w10 ++ replicate (length batch) now)%list in
    let w60 := (w60 ++ replicate (length batch) now)%list in
    (mk queue (processing s) (results s) w10 w60
        (push (emitted s) (Ev_orderManager (length queue))),
     Dispatched batch
       (nan_min (sleepTime 10000 300 now w10) (sleepTime 60000 1200 now w60))).

(** The task resumes: both [while (this.queue.length > 0)] tests, then a
    pass; with an empty queue the task ends and resets the flag. *)
Definition resume (now : Z) (s : t) : t * option Pass :=
  if processing s then
    match queue s with
    | [] => (mk (queue s) false (results s) (orderTimestamps10s s)
                (orderTimestamps60s s) (emitted s), None)
    | _ :: _ => let r := processOrdersPass now s in (r.1, Some r.2)
    end
  else (s, None).

(** The [.then] of a dispatched batch. *)
Definition batchResolved (orderResults : list (string * option JsError.t)) (s : t) : t :=
  let successfulOrderIds :=
    List.map fst (List.filter (fun r => match r.2 with None => true | Some _ => false end)
                              orderResults) in
  mk (queue s) (processing s) (results s ++ successfulOrderIds)%list
     (orderTimestamps10s s) (orderTimestamps60s s)
     (push (emitted s) (Ev_batchResolved orderResults)).

(** The [.catch] of a dispatched batch. *)
Definition batchRejected (err : JsError.t) (s : t) : t :=
  mk (queue s) (processing s) (results s) (orderTimestamps10s s) (orderTimestamps60s s)
     (push (emitted s) (Ev_error2 "An unexpected error occurred:" err)).

Inductive input :=
  | Enqueue (orders : list PayloadOrder)
  | Resume (now : Z)
  | BatchResolved (orderResults : list (string * option JsError.t))
  | BatchRejected (err : JsError.t)
  | GetResults.

(** The admission timestamps a pass charges: one per dispatched payload. *)
Definition admitted (now : Z) (p : option Pass) : list Z :=
  match p with
  | Some (Dispatched batch _) => replicate (length batch) now
  | _ => []
  end.

Definition step (i : input) (s : t) : t * list Z :=
  match i with
  | Enqueue orders => (enqueueOrders orders s, [])
  | Resume now => let r := resume now s in (r.1, admitted now r.2)
  | BatchResolved orderResults => (batchResolved orderResults s, [])
  | BatchRejected err => (batchRejected err s, [])
  | GetResults => ((getResults s).2, [])
  end.

(** The state after the inputs and, oldest first, every admission
    timestamp charged on the way. *)
Fixpoint run (inputs : list input) (s : t) : t * list Z :=
  match inputs with
  | [] => (s, [])
  | i :: rest =>
      let r := step i s in
      let r' := run rest r.1 in
      (r'.1, (r.2 ++ r'.2)%list)
  end.

(** The clock readings of a run, in order. *)
Definition clock (inputs : list input) : list Z :=
  omap (fun i => match i with Resume now => Some now | _ => None end) inputs.

(** The number of admissions charged in the window of [width] ms that ends
    at [T]: timestamps [t] with [T - width < t <= T]. *)
Definition admittedWithin (width T : Z) (log : list Z) : nat :=
  length (List.filter (fun t => (T - width <? t)%Z && (t <=? T)%Z) log).

(** The time at which the oldest entry of a window leaves it: the first
    clock reading that [prune] no longer keeps it at. *)
Definition agesOutAt (window oldest : Z) : Z := (oldest + window)%Z.

(** The windows of the manager are the log of admissions, pruned at the
    last clock reading a pass has seen. *)
Definition Inv (s : t) (log : list Z) (seen : Z) : Prop :=
  orderTimestamps10s s = prune 10000 seen log
  /\ orderTimestamps60s s = prune 60000 seen log.

Definition WindowsOK (log : list Z) : Prop :=
  forall T, (admittedWithin 10000 T log <= 300)%nat
            /\ (admittedWithin 60000 T log <= 1200)%nat.

(** [setTimeout(resolve, ms)] with an exact timer: whole milliseconds, at
    least one, also for [NaN]. *)
Definition delay (ms : option Q) : Z :=
  match ms with
  | Some ms => Z.max 1 (Qceiling ms)
  | None => 1%Z
  end.

(** The task from clock reading [now] on, when every [sleep] lasts exactly
    as long as asked and nothing else is enqueued: the passes with the
    clock reading of each, up to and including the first saturated one. *)
Fixpoint drive (fuel : nat) (now : Z) (s : t) : list (Z * Pass) :=
  match fuel with
  | O => []
  | S fuel =>
      match resume now s with
      | (s', Some (Saturated sleep)) => [(now, Saturated sleep)]
      | (s', Some (Dispatched batch sleep)) =>
          (now, Dispatched batch sleep) :: drive fuel (now + delay sleep)%Z s'
      | (s', None) => []
      end
  end.

End OrderQueueManager.

(** ** The private stream ([binance.ws-private.ts]) *)

(** A position slot and a balance slot of an [ACCOUNT_UPDATE], with the
    decimal strings already read by [parseFloat]. *)
Module PositionSlot.
Record t := mk { s : string; ps : string; ep : Q; pa : Q; up : Q }.
End PositionSlot.

Module BalanceSlot.
Record t := mk { a : string; wb : Q }.
End BalanceSlot.

Module AccountData.
Record t := mk { P : list PositionSlot.t; B : list BalanceSlot.t }.
End AccountData.

(** The order object [o] of an [ORDER_TRADE_UPDATE]. *)
Module OrderData.
Record t := mk {
    X : string;
    c : string;
    i : string;
    T : Q;
    S : string;
    s : string;
    ot : string;
    ap : Q;
    rp : Q;
    l : Q;
    R : bool;
    m : bool;
    n : option Q;
    p : Q;
    sp : Q;
    q : Q;
    z : Q
  }.
End OrderData.

(** A decoded message, as far as the stream reads it. *)
Module Message.
Record t := mk {
    e : option string;
    id : option Q;
    a : option AccountData.t;
    o : option OrderData.t
  }.
End Message.

Module PrivateWs.

(** The fields of the socket object the callbacks use.  [timers] are the
    pending timeouts that will call [ping], with their delay in ms; a timer
    identifier is a positive integer, hence truthy. *)
Record t := mk {
    isDisposed : bool;
    pingAt : Q;
    pingTimeoutId : option positive;
    timers : gmap positive Q;
    nextTimer : positive;
    sent : list (Q * string)   (* the [id] and [method] of each frame sent *)
  }.

Definition setTimeout_ping (delay : Q) (s : t) : positive * t :=
  (nextTimer s,
   mk (isDisposed s) (pingAt s) (pingTimeoutId s)
      (<[nextTimer s := delay]> (timers s)) (Pos.succ (nextTimer s)) (sent s)).

Definition clearTimeout (id : positive) (s : t) : t :=
  mk (isDisposed s) (pingAt s) (pingTimeoutId s)
     (delete id (timers s)) (nextTimer s) (sent s).

Definition set_pingTimeoutId (id : option positive) (s : t) : t :=
  mk (isDisposed s) (pingAt s) id (timers s) (nextTimer s) (sent s).

(** [ping], called at [performance.now() = now]. *)
Definition ping (now : Q) (s : t) : t :=
  if negb (isDisposed s) then
    mk (isDisposed s) now (pingTimeoutId s) (timers s) (nextTimer s)
       (push (sent s) (42, "LIST_SUBSCRIPTIONS"))
  else s.

Definition onOpen (now : Q) (s : t) : t :=
  if negb (isDisposed s) then ping now s else s.

Section Handlers.
Context `{Ext : Externals}.

(** One turn of [event.a.P.forEach]. *)
Definition handlePositionSlot (p : PositionSlot.t) : M unit :=
  let symbol := PositionSlot.s p in
  let side := POSITION_SIDE (PositionSlot.ps p) in
  let* st := getStore in
  let position :=
    find (fun p2 => String.eqb (Position.symbol p2) symbol
                    && match side with
                       | Some side => PositionSide.eqb (Position.side p2) side
                       | None => false
                       end)
         (Store.positions st) in
  match position with
  | Some position =>
      let entryPrice := PositionSlot.ep p in
      let contracts := PositionSlot.pa p in
      let upnl := PositionSlot.up p in
      modifyStore
        (StoreOps.updatePosition (Position.symbol position) (Position.side position)
           (PositionChanges.mk (Some entryPrice) (Some contracts)
              (Some (contracts * entryPrice + upnl)) (Some upnl) None))
  | None => ret tt
  end.

(** One turn of [event.a.B.forEach]: the asset is replaced in place. *)
Definition handleBalanceSlot (b : BalanceSlot.t) : M unit :=
  let symbol := BalanceSlot.a b in
  let walletBalance := BalanceSlot.wb b in
  modifyStore (fun st =>
    let balance := Store.balance st in
    StoreOps.update
      (Partial.mk None None None
         (Some (Balance.mk (Balance.total balance) (Balance.free balance)
                  (Balance.used balance) (Balance.upnl balance)
                  (StoreOps.replaceFirst
                     (fun a => String.eqb (WalletAsset.symbol a) symbol)
                     (fun a => WalletAsset.mk (WalletAsset.symbol a) walletBalance
                                              (WalletAsset.usdValue a))
                     (Balance.assets balance))))
         None None None)
      st).

Definition handleAccountEvent (event : Message.t) : M unit :=
  let* _ := emit Ev_positionUpdate in
  match Message.a event with
  | None => throw TypeError
  | Some a =>
      let* _ := forEach handlePositionSlot (AccountData.P a) in
      let* _ := forEach handleBalanceSlot (AccountData.B a) in
      modifyStore (fun st => StoreOps.updateBalance (Store.balance st) st)
  end.

Definition handleAccountEvents (events : list Message.t) : M unit :=
  let* _ := forEach handleAccountEvent events in ret tt.

(** One order event.  The remaining quantity of a [NEW] order is the
    source's [parseFloat(data.q) - parseFloat(data.z)], here the difference
    of two rationals: it is the source's number when [z] is zero, and may
    differ from it in the last binary digit otherwise. *)
Definition handleOrderEvent (event : Message.t) : M unit :=
  match Message.o event with
  | None => throw TypeError
  | Some data =>
      let X := OrderData.X data in
      let* _ :=
        if String.eqb X "PARTIALLY_FILLED" || String.eqb X "FILLED" then
          emit (Ev_fill (Fill.mk (OrderData.c data) (OrderData.T data)
                           (ORDER_SIDE (OrderData.S data)) (OrderData.s data)
                           (OrderData.ap data) (OrderData.rp data) (OrderData.l data)
                           (OrderData.R data) (OrderData.m data)
                           (OrderData.l data * OrderData.ap data)
                           (match OrderData.n data with
                            | Some n => if Js.truthy n then Some n else None
                            | None => None
                            end)))
        else ret tt in
      let* _ :=
        if String.eqb X "NEW" then
          modifyStore
            (StoreOps.addOrUpdateOrder
               (Order.mk (OrderData.c data) (OrderData.i data) OrderStatus.Open
                  (OrderData.s data) (ORDER_TYPE (OrderData.ot data))
                  (ORDER_SIDE (OrderData.S data))
                  (if Js.truthy (OrderData.p data)
                   then OrderData.p data else OrderData.sp data)
                  (OrderData.q data) (OrderData.z data)
                  (OrderData.q data - OrderData.z data)
                  (OrderData.R data)))
        else ret tt in
      if String.eqb X "CANCELED" || String.eqb X "FILLED" || String.eqb X "EXPIRED"
      then modifyStore (StoreOps.removeOrder (OrderData.c data))
      else ret tt
  end.

Definition handleOrderEvents (events : list Message.t) : M unit :=
  let* _ := forEach handleOrderEvent events in ret tt.

Definition eventIs (e : option string) (name : string) : bool :=
  match e with Some s => String.eqb s name | None => false end.

(** [onMessage]; [json] is [None] when [jsonParse] could not decode the
    data, and [now] is what [performance.now()] reads while the message is
    handled. *)
Definition onMessage (now : Q) (json : option Message.t) (s : t) (w : World.t)
    : Outcome unit * (t * World.t) :=
  if negb (isDisposed s) then
    let e := json ≫= Message.e in
    let id := json ≫= Message.id in
    let events := match json with Some m => [m] | None => [] end in
    match (let* _ := if eventIs e "ACCOUNT_UPDATE" then handleAccountEvents events else ret tt in
           if eventIs e "ORDER_TRADE_UPDATE" then handleOrderEvents events else ret tt) w with
    | (Throw err, w) => (Throw err, (s, w))
    | (Return _, w) =>
        if match id with Some id => Js.eqb id 42 | None => false end then
          let diff := now - pingAt s in
          let w := (modifyStore
                      (StoreOps.update
                         (Partial.mk None None None None None None
                            (Some (Js.Math_round (diff / 2))))) w).2 in
          let s := match pingTimeoutId s with
                   | Some id => set_pingTimeoutId None (clearTimeout id s)
                   | None => s
                   end in
          let r := setTimeout_ping 10000 s in
          (Return tt, (set_pingTimeoutId (Some r.1) r.2, w))
        else (Return tt, (s, w))
    end
  else (Return tt, (s, w)).

End Handlers.

End PrivateWs.

(** ** Vocabulary of the statements *)

(** The world after [n] more identifiers were drawn. *)
Definition withIds (w : World.t) (n : nat) : World.t :=
  World.mk (World.store w) (World.isDisposed w) (World.ids w + n)%nat
           (World.emitted w) (World.requests w).

(** The world after [events] were emitted. *)
Definition emits (w : World.t) (events : list event) : World.t :=
  World.mk (World.store w) (World.isDisposed w) (World.ids w)
           (World.emitted w ++ events)%list (World.requests w).

(** The world after request [r] was sent and answered. *)
Definition requested (w : World.t) (disposedMeanwhile : bool) (r : Request.t) : World.t :=
  World.mk (World.store w) (World.isDisposed w || disposedMeanwhile) (World.ids w)
           (World.emitted w) (World.requests w ++ [r])%list.

(** The world after [requests] were sent and the last was rejected with
    [err]: the error is emitted, the store is as it was. *)
Definition failed (w : World.t) (disposedMeanwhile : bool) (requests : list Request.t)
    (err : JsError.t) : World.t :=
  World.mk (World.store w) (World.isDisposed w || disposedMeanwhile) (World.ids w)
           (World.emitted w ++ [Ev_error (JsError.describe err)])%list
           (World.requests w ++ requests)%list.

Definition withStore (st : Store.t) (w : World.t) : World.t :=
  World.mk st (World.isDisposed w) (World.ids w) (World.emitted w) (World.requests w).

(** The value the last entry for [k] gives it in an object literal. *)
Definition lastField (k : string) (fields : list (string * option jsval)) : option jsval :=
  match find (fun kv => String.eqb kv.1 k) (rev fields) with
  | Some kv => kv.2
  | None => None
  end.



(** The attached stop-loss as the design document's scenario states it. *)
Definition statedStopLoss (stopPrice : Q) (p : PayloadOrder) : Prop :=
  p !! "side" = Some (str "SELL")
  /\ p !! "positionSide" = Some (str "SHORT")
  /\ p !! "closePosition" = Some (str "true")
  /\ p !! "stopPrice" = Some (tpl stopPrice)
  /\ p !! "price" = None
  /\ p !! "reduceOnly" = None.

Definition quantities (out : list PayloadOrder) : list (option jsval) :=
  (fun p => p !! "quantity") <$> out.


Definition nonNegativeContracts (positions : list Position.t) : Prop :=
  Forall (fun p => 0 <= Position.contracts p) positions.


(** ** Concrete inputs *)

Module Examples.

(** [max = 100], step [0.1]. *)
Definition market : Market.t :=
  Market.mk "BTC/USDT:USDT" "BTCUSDT" "BTC" "USDT" true
    (Precision.mk 0.1 0.1)
    (Limits.mk (MinMax.mk 0.1 100) 5 (MinMax.mk 1 125)).

(** [minSize = 0.001], [minNotional = 5], steps [0.001] and [0.1]. *)
Definition ethMarket : Market.t :=
  Market.mk "ETH/USDT:USDT" "ETHUSDT" "ETH" "USDT" true
    (Precision.mk 0.001 0.1)
    (Limits.mk (MinMax.mk 0.001 10000) 5 (MinMax.mk 1 100)).

Definition ticker : Ticker.t :=
  Ticker.mk "BTC/USDT:USDT" "BTCUSDT" 100 100 100 100 100 0 0 0 0 0.
Definition ethTicker : Ticker.t :=
  Ticker.mk "ETH/USDT:USDT" "ETHUSDT" 100 100 100 100 100 0 0 0 0 0.

Definition longPosition : Position.t :=
  Position.mk "BTCUSDT" PositionSide.Long 100 100 10 0 1 0.
Definition shortPosition : Position.t :=
  Position.mk "BTCUSDT" PositionSide.Short 100 100 10 0 1 0.

Definition store (isHedged : bool) : Store.t :=
  Store.mk [market; ethMarket] [ticker; ethTicker] [longPosition; shortPosition]
           (Balance.mk 0 0 0 0 []) [] isHedged
           (Loaded.mk true true true true true) 0.

Definition world (isHedged : bool) : World.t :=
  World.mk (store isHedged) false 0 [] [].

(** Buy Limit at 100 for 2 contracts with a stop-loss at 95. *)
Definition buyLimitWithStop : PlaceOrderOpts.t :=
  PlaceOrderOpts.mk "BTCUSDT" OrderType.Limit OrderSide.Buy (Some 100) 2
                    None false (Some 95) None.

(** Buy 250.35 contracts at market. *)
Definition buy250_35 : PlaceOrderOpts.t :=
  PlaceOrderOpts.mk "BTCUSDT" OrderType.Market OrderSide.Buy None 250.35
                    None false None None.

(** Twelve dollars over ten rungs from 100 to 110, scaled 1 to 20. *)
Definition split (autoReAdjust : bool) : SplidOrderOpts.t :=
  SplidOrderOpts.mk "ETHUSDT" OrderSide.Buy OrderType.Limit 12 10 100 110 1 20
                    autoReAdjust.

(** An [ACCOUNT_UPDATE] for the short position, two contracts short: the
    venue reports the amount of a short position as a negative number. *)
Definition accountUpdate : Message.t :=
  Message.mk (Some "ACCOUNT_UPDATE") None
    (Some (AccountData.mk [PositionSlot.mk "BTCUSDT" "SHORT" 100 (-2) 0] []))
    None.

(** The echo of the ping, and a stream that pinged at 1000 ms and still
    records timer 7. *)
Definition echo : Message.t := Message.mk None (Some 42) None None.

Definition networkError : JsError.t := JsError.Error "Network Error".

(** Seven payloads enqueued, two passes, the results drained. *)
Definition queueInputs : list OrderQueueManager.input :=
  [ OrderQueueManager.Enqueue (replicate 7 ∅);
    OrderQueueManager.Resume 0;
    OrderQueueManager.Resume 170;
    OrderQueueManager.GetResults ].

(** 1500 one-payload orders enqueued at once on a fresh queue. *)
Definition burst : OrderQueueManager.t :=
  OrderQueueManager.enqueueOrders (replicate 1500 ∅) OrderQueueManager.init.

End Examples.

(** ** Callers of the formatter and of the venue *)

Section Placement.
Context `{Ext : Externals}.

(** [orders.flatMap((o) => this.formatCreateOrder(o))], the first statement
    of [placeOrders] and of [placeOrdersFast]. *)
Fixpoint formatCreateOrders (orders : list PlaceOrderOpts.t) : M (list PayloadOrder) :=
  match orders with
  | [] => ret []
  | o :: rest =>
      let* payloads := formatCreateOrder o in
      let* more := formatCreateOrders rest in
      ret (payloads ++ more)%list
  end.

End Placement.

(** The client identifiers of a list of payloads. *)
Definition clientIds (out : list PayloadOrder) : list (option jsval) :=
  (fun p => p !! "newClientOrderId") <$> out.

(** [this.store.markets.find(...)] and [this.store.tickers.find(...)] by
    symbol. *)
Definition knownMarket (w : World.t) (symbol : string) : option Market.t :=
  find (fun m => String.eqb (Market.symbol m) symbol) (Store.markets (World.store w)).
Definition knownTicker (w : World.t) (symbol : string) : option Ticker.t :=
  find (fun t => String.eqb (Ticker.symbol t) symbol) (Store.tickers (World.store w)).



(** [opts.type] is [StopLoss] or [TakeProfit]. *)
Definition isStopOrTP (opts : PlaceOrderOpts.t) : bool :=
  OrderType.eqb (PlaceOrderOpts.type opts) OrderType.StopLoss
  || OrderType.eqb (PlaceOrderOpts.type opts) OrderType.TakeProfit.



(** The venue symbols the catalog keeps: not delisted, perpetual, margined
    in USDT. *)
Definition listed (raw : RawSymbol.t) : bool :=
  negb (includes unwantedSymbols (RawSymbol.symbol raw))
  && String.eqb (RawSymbol.contractType raw) "PERPETUAL"
  && String.eqb (RawSymbol.marginAsset raw) "USDT".

(** The world after [requests] were sent and answered. *)
Definition answered (w : World.t) (disposedMeanwhile : bool) (requests : list Request.t)
    : World.t :=
  World.mk (World.store w) (World.isDisposed w || disposedMeanwhile) (World.ids w)
           (World.emitted w) (World.requests w ++ requests)%list.

Definition stableCoin (asset : string) : bool := includes ["USDC"; "USDT"; "FDUSD"] asset.

(** The adapter is not disposed while any of the bootstrap requests is in
    flight. *)
Definition undisturbed (r : StartReplies.t) : bool :=
  negb (Reply.disposedMeanwhile (StartReplies.symbols r)
        || Reply.disposedMeanwhile (StartReplies.brackets r)
        || Reply.disposedMeanwhile (StartReplies.dailys r)
        || Reply.disposedMeanwhile (StartReplies.books r)
        || Reply.disposedMeanwhile (StartReplies.prices r)
        || Reply.disposedMeanwhile (StartReplies.positionMode r)
        || Reply.disposedMeanwhile (StartReplies.account r)
        || Reply.disposedMeanwhile (StartReplies.orders r)).

Definition allLoaded : Loaded.t := Loaded.mk true true true true true.

(** ** What a run of the dispatch queue takes in and hands over *)

Module QueueTrace.
Import OrderQueueManager.

(** The batch input [i] makes the task hand to [placeOrderBatchFast]. *)
Definition batchOf (i : input) (s : t) : list PayloadOrder :=
  match i with
  | Resume now =>
      match (resume now s).2 with
      | Some (Dispatched batch _) => batch
      | _ => []
      end
  | _ => []
  end.

(** Every payload handed over during a run, in the order of hand-over. *)
Fixpoint dispatched (inputs : list input) (s : t) : list PayloadOrder :=
  match inputs with
  | [] => []
  | i :: rest => (batchOf i s ++ dispatched rest (step i s).1)%list
  end.

(** Every payload the callers enqueue during a run. *)
Definition enqueued (inputs : list input) : list PayloadOrder :=
  flat_map (fun i => match i with Enqueue orders => orders | _ => [] end) inputs.

(** The identifiers the resolved batches report without an error. *)
Definition succeeded (inputs : list input) : list string :=
  flat_map (fun i =>
              match i with
              | BatchResolved orderResults =>
                  List.map fst
                    (List.filter (fun r => match r.2 with None => true | Some _ => false end)
                                 orderResults)
              | _ => []
              end) inputs.

(** What the [getResults] calls of a run return, concatenated. *)
Fixpoint drained (inputs : list input) (s : t) : list string :=
  match inputs with
  | [] => []
  | i :: rest =>
      ((match i with GetResults => (getResults s).1 | _ => [] end)
         ++ drained rest (step i s).1)%list
  end.

End QueueTrace.

(** ** What the private stream leaves alone *)

(** What an [ACCOUNT_UPDATE] never changes of a position and of an asset. *)
Definition positionKey (p : Position.t) : string * PositionSide.t * Q * Q :=
  (Position.symbol p, Position.side p, Position.leverage p, Position.liquidationPrice p).
Definition assetKey (a : WalletAsset.t) : string * Q :=
  (WalletAsset.symbol a, WalletAsset.usdValue a).

Definition sameShape (st st' : Store.t) : Prop :=
  Store.markets st' = Store.markets st
  /\ Store.tickers st' = Store.tickers st
  /\ Store.orders st' = Store.orders st
  /\ Store.isHedged st' = Store.isHedged st
  /\ Store.loaded st' = Store.loaded st
  /\ Store.latency st' = Store.latency st
  /\ positionKey <$> Store.positions st' = positionKey <$> Store.positions st
  /\ assetKey <$> Balance.assets (Store.balance st')
     = assetKey <$> Balance.assets (Store.balance st)
  /\ Balance.free (Store.balance st') = Balance.free (Store.balance st)
  /\ Balance.used (Store.balance st') = Balance.used (Store.balance st)
  /\ Balance.upnl (Store.balance st') = Balance.upnl (Store.balance st).

(** Only the store and the emitter were touched, and the store kept its
    shape. *)
Definition sameShapeWorld (w w' : World.t) : Prop :=
  sameShape (World.store w) (World.store w')
  /\ World.isDisposed w' = World.isDisposed w
  /\ World.ids w' = World.ids w
  /\ World.requests w' = World.requests w.

Definition orderEvent (data : OrderData.t) : Message.t :=
  Message.mk (Some "ORDER_TRADE_UPDATE") None None (Some data).

(** ** A run of the private stream

    The socket and the timers call the stream back: the socket opens, a
    message arrives, a pending timer fires.  A timer that fires is no longer
    pending and runs its callback, [ping]. *)
Inductive streamInput :=
  | Opened (now : Q)
  | Received (now : Q) (json : option Message.t)
  | TimerFired (id : positive) (now : Q).

Section StreamRun.
Context `{Ext : Externals}.

Definition streamStep (i : streamInput) (sw : PrivateWs.t * World.t)
    : PrivateWs.t * World.t :=
  let s := sw.1 in
  match i with
  | Opened now => (PrivateWs.onOpen now s, sw.2)
  | Received now json => (PrivateWs.onMessage now json s sw.2).2
  | TimerFired id now =>
      match PrivateWs.timers s !! id with
      | Some _ => (PrivateWs.ping now (PrivateWs.clearTimeout id s), sw.2)
      | None => sw
      end
  end.

Definition streamRun (inputs : list streamInput) (sw : PrivateWs.t * World.t)
    : PrivateWs.t * World.t :=
  foldl (fun sw i => streamStep i sw) sw inputs.

End StreamRun.

(** Every pending timer is the one the stream has on record. *)
Definition timersOnRecord (s : PrivateWs.t) : Prop :=
  forall t, is_Some (PrivateWs.timers s !! t) -> PrivateWs.pingTimeoutId s = Some t.

(** ** Further concrete inputs *)

Module Scenarios.

(** An intent on a symbol the catalog does not list. *)
Definition unlisted : PlaceOrderOpts.t :=
  PlaceOrderOpts.mk "DOGEUSDT" OrderType.Market OrderSide.Buy None 10
                    None false None None.



(** A bootstrap in which the venue rejects every request but the one for
    the position mode. *)
Definition rejecting {A} : Reply.t A := Reply.mk (Rejected Examples.networkError) false.
Definition replies (positionMode : Http bool) : StartReplies.t :=
  StartReplies.mk rejecting rejecting rejecting rejecting rejecting
                  (Reply.mk positionMode false) rejecting rejecting.

(** An adapter that was disposed before it was started. *)
Definition disposedWorld : World.t := World.mk (Examples.store true) true 0 [] [].

(** Seven payloads enqueued on a fresh queue. *)
Definition seven : OrderQueueManager.t :=
  OrderQueueManager.enqueueOrders (replicate 7 ∅) OrderQueueManager.init.

(** A stream that has just been created, and a ping answered, its timer
    fired and the next ping answered. *)
Definition freshStream : PrivateWs.t := PrivateWs.mk false 0 None ∅ 1%positive [].
Definition pingPong : list streamInput :=
  [ Opened 0; Received 80 (Some Examples.echo); TimerFired 1%positive 10080;
    Received 10100 (Some Examples.echo) ].

End Scenarios.

(** ** Placing and cancelling orders ([binance.exchange.ts])

    The calls below reach the venue through the order endpoints.  The
    requests they send are logged beside the world, oldest first, and the
    venue is the function that answers the [n]-th of them; which of the two
    HTTP clients carries a request is not modelled. *)

(** [chunk(array, size)] of lodash: groups of [size] elements, the last one
    with what remains; no group for a size below one. *)
Fixpoint chunkFuel {A} (fuel size : nat) (l : list A) : list (list A) :=
  match fuel, l with
  | S fuel, _ :: _ => take size l :: chunkFuel fuel size (drop size l)
  | _, _ => []
  end.

Definition chunk {A} (l : list A) (size : nat) : list (list A) :=
  match size with
  | O => []
  | S _ => chunkFuel (length l) size l
  end.

(** One entry of the answer to a batch request: an order, or an error with
    its [code] and [msg]. *)
Module BatchItem.
Record t := mk { code : option Q; msg : option text; clientOrderId : option string }.
End BatchItem.

(** [if (o.code)] *)
Definition hasCode (o : BatchItem.t) : bool :=
  match BatchItem.code o with
  | Some code => Js.truthy code
  | None => false
  end.

Module OrderRequest.
Inductive t :=
  | post_ORDER (payload : PayloadOrder)
  | post_BATCH_ORDERS (batchOrders : list PayloadOrder)
  | delete_ORDER (symbol origClientOrderId : string)
  | delete_BATCH_ORDERS (symbol : string) (origClientOrderIdList : list string)
  | delete_CANCEL_SYMBOL_ORDERS (symbol : string)
  | post_HEDGE_MODE (dualSidePosition : string).
End OrderRequest.

(** The answer to the [n]-th request: [data] is an array of entries, or
    something [data?.forEach?.] skips. *)
Definition Venue : Type := nat -> Http (option (list BatchItem.t)).

Module Desk.
Record t := mk {
    world : World.t;
    sent : list OrderRequest.t   (* oldest first *)
  }.
End Desk.

Definition T (A : Type) : Type := Desk.t -> Outcome A * Desk.t.

Definition retT {A} (a : A) : T A := fun d => (Return a, d).
Definition bindT {A B} (m : T A) (k : A -> T B) : T B :=
  fun d => match m d with
           | (Return a, d') => k a d'
           | (Throw err, d') => (Throw err, d')
           end.

Notation "'let+' x ':=' m 'in' k" := (bindT m (fun x => k))
  (at level 10, x name, m at level 100, k at level 200).

(** A computation on the world alone. *)
Definition liftT {A} (m : M A) : T A :=
  fun d => let r := m (Desk.world d) in (r.1, Desk.mk r.2 (Desk.sent d)).

Definition try_catchT {A} (body : T A) (handler : JsError.t -> T A) : T A :=
  fun d => match body d with
           | (Return a, d') => (Return a, d')
           | (Throw err, d') => handler err d'
           end.

(** [await forEachSeries(xs, async (x) => ...)] *)
Fixpoint forEachT {A B} (f : A -> T B) (xs : list A) : T (list B) :=
  match xs with
  | [] => retT []
  | x :: rest => let+ y := f x in let+ ys := forEachT f rest in retT (y :: ys)
  end.

(** [await client.<method>(endpoint, body)] *)
Definition send (venue : Venue) (r : OrderRequest.t) : T (option (list BatchItem.t)) :=
  fun d =>
    let d' := Desk.mk (Desk.world d) (push (Desk.sent d) r) in
    match venue (length (Desk.sent d)) with
    | Resolved data => (Return data, d')
    | Rejected err => (Throw err, d')
    end.

(** [catch (err) { this.emitter.emit("error", msg || message) }] *)
Definition emitError (err : JsError.t) : T unit :=
  liftT (emit (Ev_error (JsError.describe err))).

(** Modelled from the spec: [store.removeOrders(orders)] of the store
    interface, which is not among the covered sources: one [removeOrder] by
    client identifier per entry, in order. *)
Definition removeOrders (ids : list string) (st : Store.t) : Store.t :=
  foldl (fun st id => StoreOps.removeOrder id st) st ids.

(** [groupBy(orders, "symbol")] of lodash followed by [Object.entries]: one
    group per symbol, in the order the symbols first occur (the order of the
    keys of an object whose keys are not array indices), each with its
    orders in their order. *)
Definition addToGroup (groups : list (string * list Order.t)) (o : Order.t)
    : list (string * list Order.t) :=
  if existsb (fun g => String.eqb g.1 (Order.symbol o)) groups
  then List.map (fun g => if String.eqb g.1 (Order.symbol o) then (g.1, push g.2 o) else g)
                groups
  else push groups (Order.symbol o, [o]).

Definition groupBySymbol (orders : list Order.t) : list (string * list Order.t) :=
  foldl addToGroup [] orders.

(** The outcome [placeOrderBatchFast] records for one payload: [error] is
    [null] ([None]), what a failed request was described as, or the entry the
    venue rejected the order with. *)
Inductive FastError :=
  | FailedRequest (message : option text)
  | RejectedItem (o : BatchItem.t).

Module OrderResult.
Record t := mk { orderId : option jsval; error : option FastError }.
End OrderResult.

Section Placing.
Context `{Ext : Externals}.
Variable venue : Venue.

(** *** [placeOrderBatch] *)

(** [data?.forEach?.((o) => ...)] *)
Fixpoint recordBatchItems (orderIds : list (option jsval)) (data : list BatchItem.t)
    : M (list (option jsval)) :=
  match data with
  | [] => ret orderIds
  | o :: rest =>
      if hasCode o then
        let* _ := emit (Ev_error (BatchItem.msg o)) in
        recordBatchItems orderIds rest
      else
        recordBatchItems (push orderIds (str <$> BatchItem.clientOrderId o)) rest
  end.

(** One turn of [for (const lot of lots)]. *)
Definition placeLot (orderIds : list (option jsval)) (lot : list PayloadOrder)
    : T (list (option jsval)) :=
  let+ orderIds :=
    match lot with
    | [payload] =>
        try_catchT
          (let+ _ := send venue (OrderRequest.post_ORDER payload) in
           retT (push orderIds (payload !! "newClientOrderId")))
          (fun err => let+ _ := emitError err in retT orderIds)
    | _ => retT orderIds
    end in
  if (1 <? length lot)%nat then
    (* a rejection of the batch request is not caught *)
    let+ data := send venue (OrderRequest.post_BATCH_ORDERS lot) in
    match data with
    | Some data => liftT (recordBatchItems orderIds data)
    | None => retT orderIds
    end
  else retT orderIds.

Fixpoint placeLots (orderIds : list (option jsval)) (lots : list (list PayloadOrder))
    : T (list (option jsval)) :=
  match lots with
  | [] => retT orderIds
  | lot :: rest => let+ orderIds := placeLot orderIds lot in placeLots orderIds rest
  end.

Definition placeOrderBatch (payloads : list PayloadOrder) : T (list (option jsval)) :=
  placeLots [] (chunk payloads 5).

Definition placeOrder (opts : PlaceOrderOpts.t) : T (list (option jsval)) :=
  let+ payloads := liftT (formatCreateOrder opts) in
  placeOrderBatch payloads.

Definition placeOrders (orders : list PlaceOrderOpts.t) : T (list (option jsval)) :=
  let+ requests := liftT (formatCreateOrders orders) in
  placeOrderBatch requests.

(** *** [placeOrderBatchFast] *)

(** The [forEach] over the entries of an answered batch: entry [index] is
    recorded under the identifier of [lot[index]]; an entry beyond the lot
    dereferences [undefined], which throws ([true]) into the [catch]. *)
Fixpoint itemResults (lot : list PayloadOrder) (data : list BatchItem.t)
    : list OrderResult.t * bool :=
  match data, lot with
  | [], _ => ([], false)
  | o :: data, originalOrder :: lot =>
      let r := itemResults lot data in
      (OrderResult.mk (originalOrder !! "newClientOrderId")
                      (if hasCode o then Some (RejectedItem o) else None) :: r.1,
       r.2)
  | _ :: _, [] => ([], true)
  end.

(** [lot.forEach((o) => orderResults.push({orderId, error: msg || message}))] *)
Definition lotFailed (lot : list PayloadOrder) (err : JsError.t) : list OrderResult.t :=
  List.map (fun o => OrderResult.mk (o !! "newClientOrderId")
                                    (Some (FailedRequest (JsError.describe err))))
           lot.

(** What the promise of one lot pushes once its request is answered. *)
Definition lotResults (lot : list PayloadOrder) (reply : Http (option (list BatchItem.t)))
    : list OrderResult.t :=
  match lot with
  | [] => []
  | [payload] =>
      match reply with
      | Resolved _ => [OrderResult.mk (payload !! "newClientOrderId") None]
      | Rejected err => lotFailed [payload] err
      end
  | _ =>
      match reply with
      | Resolved (Some data) =>
          let r := itemResults lot data in
          if r.2 then (r.1 ++ lotFailed lot TypeError)%list else r.1
      | Resolved None => []
      | Rejected err => lotFailed lot err
      end
  end.

Definition lotRequest (lot : list PayloadOrder) : option OrderRequest.t :=
  match lot with
  | [] => None
  | [payload] => Some (OrderRequest.post_ORDER payload)
  | _ => Some (OrderRequest.post_BATCH_ORDERS lot)
  end.

(** [placeOrderBatchFast]: the requests of all lots are sent at once, in the
    order of the lots; each promise pushes its results when it settles.
    [completion] lists the lots in the order their promises settle. *)
Definition placeOrderBatchFast (payloads : list PayloadOrder) (completion : list nat)
    : T (list OrderResult.t) :=
  fun d =>
    let lots := chunk payloads 5 in
    let first := length (Desk.sent d) in
    let orderResults :=
      flat_map (fun k => match lots !! k with
                         | Some lot => lotResults lot (venue (first + k)%nat)
                         | None => []
                         end) completion in
    (Return orderResults,
     Desk.mk (Desk.world d) (Desk.sent d ++ omap lotRequest lots)%list).

(** *** [cancelOrders], [cancelSymbolOrders] *)

(** One turn of the outer [forEachSeries]. *)
Definition cancelRequest (request : string * list string) : T unit :=
  let symbol := request.1 in
  let origClientOrderIdList := request.2 in
  let+ _ :=
    match origClientOrderIdList with
    | [origClientOrderId] =>
        let+ _ := send venue (OrderRequest.delete_ORDER symbol origClientOrderId) in
        retT tt
    | _ =>
        let+ _ := forEachT
                    (fun lot => send venue (OrderRequest.delete_BATCH_ORDERS symbol lot))
                    (chunk origClientOrderIdList 10) in
        retT tt
    end in
  liftT (modifyStore (removeOrders origClientOrderIdList)).

Definition cancelOrders (orders : list Order.t) : T unit :=
  try_catchT
    (let requests :=
       List.map (fun g => (g.1, List.map Order.id g.2)) (groupBySymbol orders) in
     let+ _ := forEachT cancelRequest requests in
     retT tt)
    emitError.

Definition cancelSymbolOrders (symbol : string) : T unit :=
  try_catchT
    (let+ _ := send venue (OrderRequest.delete_CANCEL_SYMBOL_ORDERS symbol) in
     liftT (let* st := getStore in
            modifyStore
              (removeOrders
                 (List.map Order.id
                    (List.filter (fun o => String.eqb (Order.symbol o) symbol)
                                 (Store.orders st))))))
    emitError.

(** *** [changePositionMode] *)

Definition changePositionMode (hedged : bool) : T unit :=
  let+ st := liftT getStore in
  if (0 <? length (List.filter (fun p => Js.gtb (Position.contracts p) 0)
                               (Store.positions st)))%nat
  then
    liftT (emit (Ev_error
                   (Some [Lit "Please close all positions before switching position mode"])))
  else
    try_catchT
      (let+ _ := send venue (OrderRequest.post_HEDGE_MODE (if hedged then "true" else "false")) in
       liftT (modifyStore (StoreOps.setSetting_isHedged hedged)))
      emitError.

End Placing.

(** The payloads a request carries to the venue. *)
Definition payloadsOf (r : OrderRequest.t) : list PayloadOrder :=
  match r with
  | OrderRequest.post_ORDER payload => [payload]
  | OrderRequest.post_BATCH_ORDERS batchOrders => batchOrders
  | _ => []
  end.

(** The client identifiers a request asks the venue to cancel. *)
Definition cancelledBy (r : OrderRequest.t) : list string :=
  match r with
  | OrderRequest.delete_ORDER _ origClientOrderId => [origClientOrderId]
  | OrderRequest.delete_BATCH_ORDERS _ origClientOrderIdList => origClientOrderIdList
  | _ => []
  end.

(** A venue that accepts every request, and one that rejects every request. *)
Definition accepting (data : option (list BatchItem.t)) : Venue := fun _ => Resolved data.
Definition refusing (err : JsError.t) : Venue := fun _ => Rejected err.

(** The desk of a session that has sent nothing yet. *)
Definition openDesk (w : World.t) : Desk.t := Desk.mk w [].

Module QueueScenarios.

(** Seven payloads enqueued, two dispatching passes, and the resumption that
    finds the queue empty and ends the task. *)
Definition untilIdle : list OrderQueueManager.input :=
  [ OrderQueueManager.Enqueue (replicate 7 ∅);
    OrderQueueManager.Resume 0;
    OrderQueueManager.Resume 170;
    OrderQueueManager.Resume 400 ].

End QueueScenarios.

(** * Properties *)

(** ** Rounding *)

(** [Math.round] gives the whole number within one half of its argument,
    the upper one when two are as near. *)
Lemma Math_round_nearest (x : Q) :
  exists n : Z,
    Js.Math_round x = inject_Z n
    /\ inject_Z n - (1 # 2) <= x /\ x < inject_Z n + (1 # 2).
Proof.
  exists (Qfloor (x + (1 # 2))). split; [reflexivity|].
  pose proof (Qfloor_le (x + (1 # 2))) as Hlo.
  pose proof (Qlt_floor (x + (1 # 2))) as Hhi.
  rewrite inject_Z_plus in Hhi. change (inject_Z 1) with 1 in Hhi.
  split; lra.
Qed.

(** That whole number is the only one. *)
Lemma Math_round_unique (x : Q) (n : Z) :
  inject_Z n - (1 # 2) <= x -> x < inject_Z n + (1 # 2) ->
  Js.Math_round x = inject_Z n.
Proof.
  intros Hlo Hhi. destruct (Math_round_nearest x) as (m & -> & Hlo' & Hhi').
  f_equal.
  assert (H1 : inject_Z m < inject_Z (n + 1))
    by (rewrite inject_Z_plus; change (inject_Z 1) with 1; lra).
  assert (H2 : inject_Z n < inject_Z (m + 1))
    by (rewrite inject_Z_plus; change (inject_Z 1) with 1; lra).
  rewrite <- Zlt_Qlt in H1, H2. lia.
Qed.

(** ** The order formatter *)

Section FormatterFacts.
Context `{Ext : Externals}.

(** The assignment loop gives the [i]-th payload the [i]-th identifier drawn
    and touches nothing else. *)
Lemma forEach_assignClientOrderId (payloads : list PayloadOrder) (w : World.t) :
  forEach assignClientOrderId payloads w =
    (Return (imap (fun i p => <["newClientOrderId" := str (uuid (World.ids w + i)%nat)]> p)
                  payloads),
     withIds w (length payloads)).
Proof.
  revert w. induction payloads as [|p ps IH]; intros w.
  - destruct w. cbn. unfold withIds. cbn. by rewrite Nat.add_0_r.
  - cbn [forEach]. unfold bind at 1. unfold assignClientOrderId at 1.
    unfold bind at 1, fresh, ret at 1. cbn -[forEach].
    unfold bind at 1. rewrite IH. unfold ret. cbn.
    rewrite Nat.add_0_r. f_equal.
    + f_equal. f_equal. apply imap_ext. intros i x _. cbn.
      by rewrite Nat.add_succ_r.
    + unfold withIds. cbn. f_equal. lia.
Qed.

(** A field of [omitUndefined({...})] is what the last entry for its key
    says. *)
Lemma lookup_omitUndefined (fields : list (string * option jsval)) (k : string) :
  omitUndefined fields !! k = lastField k fields.
Proof.
  unfold omitUndefined, lastField.
  induction fields as [|[k' v] fields IH] using rev_ind.
  - done.
  - rewrite foldl_app, rev_app_distr. cbn.
    destruct (String.eqb_spec k' k) as [->|Hne].
    + destruct v; [by rewrite lookup_insert_eq | by rewrite lookup_delete_eq].
    + destruct v; [rewrite lookup_insert_ne by done | rewrite lookup_delete_ne by done];
        apply IH.
Qed.


(** Fields of the request skeleton. *)
Lemma req_reduceOnly_hedged st market opts :
  Store.isHedged st = true ->
  createOrderReq st market opts !! "reduceOnly" = None.
Proof.
  intros Hh. unfold createOrderReq. rewrite lookup_omitUndefined, Hh.
  unfold lastField.
  destruct (PlaceOrderOpts.type opts); reflexivity.
Qed.

Lemma req_positionSide st market opts :
  createOrderReq st market opts !! "positionSide" =
    Some (str (getOrderPositionSide (Store.isHedged st) (PlaceOrderOpts.side opts)
                 (PlaceOrderOpts.type opts) (PlaceOrderOpts.reduceOnly opts))).
Proof.
  unfold createOrderReq. rewrite lookup_omitUndefined. unfold lastField.
  destruct (PlaceOrderOpts.type opts); reflexivity.
Qed.

Lemma req_price_of_stop st market opts :
  OrderType.eqb (PlaceOrderOpts.type opts) OrderType.StopLoss
  || OrderType.eqb (PlaceOrderOpts.type opts) OrderType.TakeProfit = true ->
  createOrderReq st market opts !! "price" = None.
Proof.
  intros Hs. unfold createOrderReq. rewrite lookup_omitUndefined, Hs.
  unfold lastField. reflexivity.
Qed.

Lemma req_closePosition st market opts :
  createOrderReq st market opts !! "closePosition" =
    if OrderType.eqb (PlaceOrderOpts.type opts) OrderType.StopLoss
       || OrderType.eqb (PlaceOrderOpts.type opts) OrderType.TakeProfit
    then Some (str "true") else None.
Proof.
  unfold createOrderReq. rewrite lookup_omitUndefined. unfold lastField.
  destruct (PlaceOrderOpts.type opts); reflexivity.
Qed.


(** A payload is a lot of the skeleton or an order attached to it. *)
Lemma createOrderPayloads_elem st market opts p :
  p ∈ createOrderPayloads st market opts ->
  (exists q, p = <["quantity" := tpl q]> (createOrderReq st market opts))
  \/ (exists ty sp, p = attachedOrder (createOrderReq st market opts)
                         (PlaceOrderOpts.side opts) ty sp).
Proof.
  unfold createOrderPayloads, push.
  set (req := createOrderReq st market opts).
  intros Hin.
  repeat match type of Hin with
         | context [match ?o with Some _ => _ | None => _ end] => destruct o
         | context [if ?b then _ else _] => destruct b
         end;
    repeat (apply elem_of_app in Hin as [Hin|Hin]);
    try (apply elem_of_replicate in Hin as [-> _]);
    try (apply list_elem_of_singleton in Hin as ->);
    eauto.
Qed.

Lemma attached_stopLoss_elem st market opts sl :
  PlaceOrderOpts.stopLoss opts = Some sl -> Js.truthy sl = true ->
  attachedOrder (createOrderReq st market opts) (PlaceOrderOpts.side opts)
                OrderType.StopLoss sl
    ∈ createOrderPayloads st market opts.
Proof.
  intros Hsl Ht. unfold createOrderPayloads, push. rewrite Hsl, Ht.
  destruct (PlaceOrderOpts.takeProfit opts) as [tp|]; [destruct (Js.truthy tp)|];
    rewrite ?elem_of_app, ?list_elem_of_singleton; auto.
Qed.

(** Membership before and after the assignment loop. *)
Lemma elem_of_assigned (payloads : list PayloadOrder) (n : nat) (p : PayloadOrder) :
  p ∈ imap (fun i p => <["newClientOrderId" := str (uuid (n + i)%nat)]> p) payloads ->
  exists i p0, payloads !! i = Some p0
               /\ p = <["newClientOrderId" := str (uuid (n + i)%nat)]> p0.
Proof.
  intros Hin. apply list_elem_of_lookup in Hin as [i Hi].
  rewrite list_lookup_imap in Hi.
  destruct (payloads !! i) as [p0|] eqn:E; [|done].
  injection Hi as <-. eauto.
Qed.

Lemma assigned_elem (payloads : list PayloadOrder) (n : nat) (p0 : PayloadOrder) :
  p0 ∈ payloads ->
  exists i, <["newClientOrderId" := str (uuid (n + i)%nat)]> p0
            ∈ imap (fun i p => <["newClientOrderId" := str (uuid (n + i)%nat)]> p) payloads.
Proof.
  intros Hin. apply list_elem_of_lookup in Hin as [i Hi]. exists i.
  apply list_elem_of_lookup. exists i. rewrite list_lookup_imap, Hi. done.
Qed.

(** The fields of an attached order. *)
Lemma attachedOrder_fields req side ty sp :
  let p := attachedOrder req side ty sp in
  p !! "type" = Some (str (ORDER_TYPE_inv ty))
  /\ p !! "side" = Some (str (ORDER_SIDE_inv (opposite side)))
  /\ p !! "closePosition" = Some (str "true")
  /\ p !! "stopPrice" = Some (tpl sp)
  /\ p !! "timeInForce" = Some (str "GTC")
  /\ p !! "price" = None
  /\ p !! "positionSide" = req !! "positionSide"
  /\ p !! "reduceOnly" = req !! "reduceOnly"
  /\ p !! "quantity" = req !! "quantity".
Proof.
  unfold attachedOrder. cbv zeta. repeat split; by simplify_map_eq.
Qed.


(** Every quantity a simple intent is formatted with comes out of [adjust]
    at the market's amount step. *)
Lemma createOrderPayloads_quantity st market opts p v :
  p ∈ createOrderPayloads st market opts ->
  p !! "quantity" = Some v ->
  exists x, v = tpl (adjust x (Precision.amount (Market.precision market))).
Proof.
  intros Hin Hq.
  set (pAmount := Precision.amount (Market.precision market)).
  set (maxSize := MinMax.max (Limits.amount (Market.limits market))).
  set (amount := adjust (PlaceOrderOpts.amount opts) pAmount).
  set (req := createOrderReq st market opts).
  assert (Hreq : forall v, req !! "quantity" = Some v -> exists x, v = tpl (adjust x pAmount)).
  { intros v0. subst req. unfold createOrderReq.
    rewrite lookup_omitUndefined. unfold lastField.
    destruct (PlaceOrderOpts.type opts); cbn;
      destruct (Js.truthy _); intros [= <-]; eauto. }
  assert (Hcases :
    p = <["quantity" := tpl (lotSize amount maxSize pAmount)]> req
    \/ (Js.truthy (rest amount maxSize pAmount) = true
        /\ p = <["quantity" := tpl (rest amount maxSize pAmount)]> req)
    \/ exists ty sp, p = attachedOrder req (PlaceOrderOpts.side opts) ty sp).
  { unfold createOrderPayloads, push in Hin.
    fold pAmount maxSize amount req in Hin.
    destruct (Js.truthy (rest amount maxSize pAmount)) eqn:Hr;
      repeat match type of Hin with
             | context [match ?o with Some _ => _ | None => _ end] => destruct o
             | context [if ?b then _ else _] => destruct b
             end;
      repeat (apply elem_of_app in Hin as [Hin|Hin]);
      try (apply elem_of_replicate in Hin as [-> _]);
      try (apply list_elem_of_singleton in Hin as ->);
      eauto 6. }
  destruct Hcases as [-> | [[Hr ->] | (ty & sp & ->)]].
  - rewrite lookup_insert_eq in Hq. injection Hq as <-. unfold lotSize. eauto.
  - rewrite lookup_insert_eq in Hq. injection Hq as <-.
    unfold rest in Hr |- *. destruct (Js.gtb amount maxSize); [eauto | discriminate].
  - destruct (attachedOrder_fields req (PlaceOrderOpts.side opts) ty sp)
      as (_&_&_&_&_&_&_&_&Heq). rewrite Heq in Hq. by apply Hreq.
Qed.

(** Whatever [adjust] is, as long as it returns multiples of the step: with
    a step of [0.1] no payload carries the quantity [0.15]. *)
Lemma no_lot_of_0_15 st market opts p :
  Precision.amount (Market.precision market) = 0.1 ->
  (forall x, exists k : Z, adjust x 0.1 == inject_Z k * 0.1) ->
  p ∈ createOrderPayloads st market opts ->
  p !! "quantity" <> Some (tpl 0.15).
Proof.
  intros Hstep Hsnap Hin Hq.
  destruct (createOrderPayloads_quantity _ _ _ _ _ Hin Hq) as [x Hx].
  rewrite Hstep in Hx. destruct (Hsnap x) as [k Hk].
  assert (Heq : adjust x 0.1 == 0.15).
  { injection Hx as Hx. rewrite <- (Qred_correct (adjust x 0.1)), <- Hx.
    apply Qred_correct. }
  rewrite Hk in Heq. unfold Qeq in Heq. cbn in Heq. lia.
Qed.






(** When the generator never repeats itself, neither do the client
    identifiers of the payloads of one call. *)
Lemma assigned_ids_distinct (payloads : list PayloadOrder) (n : nat) :
  Inj (=) (=) uuid ->
  NoDup ((fun p => p !! "newClientOrderId")
           <$> imap (fun i p => <["newClientOrderId" := str (uuid (n + i)%nat)]> p)
                    payloads).
Proof.
  intros Hinj. apply NoDup_alt. intros i j x Hi Hj.
  rewrite list_lookup_fmap, list_lookup_imap in Hi, Hj.
  destruct (payloads !! i) as [pi|]; [|done].
  destruct (payloads !! j) as [pj|]; [|done].
  cbn in Hi, Hj. rewrite lookup_insert_eq in Hi, Hj.
  assert (Heq : uuid (n + i)%nat = uuid (n + j)%nat).
  { rewrite <- Hj in Hi. unfold str in Hi. by injection Hi. }
  apply Hinj in Heq. lia.
Qed.

(** A simple intent on a known market: the payloads, then the identifiers. *)
Lemma formatCreateOrder_simple (opts : PlaceOrderOpts.t) (w : World.t) market :
  OrderType.eqb (PlaceOrderOpts.type opts) OrderType.TrailingStopLoss = false ->
  find (fun m => String.eqb (Market.symbol m) (PlaceOrderOpts.symbol opts))
       (Store.markets (World.store w)) = Some market ->
  formatCreateOrder opts w =
    (Return (imap (fun i p => <["newClientOrderId" := str (uuid (World.ids w + i)%nat)]> p)
                  (createOrderPayloads (World.store w) market opts)),
     withIds w (length (createOrderPayloads (World.store w) market opts))).
Proof.
  intros Hty Hm. unfold formatCreateOrder. rewrite Hty.
  unfold bind, getStore. rewrite Hm. apply forEach_assignClientOrderId.
Qed.

Lemma simple_payload_reduceOnly st market opts p :
  Store.isHedged st = true ->
  p ∈ createOrderPayloads st market opts -> p !! "reduceOnly" = None.
Proof.
  intros Hh Hin.
  destruct (createOrderPayloads_elem _ _ _ _ Hin) as [[q ->] | (ty & sp & ->)].
  - rewrite lookup_insert_ne by done. by apply req_reduceOnly_hedged.
  - destruct (attachedOrder_fields (createOrderReq st market opts)
                (PlaceOrderOpts.side opts) ty sp) as (_&_&_&_&_&_&_&->&_).
    by apply req_reduceOnly_hedged.
Qed.

Lemma hedged_positionSide_all (st : Store.t) market opts p :
  p ∈ createOrderPayloads st market opts ->
  p !! "positionSide" =
    Some (str (getOrderPositionSide (Store.isHedged st) (PlaceOrderOpts.side opts)
                 (PlaceOrderOpts.type opts) (PlaceOrderOpts.reduceOnly opts))).
Proof.
  intros Hin.
  destruct (createOrderPayloads_elem _ _ _ _ Hin) as [[q ->] | (ty & sp & ->)].
  - rewrite lookup_insert_ne by done. apply req_positionSide.
  - destruct (attachedOrder_fields (createOrderReq st market opts)
                (PlaceOrderOpts.side opts) ty sp) as (_&_&_&_&_&_&->&_).
    apply req_positionSide.
Qed.



(** C1, amended. On a hedged account a simple intent with a stop-loss yields
    payloads that all carry the position side of the intent ([LONG] for a
    Buy Limit intent that is not reduce-only); among them is the attached
    stop-loss, on the opposite order side, with [closePosition=true] and
    [stopPrice] the stop-loss, and every payload with [closePosition] carries
    neither [price] nor [reduceOnly]. *)
Theorem hedged_stopLoss_keeps_positionSide
    (w : World.t) (opts : PlaceOrderOpts.t) (market : Market.t) (sl : Q) :
  Store.isHedged (World.store w) = true ->
  PlaceOrderOpts.type opts <> OrderType.TrailingStopLoss ->
  find (fun m => String.eqb (Market.symbol m) (PlaceOrderOpts.symbol opts))
       (Store.markets (World.store w)) = Some market ->
  PlaceOrderOpts.stopLoss opts = Some sl ->
  Js.truthy sl = true ->
  let pSide := getOrderPositionSide true (PlaceOrderOpts.side opts)
                 (PlaceOrderOpts.type opts) (PlaceOrderOpts.reduceOnly opts) in
  exists out w',
    formatCreateOrder opts w = (Return out, w')
    /\ (forall p, p ∈ out -> p !! "positionSide" = Some (str pSide))
    /\ (PlaceOrderOpts.side opts = OrderSide.Buy ->
        PlaceOrderOpts.type opts = OrderType.Limit ->
        PlaceOrderOpts.reduceOnly opts = false -> pSide = "LONG")
    /\ (exists p, p ∈ out
          /\ p !! "type" = Some (str (ORDER_TYPE_inv OrderType.StopLoss))
          /\ p !! "side" = Some (str (ORDER_SIDE_inv (opposite (PlaceOrderOpts.side opts))))
          /\ p !! "positionSide" = Some (str pSide)
          /\ p !! "closePosition" = Some (str "true")
          /\ p !! "stopPrice" = Some (tpl sl)
          /\ p !! "price" = None
          /\ p !! "reduceOnly" = None)
    /\ (forall p, p ∈ out -> p !! "closePosition" = Some (str "true") ->
          p !! "price" = None /\ p !! "reduceOnly" = None).
Proof.
  intros Hh Hty Hm Hsl Htr pSide.
  assert (HtyF : OrderType.eqb (PlaceOrderOpts.type opts) OrderType.TrailingStopLoss = false)
    by (destruct (PlaceOrderOpts.type opts); done).
  set (st := World.store w) in *.
  set (req := createOrderReq st market opts).
  assert (Hps : req !! "positionSide" = Some (str pSide))
    by (subst req pSide; rewrite req_positionSide; by rewrite Hh).
  assert (Hro : req !! "reduceOnly" = None) by by apply req_reduceOnly_hedged.
  eexists _, _. split; [apply (formatCreateOrder_simple opts w market HtyF Hm)|].
  fold st. split; [|split; [|split]].
  - intros p Hin. apply elem_of_assigned in Hin as (i & p0 & Hi & ->).
    rewrite lookup_insert_ne by done.
    apply list_elem_of_lookup_2 in Hi.
    destruct (createOrderPayloads_elem _ _ _ _ Hi) as [[q ->] | (ty & sp & ->)].
    + by rewrite lookup_insert_ne.
    + fold req.
      destruct (attachedOrder_fields req (PlaceOrderOpts.side opts) ty sp)
        as (_&_&_&_&_&_&->&_). done.
  - intros Hs Ht Hr. subst pSide. by rewrite Hs, Ht, Hr.
  - destruct (assigned_elem _ (World.ids w) _ (attached_stopLoss_elem st market opts sl Hsl Htr))
      as [i Hin].
    eexists. split; [exact Hin|].
    destruct (attachedOrder_fields req (PlaceOrderOpts.side opts) OrderType.StopLoss sl)
      as (H1&H2&H3&H4&_&H6&H7&H8&_).
    rewrite !lookup_insert_ne by done. fold req.
    rewrite H1, H2, H3, H4, H6, H7, H8. done.
  - intros p Hin Hcp.
    apply elem_of_assigned in Hin as (i & p0 & Hi & ->).
    rewrite lookup_insert_ne in Hcp by done.
    rewrite !lookup_insert_ne by done.
    apply list_elem_of_lookup_2 in Hi.
    split; [|by apply (simple_payload_reduceOnly st market opts)].
    destruct (createOrderPayloads_elem _ _ _ _ Hi) as [[q ->] | (ty & sp & ->)].
    + rewrite lookup_insert_ne in Hcp by done.
      rewrite lookup_insert_ne by done.
      rewrite req_closePosition in Hcp.
      destruct (OrderType.eqb (PlaceOrderOpts.type opts) OrderType.StopLoss
                || OrderType.eqb (PlaceOrderOpts.type opts) OrderType.TakeProfit) eqn:Hst;
        [|discriminate].
      by apply req_price_of_stop.
    + fold req.
      by destruct (attachedOrder_fields req (PlaceOrderOpts.side opts) ty sp)
        as (_&_&_&_&_&->&_).
Qed.

End FormatterFacts.

Section SpecInstance.
Existing Instance SpecModel.externals.


(** C1 at the scenario: hedged account, Buy Limit with a stop-loss at 95. *)
Lemma hedged_stopLoss_witness :
  exists out w',
    formatCreateOrder Examples.buyLimitWithStop (Examples.world true) = (Return out, w')
    /\ exists p, p ∈ out
         /\ p !! "side" = Some (str "SELL")
         /\ p !! "positionSide" = Some (str "LONG")
         /\ p !! "stopPrice" = Some (tpl 95).
Proof.
  pose proof (hedged_stopLoss_keeps_positionSide (Examples.world true)
              Examples.buyLimitWithStop Examples.market 95 eq_refl
              ltac:(discriminate) eq_refl eq_refl eq_refl) as H.
  destruct H as (out & w' & Hrun & _ & _ & (p & Hin & _ & Hside & Hps & _ & Hsp & _) & _).
  exists out, w'. split; [exact Hrun|].
  exists p. split; [exact Hin|]. split; [exact Hside|].
  split; [exact Hps|exact Hsp].
Defined.

(** The lots of 250.35 contracts with [max = 100] and a step of [0.1]. *)
Lemma lots_250_35 :
  Z.to_nat (Qfloor (lots (adjust 250.35 0.1) 100)) = 3%nat
  /\ rest (adjust 250.35 0.1) 100 0.1 = 50.3
  /\ lotSize (adjust 250.35 0.1) 100 0.1 = 66.6.
Proof. repeat split; vm_compute; reflexivity. Qed.

Lemma createOrderPayloads_250_35 (st : Store.t) (market : Market.t) (opts : PlaceOrderOpts.t) :
  MinMax.max (Limits.amount (Market.limits market)) = 100 ->
  Precision.amount (Market.precision market) = 0.1 ->
  PlaceOrderOpts.amount opts = 250.35 ->
  PlaceOrderOpts.stopLoss opts = None ->
  PlaceOrderOpts.takeProfit opts = None ->
  createOrderPayloads st market opts =
    let req := createOrderReq st market opts in
    [ <["quantity" := tpl 66.6]> req; <["quantity" := tpl 66.6]> req;
      <["quantity" := tpl 66.6]> req; <["quantity" := tpl 50.3]> req ].
Proof.
  intros Hmax Hstep Hamount Hsl Htp.
  unfold createOrderPayloads. rewrite Hmax, Hstep, Hamount, Hsl, Htp.
  destruct lots_250_35 as (-> & -> & ->).
  reflexivity.
Qed.

(** With the search of the design document, "no order count of three or
    more keeps the smallest slice feasible" is the formatter's test. *)
Lemma calcValidOrdersCount_below_three
    (fromScale toScale : Q) (orders : Z)
    (amount minSize minNotional totalWeight fromPrice : Q) :
  (forall n, (3 <= n <= orders)%Z ->
     SpecModel.feasible fromScale toScale amount minSize minNotional fromPrice n = false) ->
  (calcValidOrdersCount fromScale toScale orders amount minSize minNotional totalWeight
                        fromPrice < 3)%Z.
Proof.
  intros Hnone. cbn. unfold SpecModel.calcValidOrdersCount.
  destruct (List.find _ _) as [n|] eqn:E; [|lia].
  apply find_some in E as [Hin Hf].
  apply in_rev, in_map_iff in Hin as (k & <- & Hk). apply in_seq in Hk.
  destruct (Z_lt_le_dec (Z.of_nat k) 3) as [|Hge]; [done|].
  rewrite Hnone in Hf by lia. discriminate.
Qed.

(** Numbered identifiers are distinct. *)
Lemma uuid_inj (a b : nat) : uuid a = uuid b -> a = b.
Proof. cbn. intros [= H]. by apply (inj pretty). Qed.

(** C4, amended. With [max = 100] and a step of [0.1], 250.35 contracts are
    formatted into exactly four payloads: three lots of 66.6 and a remainder
    lot of 50.3, each the request skeleton with its own quantity and its own
    client identifier, and the four identifiers are distinct. *)
Theorem lot_splitting_250_35 (w : World.t) (opts : PlaceOrderOpts.t) (market : Market.t) :
  find (fun m => String.eqb (Market.symbol m) (PlaceOrderOpts.symbol opts))
       (Store.markets (World.store w)) = Some market ->
  MinMax.max (Limits.amount (Market.limits market)) = 100 ->
  Precision.amount (Market.precision market) = 0.1 ->
  PlaceOrderOpts.amount opts = 250.35 ->
  PlaceOrderOpts.type opts <> OrderType.TrailingStopLoss ->
  PlaceOrderOpts.stopLoss opts = None ->
  PlaceOrderOpts.takeProfit opts = None ->
  let req := createOrderReq (World.store w) market opts in
  let n := World.ids w in
  formatCreateOrder opts w =
    (Return
       [ <["newClientOrderId" := str (uuid n)]> (<["quantity" := tpl 66.6]> req);
         <["newClientOrderId" := str (uuid (n + 1)%nat)]> (<["quantity" := tpl 66.6]> req);
         <["newClientOrderId" := str (uuid (n + 2)%nat)]> (<["quantity" := tpl 66.6]> req);
         <["newClientOrderId" := str (uuid (n + 3)%nat)]> (<["quantity" := tpl 50.3]> req) ],
     withIds w 4)
  /\ NoDup [uuid n; uuid (n + 1)%nat; uuid (n + 2)%nat; uuid (n + 3)%nat].
Proof.
  intros Hm Hmax Hstep Hamount Hty Hsl Htp req n. split.
  - assert (HtyF : OrderType.eqb (PlaceOrderOpts.type opts) OrderType.TrailingStopLoss = false)
      by (destruct (PlaceOrderOpts.type opts); done).
    rewrite (formatCreateOrder_simple opts w market HtyF Hm).
    rewrite (createOrderPayloads_250_35 _ _ _ Hmax Hstep Hamount Hsl Htp).
    cbn [imap length]. fold n. by rewrite Nat.add_0_r.
  - change (NoDup (uuid <$> [n; (n + 1)%nat; (n + 2)%nat; (n + 3)%nat])).
    assert (Hinj : Inj (=) (=) uuid) by (intros a b; apply uuid_inj).
    apply (NoDup_fmap_2 uuid).
    repeat (apply NoDup_cons; split; [rewrite ?elem_of_cons, elem_of_nil; lia|]).
    apply NoDup_nil_2.
Qed.

(** C4, amended, at the scenario. *)
Lemma lot_splitting_250_35_witness :
  exists out w',
    formatCreateOrder Examples.buy250_35 (Examples.world false) = (Return out, w')
    /\ quantities out = [Some (tpl 66.6); Some (tpl 66.6); Some (tpl 66.6); Some (tpl 50.3)].
Proof.
  pose proof (lot_splitting_250_35 (Examples.world false) Examples.buy250_35
                Examples.market eq_refl eq_refl eq_refl eq_refl
                ltac:(discriminate) eq_refl eq_refl) as [Hrun _].
  eexists _, _. split; [exact Hrun|].
  unfold quantities. cbn [fmap list_fmap].
  rewrite !(lookup_insert_ne _ "newClientOrderId") by done.
  by rewrite !lookup_insert_eq.
Defined.

(** C4 as stated fails at the scenario: the quantities are not three times
    83.4 and once 0.15. *)
Lemma lot_splitting_counterexample :
  exists out w',
    formatCreateOrder Examples.buy250_35 (Examples.world false) = (Return out, w')
    /\ quantities out <> [Some (tpl 83.4); Some (tpl 83.4); Some (tpl 83.4); Some (tpl 0.15)].
Proof.
  eexists _, _. split.
  - rewrite (formatCreateOrder_simple Examples.buy250_35 (Examples.world false)
               Examples.market eq_refl eq_refl).
    change (World.store (Examples.world false)) with (Examples.store false).
    rewrite (createOrderPayloads_250_35 (Examples.store false) Examples.market
               Examples.buy250_35 eq_refl eq_refl eq_refl eq_refl eq_refl).
    reflexivity.
  - unfold quantities. cbn [fmap list_fmap imap].
    rewrite !(lookup_insert_ne _ "newClientOrderId") by done.
    rewrite !lookup_insert_eq. intros Hq.
    assert (Hne : tpl 66.6 <> tpl 83.4) by (vm_compute; discriminate).
    apply Hne. congruence.
Qed.

(** C1 as stated fails at the scenario: no payload is a stop-loss on
    [positionSide=SHORT]. *)
Lemma hedged_stopLoss_counterexample :
  exists out w',
    formatCreateOrder Examples.buyLimitWithStop (Examples.world true) = (Return out, w')
    /\ ~ exists p, p ∈ out /\ statedStopLoss 95 p.
Proof.
  eexists _, _. split.
  - apply (formatCreateOrder_simple Examples.buyLimitWithStop (Examples.world true)
             Examples.market eq_refl eq_refl).
  - intros (p & Hin & _ & Hps & _).
    apply elem_of_assigned in Hin as (i & p0 & Hi & ->).
    rewrite lookup_insert_ne in Hps by done.
    apply list_elem_of_lookup_2 in Hi.
    rewrite (hedged_positionSide_all _ _ _ _ Hi) in Hps. discriminate.
Qed.

End SpecInstance.

(** ** Split orders, leverage and the fetches *)

(** Comparisons of the model against the order of [Q]. *)
Lemma ltb_lt (a b : Q) : Js.ltb a b = true <-> a < b.
Proof.
  unfold Js.ltb. rewrite negb_true_iff.
  destruct (Qle_bool b a) eqn:E.
  - apply Qle_bool_iff in E. split; [discriminate | intros H; lra].
  - split; [intros _|done].
    apply Qnot_le_lt. intros H. apply Qle_bool_iff in H. congruence.
Qed.

Section SplitFacts.
Context `{Ext : Externals}.


End SplitFacts.

(** [Math.min], [Math.max] and the clamp. *)
Lemma Math_min_spec (a b : Q) :
  (a <= b -> Js.Math_min a b = a) /\ (b < a -> Js.Math_min a b = b).
Proof.
  unfold Js.Math_min. destruct (Qle_bool a b) eqn:E.
  - apply Qle_bool_iff in E. split; [done | intros H; lra].
  - split; [|done]. intros H. apply Qle_bool_iff in H. congruence.
Qed.

Lemma Math_max_spec (a b : Q) :
  (a <= b -> Js.Math_max a b = b) /\ (b < a -> Js.Math_max a b = a).
Proof.
  unfold Js.Math_max. destruct (Qle_bool a b) eqn:E.
  - apply Qle_bool_iff in E. split; [done | intros H; lra].
  - split; [|done]. intros H. apply Qle_bool_iff in H. congruence.
Qed.

Lemma clampLeverage_spec (market : Market.t) (x : Q) :
  let lo := MinMax.min (Limits.leverage (Market.limits market)) in
  let hi := MinMax.max (Limits.leverage (Market.limits market)) in
  lo <= hi ->
  lo <= clampLeverage market x <= hi
  /\ (lo <= x <= hi -> clampLeverage market x == x)
  /\ (x < lo -> clampLeverage market x == lo)
  /\ (hi < x -> clampLeverage market x == hi).
Proof.
  intros lo hi Hle. unfold clampLeverage. fold lo hi.
  destruct (Math_max_spec x lo) as [Hmax1 Hmax2].
  destruct (Qlt_le_dec lo x) as [Hx|Hx].
  - rewrite (Hmax2 Hx).
    destruct (Math_min_spec x hi) as [Hmin1 Hmin2].
    destruct (Qlt_le_dec hi x) as [Hy|Hy].
    + rewrite (Hmin2 Hy). repeat split; intros; lra.
    + rewrite (Hmin1 Hy). repeat split; intros; lra.
  - rewrite (Hmax1 Hx).
    destruct (Math_min_spec lo hi) as [Hmin1 _]. rewrite (Hmin1 Hle).
    repeat split; intros; lra.
Qed.

Lemma eqb_Qeq (a b : Q) : Js.eqb a b = true <-> a == b.
Proof. apply Qeq_bool_iff. Qed.

Section ExchangeFacts.
Context `{Ext : Externals}.

(** C10. [setLeverage] throws when the market, then when the position, is
    missing.  Otherwise the leverage is the input clamped into the market's
    leverage limits; when the stored position already has it nothing is sent
    and nothing changes; when it differs exactly one request is sent, with
    the clamped leverage, and the store is updated when the venue accepts
    it. *)
Theorem setLeverage_sends_clamped_leverage
    (w : World.t) (symbol : string) (inputLeverage : Q) (postReply : Reply.t unit) :
  let markets := Store.markets (World.store w) in
  let positions := Store.positions (World.store w) in
  let findMarket := find (fun m => String.eqb (Market.symbol m) symbol) markets in
  let findPosition := find (fun p => String.eqb (Position.symbol p) symbol) positions in
  (findMarket = None ->
     setLeverage symbol inputLeverage postReply w = (Throw (MarketNotFound symbol), w))
  /\ (forall market, findMarket = Some market -> findPosition = None ->
       setLeverage symbol inputLeverage postReply w = (Throw (PositionNotFound symbol), w))
  /\ (forall market position,
       findMarket = Some market -> findPosition = Some position ->
       let lo := MinMax.min (Limits.leverage (Market.limits market)) in
       let hi := MinMax.max (Limits.leverage (Market.limits market)) in
       let leverage := clampLeverage market inputLeverage in
       (lo <= hi ->
          lo <= leverage <= hi
          /\ (lo <= inputLeverage <= hi -> leverage == inputLeverage)
          /\ (inputLeverage < lo -> leverage == lo)
          /\ (hi < inputLeverage -> leverage == hi))
       /\ (Position.leverage position == leverage ->
            setLeverage symbol inputLeverage postReply w = (Return tt, w))
       /\ (~ Position.leverage position == leverage ->
            let sent := requested w (Reply.disposedMeanwhile postReply)
                          (Request.post_SET_LEVERAGE symbol leverage) in
            setLeverage symbol inputLeverage postReply w =
              match Reply.outcome postReply with
              | Resolved _ =>
                  (Return tt,
                   withStore
                     (StoreOps.updatePositions
                        [ (symbol, PositionSide.Long, leverageChange leverage);
                          (symbol, PositionSide.Short, leverageChange leverage) ]
                        (World.store w))
                     sent)
              | Rejected err =>
                  (Return tt, emits sent [Ev_error (JsError.describe err)])
              end)).
Proof.
  intros markets positions findMarket findPosition.
  split; [|split].
  - intros Hm. unfold setLeverage, bind, getStore.
    fold markets findMarket. by rewrite Hm.
  - intros market Hm Hp. unfold setLeverage, bind, getStore.
    fold markets findMarket positions findPosition. by rewrite Hm, Hp.
  - intros market position Hm Hp lo hi leverage. split; [|split].
    + apply clampLeverage_spec.
    + intros Heq. unfold setLeverage, bind, getStore.
      fold markets findMarket positions findPosition. rewrite Hm, Hp.
      fold leverage. apply eqb_Qeq in Heq. by rewrite Heq.
    + intros Hne sent. unfold setLeverage, bind, getStore.
      fold markets findMarket positions findPosition. rewrite Hm, Hp.
      fold leverage.
      destruct (Js.eqb (Position.leverage position) leverage) eqn:E;
        [by apply eqb_Qeq in E|].
      cbn [negb]. unfold try_catch, bind, await, modifyStore, bind, getStore, setStore, emit.
      destruct postReply as [[[]|err] d]; reflexivity.
Qed.


(** C7. A bootstrap or tick fetch whose request is rejected emits the error
    on [error] and returns what the store holds, whichever of its requests is
    the one that fails; the store is not touched.  A tick whose fetch failed
    leaves markets, tickers, positions, balance and orders as they were. *)
Theorem failed_fetch_returns_stored_state (w : World.t) (err : JsError.t) :
  (forall d bracketReply,
     fetchMarkets (Reply.mk (Rejected err) d) bracketReply w =
       (Return (Store.markets (World.store w)),
        failed w d [Request.get_MARKETS] err))
  /\ (forall symbols d1 d2,
       fetchMarkets (Reply.mk (Resolved symbols) d1) (Reply.mk (Rejected err) d2) w =
         (Return (Store.markets (World.store w)),
          failed w (d1 || d2) [Request.get_MARKETS; Request.get_LEVERAGE_BRACKET] err))
  /\ (forall d bookReply priceReply,
       fetchTickers (Reply.mk (Rejected err) d) bookReply priceReply w =
         (Return (Store.tickers (World.store w)),
          failed w d [Request.get_TICKERS_24H] err))
  /\ (forall dailys d1 d2 priceReply,
       fetchTickers (Reply.mk (Resolved dailys) d1) (Reply.mk (Rejected err) d2)
                    priceReply w =
         (Return (Store.tickers (World.store w)),
          failed w (d1 || d2) [Request.get_TICKERS_24H; Request.get_TICKERS_BOOK] err))
  /\ (forall dailys books d1 d2 d3,
       fetchTickers (Reply.mk (Resolved dailys) d1) (Reply.mk (Resolved books) d2)
                    (Reply.mk (Rejected err) d3) w =
         (Return (Store.tickers (World.store w)),
          failed w (d1 || d2 || d3)
                 [Request.get_TICKERS_24H; Request.get_TICKERS_BOOK;
                  Request.get_TICKERS_PRICE] err))
  /\ (forall d,
       fetchBalanceAndPositions (Reply.mk (Rejected err) d) w =
         (Return (Store.positions (World.store w), Store.balance (World.store w)),
          failed w d [Request.get_ACCOUNT] err))
  /\ (forall d,
       fetchOrders (Reply.mk (Rejected err) d) w =
         (Return (Store.orders (World.store w)),
          failed w d [Request.get_OPEN_ORDERS] err))
  /\ (forall d,
       let w' := (tick (Reply.mk (Rejected err) d) w).2 in
       (World.isDisposed w = false ->
          World.emitted w' = (World.emitted w ++ [Ev_error (JsError.describe err)])%list)
       /\ Store.markets (World.store w') = Store.markets (World.store w)
       /\ Store.tickers (World.store w') = Store.tickers (World.store w)
       /\ Store.positions (World.store w') = Store.positions (World.store w)
       /\ Store.balance (World.store w') = Store.balance (World.store w)
       /\ Store.orders (World.store w') = Store.orders (World.store w)).
Proof.
  destruct w as [st disposed ids emitted requests].
  repeat split; intros; unfold failed; cbn;
    rewrite ?orb_assoc, <- ?app_assoc; try reflexivity.
  all: unfold tick, bind, getDisposed; cbn; destruct disposed; cbn; try done;
    destruct d; reflexivity.
Qed.

End ExchangeFacts.

(** ** Positions and the private stream *)

(** Positions rebuilt from the account data have [contracts >= 0]. *)
Lemma positionOf_contracts (p : RawPosition.t) : 0 <= Position.contracts (positionOf p).
Proof. apply Qabs_nonneg. Qed.

(** Summing the assets emits nothing and changes nothing. *)
Lemma addAssets_world (st : Store.t) (assets : list RawAsset.t) (balance : Balance.t)
    (w : World.t) :
  (addAssets st balance assets w).2 = w.
Proof.
  revert balance. induction assets as [|a rest IH]; intros balance; [done|].
  cbn [addAssets]. unfold bind at 1, addAsset.
  destruct (Js.gtb (RawAsset.walletBalance a) 0); [|apply IH].
  unfold bind at 1.
  destruct (negb _); [destruct (find _ _)|]; unfold ret, throw; cbn; try apply IH; done.
Qed.

(** Bootstrap and tick keep [contracts >= 0]: the positions they return are
    either rebuilt with [Math.abs] or the ones the store already holds. *)
Lemma fetchBalanceAndPositions_contracts (reply : Reply.t RawAccount.t)
    (w w' : World.t) positions balance :
  nonNegativeContracts (Store.positions (World.store w)) ->
  fetchBalanceAndPositions reply w = (Return (positions, balance), w') ->
  nonNegativeContracts positions.
Proof.
  intros Hinv. unfold fetchBalanceAndPositions, try_catch, bind at 1, await.
  destruct reply as [[data|err] d]; cbn [Reply.outcome].
  - unfold bind at 1, getStore. cbn [World.store].
    unfold bind at 1.
    match goal with |- context [addAssets ?st ?b ?l ?w0] =>
      pose proof (addAssets_world st l b w0) as Hw;
      destruct (addAssets st b l w0) as [[bal|e] w1]
    end; cbn in Hw; subst w1;
      unfold ret, emitAndReturn, bind, emit, getStore; cbn.
    + intros [= <- _ _].
      induction (List.filter _ _); constructor; auto using positionOf_contracts.
    + by intros [= <- _ _].
  - unfold emitAndReturn, bind, emit, getStore, ret. cbn. by intros [= <- _ _].
Qed.

(** C2, the failing input: an [ACCOUNT_UPDATE] slot with a negative amount
    is stored as it comes; the short position ends with [contracts = -2]. *)
Theorem account_update_stores_negative_contracts :
  let w' := (PrivateWs.handleAccountEvents [Examples.accountUpdate] (Examples.world true)).2 in
  Store.positions (World.store w') =
    [ Examples.longPosition;
      Position.mk "BTCUSDT" PositionSide.Short 100 (-200) 10 0 (-2) 0 ]
  /\ nonNegativeContracts (Store.positions (World.store (Examples.world true)))
  /\ ~ nonNegativeContracts (Store.positions (World.store w')).
Proof.
  assert (Hrun : Store.positions (World.store
             (PrivateWs.handleAccountEvents [Examples.accountUpdate] (Examples.world true)).2) =
    [ Examples.longPosition;
      Position.mk "BTCUSDT" PositionSide.Short 100 (-200) 10 0 (-2) 0 ])
    by (vm_compute; reflexivity).
  cbv zeta. rewrite Hrun. split; [done|]. split.
  - repeat constructor; cbn; lra.
  - intros H. apply Forall_cons in H as [_ H]. apply Forall_cons in H as [H _].
    cbn in H. lra.
Qed.

Section StreamFacts.
Context `{Ext : Externals}.


End StreamFacts.

Section StreamWitness.
Existing Instance SpecModel.externals.
End StreamWitness.

(** ** The dispatch queue *)

Section QueueFacts.
Import OrderQueueManager.
Local Open Scope Z_scope.

(** Filters ordered by implication. *)
Lemma filter_length_impl {A} (P Q : A -> bool) (l : list A) :
  (forall x, P x = true -> Q x = true) ->
  (length (List.filter P l) <= length (List.filter Q l))%nat.
Proof.
  intros HPQ. induction l as [|x l IH]; [done|]. cbn.
  destruct (P x) eqn:EP.
  - rewrite (HPQ x EP). cbn. lia.
  - destruct (Q x); cbn; lia.
Qed.

Lemma filter_filter_impl {A} (P Q : A -> bool) (l : list A) :
  (forall x, P x = true -> Q x = true) ->
  List.filter P (List.filter Q l) = List.filter P l.
Proof.
  intros HPQ. induction l as [|x l IH]; [done|]. cbn.
  destruct (Q x) eqn:EQ; cbn.
  - by rewrite IH.
  - destruct (P x) eqn:EP; [|done]. rewrite (HPQ x EP) in EQ. discriminate.
Qed.

(** Pruning at a later reading subsumes pruning at an earlier one, and
    keeps what is charged at the reading itself. *)
Lemma prune_prune (window seen now : Z) (log : list Z) :
  seen <= now ->
  prune window now (prune window seen log) = prune window now log.
Proof.
  intros Hle. apply filter_filter_impl. intros t Ht.
  apply Z.ltb_lt in Ht. apply Z.ltb_lt. lia.
Qed.

Lemma prune_admitted (window now : Z) (log : list Z) (n : nat) :
  0 < window ->
  prune window now (log ++ replicate n now) = (prune window now log ++ replicate n now)%list.
Proof.
  intros Hw. unfold prune. rewrite List.filter_app. f_equal.
  induction n as [|n IH]; [done|]. cbn.
  replace (now - now <? window) with true by (symmetry; apply Z.ltb_lt; lia).
  by rewrite IH.
Qed.

(** Counting admissions in a window. *)
Lemma admittedWithin_app (width T : Z) (l1 l2 : list Z) :
  admittedWithin width T (l1 ++ l2) =
    (admittedWithin width T l1 + admittedWithin width T l2)%nat.
Proof. unfold admittedWithin. by rewrite List.filter_app, length_app. Qed.

Lemma admittedWithin_replicate (width T now : Z) (n : nat) :
  admittedWithin width T (replicate n now) =
    if (T - width <? now) && (now <=? T) then n else 0%nat.
Proof.
  unfold admittedWithin. induction n as [|n IH]; cbn.
  - by destruct (_ && _).
  - destruct ((T - width <? now) && (now <=? T)) eqn:E; cbn; by rewrite IH.
Qed.

(** Charging [n] admissions at [now] keeps every window within [cap] when
    the pruned window had room for them. *)
Lemma admit_within (width cap now : Z) (log : list Z) (n : nat) :
  (forall T, Z.of_nat (admittedWithin width T log) <= cap) ->
  Z.of_nat (length (prune width now log)) + Z.of_nat n <= cap ->
  forall T, Z.of_nat (admittedWithin width T (log ++ replicate n now)) <= cap.
Proof.
  intros Hlog Hroom T.
  rewrite admittedWithin_app, admittedWithin_replicate.
  destruct ((T - width <? now) && (now <=? T)) eqn:E.
  - apply andb_true_iff in E as [E1 E2].
    apply Z.ltb_lt in E1. apply Z.leb_le in E2.
    assert (admittedWithin width T log <= length (prune width now log))%nat.
    { apply filter_length_impl. intros t Ht.
      apply andb_true_iff in Ht as [Ht1 Ht2].
      apply Z.ltb_lt in Ht1. apply Z.ltb_lt. lia. }
    lia.
  - specialize (Hlog T). lia.
Qed.

(** A pass keeps the windows in step with the log and within the caps. *)
Lemma Inv_pass (now seen : Z) (s : t) (log : list Z) :
  Inv s log seen -> WindowsOK log -> seen <= now ->
  let r := processOrdersPass now s in
  Inv r.1 (log ++ admitted now (Some r.2)) now
  /\ WindowsOK (log ++ admitted now (Some r.2)).
Proof.
  intros [H10 H60] Hok Hle. unfold processOrdersPass.
  rewrite H10, H60, !prune_prune by done.
  set (w10 := prune 10000 now log). set (w60 := prune 60000 now log).
  destruct ((300 <=? Z.of_nat (length w10)) || (1200 <=? Z.of_nat (length w60))) eqn:Esat.
  - cbn. rewrite app_nil_r. split; [split|]; done.
  - apply orb_false_iff in Esat as [E10 E60].
    apply Z.leb_gt in E10, E60.
    set (n := Z.to_nat (maxAllowedSize w10 w60 (queue s))).
    assert (Hn : (length (take n (queue s)) <= n)%nat) by (rewrite length_take; lia).
    assert (Hn10 : Z.of_nat n <= 300 - Z.of_nat (length w10))
      by (subst n; unfold maxAllowedSize; lia).
    assert (Hn60 : Z.of_nat n <= 1200 - Z.of_nat (length w60))
      by (subst n; unfold maxAllowedSize; lia).
    cbn [fst snd admitted orderTimestamps10s orderTimestamps60s].
    split; [split|].
    + by rewrite prune_admitted.
    + by rewrite prune_admitted.
    + intros T. split.
      * apply Nat2Z.inj_le. apply admit_within; [intros T'; destruct (Hok T'); lia|].
        fold w10. lia.
      * apply Nat2Z.inj_le. apply admit_within; [intros T'; destruct (Hok T'); lia|].
        fold w60. lia.
Qed.

(** So does every run whose clock does not run backwards. *)
Lemma run_windows (inputs : list input) :
  forall (s : t) (log : list Z) (seen : Z),
    Inv s log seen -> WindowsOK log ->
    StronglySorted Z.le (clock inputs) ->
    Forall (fun now => seen <= now) (clock inputs) ->
    WindowsOK (log ++ (run inputs s).2).
Proof.
  induction inputs as [|i rest IH]; intros s log seen HI Hok Hsorted Hseen.
  - cbn. by rewrite app_nil_r.
  - cbn [run snd]. rewrite app_assoc.
    destruct i as [orders | now | results | err | ].
    + cbn [step fst snd]. rewrite app_nil_r. by apply (IH _ _ seen).
    + cbn [clock omap] in Hsorted, Hseen.
      apply StronglySorted_inv in Hsorted as [Hsorted Hnow].
      apply Forall_cons in Hseen as [Hle Hseen].
      cbn [step fst snd]. unfold resume.
      destruct (processing s); [destruct (queue s) eqn:Eq|].
      * cbn. rewrite app_nil_r. by apply (IH _ _ seen).
      * cbn [fst snd].
        destruct (Inv_pass now seen s log HI Hok Hle) as [HI' Hok'].
        by apply (IH _ _ now).
      * cbn. rewrite app_nil_r. by apply (IH _ _ seen).
    + cbn [step fst snd]. rewrite app_nil_r. by apply (IH _ _ seen).
    + cbn [step fst snd]. rewrite app_nil_r. by apply (IH _ _ seen).
    + cbn [step fst snd]. rewrite app_nil_r. by apply (IH _ _ seen).
Qed.

(** C3. Whatever is enqueued and whenever the task resumes, as long as the
    clock does not run backwards: in every window of 10 seconds the queue
    has charged at most 300 admissions, and in every window of 60 seconds at
    most 1200. *)
Theorem rate_windows_respected (inputs : list input) (T : Z) :
  Sorted Z.le (clock inputs) ->
  (admittedWithin 10000 T (run inputs init).2 <= 300)%nat
  /\ (admittedWithin 60000 T (run inputs init).2 <= 1200)%nat.
Proof.
  intros Hsorted.
  apply Sorted_StronglySorted in Hsorted; [|intros x y z; lia].
  set (seen := match clock inputs with [] => 0 | now :: _ => now end).
  apply (run_windows inputs init [] seen).
  - done.
  - intros T'. cbn. lia.
  - done.
  - subst seen. destruct (clock inputs) as [|now rest]; [constructor|].
    apply StronglySorted_inv in Hsorted as [_ Hall].
    constructor; [lia|done].
Qed.

(** C3 at a run of seven payloads: five admitted at 0 ms, two at 170 ms. *)
Lemma rate_windows_witness :
  (admittedWithin 10000 170 (run Examples.queueInputs init).2 <= 300)%nat
  /\ (admittedWithin 60000 170 (run Examples.queueInputs init).2 <= 1200)%nat.
Proof.
  apply (rate_windows_respected Examples.queueInputs 170).
  cbn. repeat constructor. lia.
Defined.

(** A saturated pass dispatches nothing and leaves the queue as it is; it
    asks for a sleep of the age of the older of the two oldest entries, plus
    one. *)
Lemma saturated_pass (now : Z) (s : t) :
  let w10 := prune 10000 now (orderTimestamps10s s) in
  let w60 := prune 60000 now (orderTimestamps60s s) in
  (300 <= Z.of_nat (length w10) \/ 1200 <= Z.of_nat (length w60)) ->
  exists sleep,
    processOrdersPass now s =
      (mk (queue s) (processing s) (results s) w10 w60 (emitted s), Saturated sleep)
    /\ (forall t10 t60, head w10 = Some t10 -> head w60 = Some t60 ->
          sleep = Some (inject_Z (now - Z.min t10 t60 + 1))).
Proof.
  intros w10 w60 Hsat. unfold processOrdersPass. fold w10 w60.
  replace ((300 <=? Z.of_nat (length w10)) || (1200 <=? Z.of_nat (length w60)))
    with true.
  - eexists. split; [reflexivity|]. by intros t10 t60 -> ->.
  - symmetry. apply orb_true_iff. destruct Hsat; [left|right]; by apply Z.leb_le.
Qed.

(** C5, the failing input.  1500 one-payload orders are enqueued at once on
    a fresh queue and every sleep lasts exactly as long as asked.  After 240
    batches, at 40680 ms, the pass finds the 60-second window saturated with
    its oldest entry charged at 0 ms, so that entry leaves the window at
    60000 ms; the pass asks for a sleep of 40681 ms, the age of the entry
    plus one, and not for the 19320 ms that remain. *)
Theorem saturated_sleep_is_the_age_of_the_oldest_entry :
  let passes := drive 241 0 Examples.burst in
  let s := (run (List.map (fun p => Resume p.1) passes) Examples.burst).1 in
  last passes = Some (40680, Saturated (Some 40681%Q))
  /\ length passes = 241%nat
  /\ length (orderTimestamps60s s) = 1200%nat
  /\ head (orderTimestamps60s s) = Some 0
  /\ length (queue s) = 300%nat
  /\ agesOutAt 60000 0 - 40680 = 19320
  /\ agesOutAt 60000 0 < 40680 + delay (Some 40681%Q).
Proof. vm_compute. repeat split; reflexivity. Qed.

End QueueFacts.


(** ** The theorems at concrete inputs *)

Section Witnesses.
Existing Instance SpecModel.externals.



(** C7 at a tick whose account request fails with a network error. *)
Lemma failed_fetch_witness :
  World.emitted
    (tick (Reply.mk (Rejected Examples.networkError) false) (Examples.world true)).2
  = [Ev_error (Some [Lit "Network Error"])].
Proof.
  pose proof (failed_fetch_returns_stored_state (Examples.world true)
                Examples.networkError) as (_&_&_&_&_&_&_&Htick).
  destruct (Htick false) as [Hemit _].
  exact (Hemit eq_refl).
Defined.

(** C10 at a request for 500x on a market that allows 1 to 125 and a
    position held at 10x. *)
Lemma setLeverage_witness :
  setLeverage "BTCUSDT" 500 (Reply.mk (Resolved tt) false) (Examples.world true) =
    (Return tt,
     withStore
       (StoreOps.updatePositions
          [ ("BTCUSDT", PositionSide.Long, leverageChange 125);
            ("BTCUSDT", PositionSide.Short, leverageChange 125) ]
          (Examples.store true))
       (requested (Examples.world true) false (Request.post_SET_LEVERAGE "BTCUSDT" 125))).
Proof.
  pose proof (setLeverage_sends_clamped_leverage (Examples.world true) "BTCUSDT" 500
                (Reply.mk (Resolved tt) false)) as (_ & _ & Hfound).
  destruct (Hfound Examples.market Examples.longPosition eq_refl eq_refl)
    as (_ & _ & Hsend).
  apply Hsend. vm_compute. discriminate.
Defined.

End Witnesses.

(** * Further properties *)

(** ** The formatter: identifiers *)

Section IdentifierFacts.
Context `{Ext : Externals}.

(** The identifiers [n], [n + 1], ... as the payloads carry them. *)
Lemma clientIds_assigned (payloads : list PayloadOrder) (n : nat) :
  clientIds (imap (fun i p => <["newClientOrderId" := str (uuid (n + i)%nat)]> p) payloads)
  = (fun k => Some (str (uuid k))) <$> seq n (length payloads).
Proof.
  unfold clientIds. apply list_eq. intros i.
  rewrite !list_lookup_fmap, list_lookup_imap.
  destruct (payloads !! i) as [p|] eqn:E; cbn.
  - rewrite lookup_insert_eq.
    apply lookup_lt_Some in E as Hlt.
    by rewrite (lookup_seq_lt _ _ _ Hlt).
  - apply lookup_ge_None in E.
    by rewrite lookup_seq_ge.
Qed.

(** One call draws one identifier per payload, in order. *)
Lemma formatCreateOrder_ids (opts : PlaceOrderOpts.t) (w w' : World.t) out :
  formatCreateOrder opts w = (Return out, w') ->
  clientIds out = (fun k => Some (str (uuid k))) <$> seq (World.ids w) (length out)
  /\ w' = withIds w (length out).
Proof.
  intros Hrun.
  destruct (OrderType.eqb (PlaceOrderOpts.type opts) OrderType.TrailingStopLoss) eqn:Hty.
  - unfold formatCreateOrder in Hrun. rewrite Hty in Hrun.
    unfold formatCreateTrailingStopLossOrder, bind, getStore, throw, fresh, ret in Hrun.
    repeat match type of Hrun with
           | context [match find ?f ?l with Some _ => _ | None => _ end] =>
               destruct (find f l)
           end; try discriminate.
    injection Hrun as <- <-. split.
    + unfold clientIds. cbn [fmap list_fmap length seq].
      by rewrite lookup_omitUndefined.
    + unfold withIds. cbn. by rewrite Nat.add_1_r.
  - destruct (find (fun m => String.eqb (Market.symbol m) (PlaceOrderOpts.symbol opts))
                   (Store.markets (World.store w))) as [market|] eqn:Hm.
    + rewrite (formatCreateOrder_simple opts w market Hty Hm) in Hrun.
      injection Hrun as <- <-. rewrite length_imap. split; [|done].
      apply clientIds_assigned.
    + unfold formatCreateOrder in Hrun. rewrite Hty in Hrun.
      unfold bind, getStore in Hrun. rewrite Hm in Hrun. discriminate.
Qed.

Lemma withIds_withIds (w : World.t) (a b : nat) :
  withIds (withIds w a) b = withIds w (a + b).
Proof. unfold withIds. cbn. f_equal. lia. Qed.

Lemma formatCreateOrders_ids (orders : list PlaceOrderOpts.t) (w w' : World.t) out :
  formatCreateOrders orders w = (Return out, w') ->
  clientIds out = (fun k => Some (str (uuid k))) <$> seq (World.ids w) (length out)
  /\ w' = withIds w (length out).
Proof.
  revert w out. induction orders as [|o rest IH]; intros w out Hrun.
  - injection Hrun as <- <-. split; [done|].
    unfold withIds. destruct w. cbn. f_equal. lia.
  - cbn [formatCreateOrders] in Hrun. unfold bind at 1 in Hrun.
    destruct (formatCreateOrder o w) as [[payloads|err] w1] eqn:E1; [|discriminate].
    unfold bind at 1 in Hrun.
    destruct (formatCreateOrders rest w1) as [[more|err] w2] eqn:E2; [|discriminate].
    injection Hrun as <- <-.
    destruct (formatCreateOrder_ids _ _ _ _ E1) as [H1 ->].
    destruct (IH _ _ E2) as [H2 ->].
    split.
    + unfold clientIds in *. rewrite fmap_app, H1, H2, length_app, seq_app, fmap_app.
      done.
    + by rewrite withIds_withIds, length_app.
Qed.

(** X1. The payloads of one [placeOrders] call each carry a client
    identifier, no two the same, and a later call repeats none of them, as
    long as the generator does not repeat itself; the session has then drawn
    one identifier per payload. *)
Theorem client_ids_never_collide
    (first second : list PlaceOrderOpts.t) (w w1 w2 : World.t)
    (out1 out2 : list PayloadOrder) :
  Inj (=) (=) uuid ->
  formatCreateOrders first w = (Return out1, w1) ->
  formatCreateOrders second w1 = (Return out2, w2) ->
  NoDup (clientIds (out1 ++ out2))
  /\ Forall is_Some (clientIds (out1 ++ out2))
  /\ World.ids w2 = (World.ids w + length (out1 ++ out2))%nat.
Proof.
  intros Hinj H1 H2.
  destruct (formatCreateOrders_ids _ _ _ _ H1) as [E1 ->].
  destruct (formatCreateOrders_ids _ _ _ _ H2) as [E2 ->].
  assert (E : clientIds (out1 ++ out2) =
              (fun k => Some (str (uuid k))) <$> seq (World.ids w) (length (out1 ++ out2))).
  { unfold clientIds in *. rewrite fmap_app, E1, E2, length_app, seq_app, fmap_app.
    done. }
  rewrite E. split; [|split].
  - apply NoDup_fmap_2; [|apply NoDup_seq].
    intros a b Hab. apply Hinj. unfold str in Hab. by injection Hab.
  - apply Forall_fmap, Forall_forall. intros k _. by eexists.
  - cbn. rewrite length_app. lia.
Qed.

End IdentifierFacts.

(** ** The formatter: missing data *)

Section MissingDataFacts.
Context `{Ext : Externals}.

(** A formatter that throws has drawn no identifier and emitted nothing. *)
Lemma formatCreateOrder_throws_early (opts : PlaceOrderOpts.t) (w w' : World.t) err :
  formatCreateOrder opts w = (Throw err, w') -> w' = w.
Proof.
  unfold formatCreateOrder, formatCreateTrailingStopLossOrder, bind, getStore, throw, fresh, ret.
  destruct (OrderType.eqb _ _).
  - repeat match goal with
           | |- context [match find ?f ?l with Some _ => _ | None => _ end] =>
               destruct (find f l)
           end; intros [= _ <-]; done.
  - destruct (find _ _); [|by intros [= _ <-]].
    rewrite forEach_assignClientOrderId. discriminate.
Qed.

(** A simple or trailing intent for a symbol the catalog does not hold. *)
Lemma formatCreateOrder_unknown_market (opts : PlaceOrderOpts.t) (w : World.t) :
  knownMarket w (PlaceOrderOpts.symbol opts) = None ->
  formatCreateOrder opts w = (Throw (MarketNotFound (PlaceOrderOpts.symbol opts)), w).
Proof.
  unfold knownMarket. intros Hm.
  unfold formatCreateOrder, formatCreateTrailingStopLossOrder, bind, getStore, throw.
  destruct (OrderType.eqb _ _); by rewrite Hm.
Qed.

(** X2. An intent for a symbol the catalog does not hold fails the whole
    [placeOrders] batch: the formatter throws, whatever the other intents
    are, and no payload comes out. *)
Theorem unknown_market_fails_the_batch
    (orders : list PlaceOrderOpts.t) (bad : PlaceOrderOpts.t) (w : World.t) :
  bad ∈ orders ->
  knownMarket w (PlaceOrderOpts.symbol bad) = None ->
  exists err w', formatCreateOrders orders w = (Throw err, w')
                 /\ World.store w' = World.store w
                 /\ World.emitted w' = World.emitted w.
Proof.
  intros Hin Hbad. revert w Hbad.
  induction orders as [|o rest IH]; intros w Hbad; [by apply elem_of_nil in Hin|].
  cbn [formatCreateOrders]. unfold bind at 1.
  destruct (formatCreateOrder o w) as [[payloads|err] w1] eqn:E1.
  - destruct (formatCreateOrder_ids _ _ _ _ E1) as [_ ->].
    apply elem_of_cons in Hin as [->|Hin].
    + rewrite (formatCreateOrder_unknown_market _ _ Hbad) in E1. discriminate.
    + destruct (IH Hin (withIds w (length payloads)) Hbad) as (err & w' & Hrun & Hs & He).
      unfold bind at 1. rewrite Hrun. eauto.
  - apply formatCreateOrder_throws_early in E1 as ->. eauto.
Qed.

(** X3. The formatter names what is missing, in the order it looks: a simple
    intent needs its market; a trailing stop needs its market, then its
    ticker, then an open position on the side opposite to the order; a split
    intent needs its market, then its ticker.  The world is left as it
    was. *)
Theorem formatter_names_what_is_missing (w : World.t) :
  (forall opts,
     knownMarket w (PlaceOrderOpts.symbol opts) = None ->
     formatCreateOrder opts w = (Throw (MarketNotFound (PlaceOrderOpts.symbol opts)), w))
  /\ (forall opts market,
       PlaceOrderOpts.type opts = OrderType.TrailingStopLoss ->
       knownMarket w (PlaceOrderOpts.symbol opts) = Some market ->
       knownTicker w (PlaceOrderOpts.symbol opts) = None ->
       formatCreateOrder opts w = (Throw (TickerNotFound (PlaceOrderOpts.symbol opts)), w))
  /\ (forall opts market ticker,
       PlaceOrderOpts.type opts = OrderType.TrailingStopLoss ->
       knownMarket w (PlaceOrderOpts.symbol opts) = Some market ->
       knownTicker w (PlaceOrderOpts.symbol opts) = Some ticker ->
       let pSide := match PlaceOrderOpts.side opts with
                    | OrderSide.Buy => PositionSide.Short
                    | OrderSide.Sell => PositionSide.Long
                    end in
       (forall p, p ∈ Store.positions (World.store w) ->
                  Position.symbol p = PlaceOrderOpts.symbol opts -> Position.side p <> pSide) ->
       formatCreateOrder opts w =
         (Throw (JsError.Error ("Position " +:+ PlaceOrderOpts.symbol opts +:+ " and side "
                                +:+ PositionSide_value pSide +:+ " not found")), w))
  /\ (forall opts,
       knownMarket w (SplidOrderOpts.symbol opts) = None ->
       formatCreateSplitOrders opts w =
         (Throw (MarketNotFound (SplidOrderOpts.symbol opts)), w))
  /\ (forall opts market,
       knownMarket w (SplidOrderOpts.symbol opts) = Some market ->
       knownTicker w (SplidOrderOpts.symbol opts) = None ->
       formatCreateSplitOrders opts w =
         (Throw (TickerNotFound (SplidOrderOpts.symbol opts)), w)).
Proof.
  split; [|split; [|split; [|split]]]; unfold knownMarket, knownTicker.
  - intros opts Hm. by apply formatCreateOrder_unknown_market.
  - intros opts market Hty Hm Ht.
    unfold formatCreateOrder, formatCreateTrailingStopLossOrder, bind, getStore, throw.
    rewrite Hty. cbn [OrderType.eqb]. cbv beta iota zeta. by rewrite Hm, Ht.
  - intros opts market ticker Hty Hm Ht. cbv zeta.
    set (pSide := match PlaceOrderOpts.side opts with
                  | OrderSide.Buy => PositionSide.Short
                  | OrderSide.Sell => PositionSide.Long
                  end).
    intros Hnone.
    unfold formatCreateOrder, formatCreateTrailingStopLossOrder, bind, getStore, throw.
    rewrite Hty. cbn [OrderType.eqb]. cbv beta iota zeta. rewrite Hm, Ht.
    replace (if OrderSide.eqb (PlaceOrderOpts.side opts) OrderSide.Buy
             then PositionSide.Short else PositionSide.Long) with pSide
      by (subst pSide; by destruct (PlaceOrderOpts.side opts)).
    destruct (find _ (Store.positions _)) as [p|] eqn:Hp; [|done].
    apply find_some in Hp as [Hin Hp]. apply andb_true_iff in Hp as [Hs Hside].
    apply String.eqb_eq in Hs. apply list_elem_of_In in Hin.
    exfalso. apply (Hnone p Hin Hs).
    by destruct (Position.side p), pSide.
  - intros opts Hm. unfold formatCreateSplitOrders, bind, getStore, throw. by rewrite Hm.
  - intros opts market Hm Ht. unfold formatCreateSplitOrders, bind, getStore, throw.
    by rewrite Hm, Ht.
Qed.

End MissingDataFacts.

(** ** The formatter: which fields a payload carries *)

Section FieldFacts.
Context `{Ext : Externals}.

(** The price fields of the request skeleton. *)
Lemma req_price_fields st market opts :
  PlaceOrderOpts.type opts <> OrderType.TrailingStopLoss ->
  let req := createOrderReq st market opts in
  let pPrice := Precision.price (Market.precision market) in
  (is_Some (req !! "price") ->
     PlaceOrderOpts.type opts = OrderType.Limit
     /\ req !! "stopPrice" = None
     /\ req !! "closePosition" = None
     /\ req !! "timeInForce" =
          Some (str (TIME_IN_FORCE_inv
                       (default OrderTimeInForce.GoodTillCancel
                                (PlaceOrderOpts.timeInForce opts))))
     /\ exists x, PlaceOrderOpts.price opts = Some x
                  /\ req !! "price" = Some (tpl (adjust x pPrice)))
  /\ (is_Some (req !! "stopPrice") ->
        req !! "price" = None /\ req !! "closePosition" = Some (str "true"))
  /\ (PlaceOrderOpts.type opts = OrderType.Market ->
        req !! "price" = None /\ req !! "stopPrice" = None
        /\ req !! "timeInForce" = None /\ req !! "closePosition" = None).
Proof.
  intros Hnt. cbv zeta. unfold createOrderReq. rewrite !lookup_omitUndefined. unfold lastField.
  destruct (PlaceOrderOpts.type opts) eqn:Hty; cbn;
    destruct (PlaceOrderOpts.price opts) as [x|]; cbn;
    try destruct (Js.truthy x); cbn;
    try destruct (Js.truthy (adjust x _)); cbn;
    destruct (PlaceOrderOpts.timeInForce opts); cbn;
    repeat split; try done; try (intros [? [=]]); try (intros [=]); eauto.
Qed.


(** X4. A payload of a simple intent never carries [price] and [stopPrice]
    together.  [price] appears only on the lots of a Limit intent, as the
    intent's price adjusted to the price step, next to the intent's time in
    force (GTC when it names none) and without [closePosition]; [stopPrice]
    appears only next to [closePosition=true]; the lots of a Market intent
    carry neither a time in force nor [closePosition]. *)
Theorem price_fields_follow_the_order_type
    (w : World.t) (opts : PlaceOrderOpts.t) (market : Market.t) :
  PlaceOrderOpts.type opts <> OrderType.TrailingStopLoss ->
  knownMarket w (PlaceOrderOpts.symbol opts) = Some market ->
  exists out w',
    formatCreateOrder opts w = (Return out, w')
    /\ forall p, p ∈ out ->
         (is_Some (p !! "price") ->
            p !! "stopPrice" = None
            /\ p !! "closePosition" = None
            /\ PlaceOrderOpts.type opts = OrderType.Limit
            /\ p !! "timeInForce" =
                 Some (str (TIME_IN_FORCE_inv
                              (default OrderTimeInForce.GoodTillCancel
                                       (PlaceOrderOpts.timeInForce opts))))
            /\ exists x, PlaceOrderOpts.price opts = Some x
                  /\ p !! "price" =
                       Some (tpl (adjust x (Precision.price (Market.precision market)))))
         /\ (is_Some (p !! "stopPrice") -> p !! "closePosition" = Some (str "true"))
         /\ (PlaceOrderOpts.type opts = OrderType.Market ->
               p !! "price" = None
               /\ (p !! "closePosition" = None ->
                     p !! "stopPrice" = None /\ p !! "timeInForce" = None)).
Proof.
  intros Hnt Hm.
  assert (HtyF : OrderType.eqb (PlaceOrderOpts.type opts) OrderType.TrailingStopLoss = false)
    by (destruct (PlaceOrderOpts.type opts); done).
  eexists _, _. split; [apply (formatCreateOrder_simple opts w market HtyF Hm)|].
  intros p Hin. apply elem_of_assigned in Hin as (i & p0 & Hi & ->).
  rewrite !(lookup_insert_ne _ "newClientOrderId") by done.
  apply list_elem_of_lookup_2 in Hi.
  set (req := createOrderReq (World.store w) market opts).
  destruct (req_price_fields (World.store w) market opts Hnt) as (Hprice & Hstop & Hmarket).
  fold req in Hprice, Hstop, Hmarket.
  destruct (createOrderPayloads_elem _ _ _ _ Hi) as [[q ->] | (ty & sp & ->)]; fold req.
  - rewrite !(lookup_insert_ne _ "quantity") by done.
    split; [|split].
    + intros H. destruct (Hprice H) as (?&?&?&?&?). done.
    + intros H. by destruct (Hstop H).
    + intros H. destruct (Hmarket H) as (?&?&?&?). done.
  - destruct (attachedOrder_fields req (PlaceOrderOpts.side opts) ty sp)
      as (_&_&Hc&_&_&Hp&_&_&_).
    rewrite Hp, Hc. split; [|split].
    + by intros [? [=]].
    + done.
    + intros _. split; [done|]. intros [=].
Qed.

(** X5. On a one-way account every payload of an intent is on
    [positionSide=BOTH]; the payloads of a simple intent carry
    [reduceOnly=true] exactly when the intent is reduce-only and is not itself
    a stop-loss or take-profit: the lots, and with them the stop-loss and
    take-profit attached to it. *)
Theorem one_way_payloads (w : World.t) (opts : PlaceOrderOpts.t) out w' :
  Store.isHedged (World.store w) = false ->
  formatCreateOrder opts w = (Return out, w') ->
  forall p, p ∈ out ->
    p !! "positionSide" = Some (str "BOTH")
    /\ (PlaceOrderOpts.type opts <> OrderType.TrailingStopLoss ->
          p !! "reduceOnly" =
            if PlaceOrderOpts.reduceOnly opts && negb (isStopOrTP opts)
            then Some (str "true") else None).
Proof.
  intros Hh Hrun p Hin.
  destruct (OrderType.eqb (PlaceOrderOpts.type opts) OrderType.TrailingStopLoss) eqn:Hty.
  - unfold formatCreateOrder in Hrun. rewrite Hty in Hrun.
    unfold formatCreateTrailingStopLossOrder, bind, getStore, throw, fresh, ret in Hrun.
    repeat match type of Hrun with
           | context [match find ?f ?l with Some _ => _ | None => _ end] =>
               destruct (find f l)
           end; try discriminate.
    injection Hrun as <- _. apply list_elem_of_singleton in Hin as ->.
    split.
    + rewrite lookup_omitUndefined, Hh. reflexivity.
    + intros Hnt. by destruct (PlaceOrderOpts.type opts).
  - destruct (knownMarket w (PlaceOrderOpts.symbol opts)) as [market|] eqn:Hm.
    + rewrite (formatCreateOrder_simple opts w market Hty Hm) in Hrun.
      injection Hrun as <- _.
      apply elem_of_assigned in Hin as (i & p0 & Hi & ->).
      rewrite !(lookup_insert_ne _ "newClientOrderId") by done.
      apply list_elem_of_lookup_2 in Hi.
      split.
      * rewrite (hedged_positionSide_all _ _ _ _ Hi), Hh. reflexivity.
      * intros _.
        assert (Hreq : createOrderReq (World.store w) market opts !! "reduceOnly" =
                  if PlaceOrderOpts.reduceOnly opts && negb (isStopOrTP opts)
                  then Some (str "true") else None).
        { unfold createOrderReq, isStopOrTP. rewrite lookup_omitUndefined, Hh.
          unfold lastField.
          destruct (PlaceOrderOpts.type opts), (PlaceOrderOpts.reduceOnly opts);
            reflexivity. }
        destruct (createOrderPayloads_elem _ _ _ _ Hi) as [[q ->] | (ty & sp & ->)].
        -- by rewrite lookup_insert_ne.
        -- destruct (attachedOrder_fields (createOrderReq (World.store w) market opts)
                       (PlaceOrderOpts.side opts) ty sp) as (_&_&_&_&_&_&_&->&_).
           done.
    + rewrite (formatCreateOrder_unknown_market opts w Hm) in Hrun. discriminate.
Qed.


End FieldFacts.

(** ** The split formatter: the ladder *)





Section LadderFacts.
Context `{Ext : Externals}.


End LadderFacts.

(** ** The fetchers on the data the venue sends *)

Lemma List_filter_sublist {A} (p : A -> bool) (l : list A) :
  sublist (List.filter p l) l.
Proof.
  induction l as [|x l IH]; cbn; [constructor|].
  destruct (p x); by constructor.
Qed.

Lemma List_filter_elem {A} (p : A -> bool) (l : list A) (x : A) :
  x ∈ List.filter p l <-> x ∈ l /\ p x = true.
Proof. rewrite !list_elem_of_In. apply filter_In. Qed.

Lemma find_Some_elem {A} (p : A -> bool) (l : list A) (x : A) :
  find p l = Some x -> x ∈ l /\ p x = true.
Proof. intros H. apply find_some in H. by rewrite list_elem_of_In. Qed.

Lemma marketOf_fields (data : list RawBracket.t) (raw : RawSymbol.t) (m : Market.t) :
  marketOf data raw = Some m ->
  Market.symbol m = RawSymbol.symbol raw
  /\ Market.id m = RawSymbol.baseAsset raw +:+ "/" +:+ RawSymbol.quoteAsset raw +:+ ":"
                   +:+ RawSymbol.marginAsset raw
  /\ Market.active m = String.eqb (RawSymbol.status raw) "TRADING"
  /\ MinMax.min (Limits.leverage (Market.limits m)) = 1
  /\ exists bracket top,
       bracket ∈ data /\ RawBracket.symbol bracket = RawSymbol.symbol raw
       /\ head (RawBracket.brackets bracket) = Some top
       /\ MinMax.max (Limits.leverage (Market.limits m)) = top.
Proof.
  unfold marketOf. intros H.
  destruct (findFilter raw "PRICE_FILTER") as [p|]; [|done].
  destruct (findFilter raw "LOT_SIZE") as [amt|]; [|done].
  destruct (findFilter raw "MIN_NOTIONAL") as [notional|]; [|done].
  destruct (findFilter raw "MARKET_LOT_SIZE") as [mAmt|]; [|done].
  cbn in H.
  destruct (find _ data) as [b|] eqn:Eb; [|done]. cbn in H.
  destruct (head (RawBracket.brackets b)) as [top|] eqn:Et; [|done]. cbn in H.
  injection H as <-. cbn. repeat split.
  apply find_Some_elem in Eb as [Hb Hs]. apply String.eqb_eq in Hs.
  by exists b, top.
Qed.

Lemma Forall2_Forall_transfer {A B} (R : A -> B -> Prop) (P : A -> Prop) (Q : B -> Prop)
    (l : list A) (k : list B) :
  (forall x y, P x -> R x y -> Q y) -> Forall2 R l k -> Forall P l -> Forall Q k.
Proof.
  intros HPQ H. induction H as [|x y l k Hxy _ IH]; [constructor|].
  intros [Hx Hl]%Forall_cons. constructor; eauto.
Qed.

Lemma filter_listed (symbols : list RawSymbol.t) :
  List.filter (fun m => String.eqb (RawSymbol.contractType m) "PERPETUAL"
                        && String.eqb (RawSymbol.marginAsset m) "USDT")
    (List.filter (fun s => negb (includes unwantedSymbols (RawSymbol.symbol s))) symbols)
  = List.filter listed symbols.
Proof.
  induction symbols as [|s l IH]; [done|]. cbn [List.filter]. unfold listed at 1.
  destruct (negb _); cbn [List.filter andb]; [|exact IH].
  destruct (_ && _); by rewrite IH.
Qed.

Section FetchFacts.
Context `{Ext : Externals}.

(** X8. When both catalog requests are answered, [fetchMarkets] either
    returns one market per listed venue symbol (not delisted, perpetual,
    margined in USDT), in the venue's order, each with the venue's symbol,
    leverage from 1 to the first bracket's initial leverage and [active]
    exactly when the venue says TRADING, emitting nothing; or, a listed
    symbol lacking a filter or a bracket, it emits the error and returns the
    stored markets.  The store is not written either way. *)
Theorem fetchMarkets_keeps_listed_symbols
    (w : World.t) (symbols : list RawSymbol.t) (data : list RawBracket.t) (d1 d2 : bool) :
  let run := fetchMarkets (Reply.mk (Resolved symbols) d1) (Reply.mk (Resolved data) d2) w in
  let requests := [Request.get_MARKETS; Request.get_LEVERAGE_BRACKET] in
  (exists markets,
     run = (Return markets, answered w (d1 || d2) requests)
     /\ Market.symbol <$> markets = RawSymbol.symbol <$> List.filter listed symbols
     /\ sublist (Market.symbol <$> markets) (RawSymbol.symbol <$> symbols)
     /\ Forall (fun m =>
          includes unwantedSymbols (Market.symbol m) = false
          /\ MinMax.min (Limits.leverage (Market.limits m)) = 1
          /\ exists raw bracket top,
               raw ∈ symbols /\ listed raw = true
               /\ Market.symbol m = RawSymbol.symbol raw
               /\ Market.active m = String.eqb (RawSymbol.status raw) "TRADING"
               /\ bracket ∈ data /\ RawBracket.symbol bracket = Market.symbol m
               /\ head (RawBracket.brackets bracket) = Some top
               /\ MinMax.max (Limits.leverage (Market.limits m)) = top) markets)
  \/ (run = (Return (Store.markets (World.store w)),
             failed w (d1 || d2) requests TypeError)
      /\ exists raw, raw ∈ symbols /\ listed raw = true /\ marketOf data raw = None).
Proof.
  intros run requests. subst run.
  unfold fetchMarkets, try_catch, bind, await. cbn [Reply.outcome Reply.disposedMeanwhile].
  rewrite filter_listed.
  destruct (mapM (marketOf data) (List.filter listed symbols)) as [markets|] eqn:E.
  - left. exists markets. apply mapM_Some_1 in E.
    assert (Hsym : Market.symbol <$> markets = RawSymbol.symbol <$> List.filter listed symbols).
    { clear -E. induction E as [|raw m l k Hm _ IH]; [done|]. cbn.
      apply marketOf_fields in Hm as (-> & _). by rewrite IH. }
    split; [|split; [done|split]].
    + unfold ret, answered, push. cbn. by rewrite orb_assoc, <- app_assoc.
    + rewrite Hsym. apply fmap_sublist, List_filter_sublist.
    + assert (Hall : Forall (fun raw => raw ∈ symbols /\ listed raw = true)
                            (List.filter listed symbols)).
      { apply Forall_forall. intros raw. apply List_filter_elem. }
      refine (Forall2_Forall_transfer _ _ _ _ _ _ E Hall).
      cbv beta. intros raw m [Hin Hl] Hm.
      apply marketOf_fields in Hm as (Hs & _ & Ha & Hmin & b & top & Hb & Hbs & Htop & Hmax).
      split; [|split; [done|]].
      * rewrite Hs. unfold listed in Hl.
        destruct (includes unwantedSymbols (RawSymbol.symbol raw)); [by cbn in Hl|done].
      * exists raw, b, top. rewrite Hs. done.
  - right. split.
    + unfold emitAndReturn, bind, emit, getStore, ret, throw, failed, push. cbn.
      by rewrite orb_assoc, <- app_assoc.
    + assert (Hex : Exists (fun raw => marketOf data raw = None) (List.filter listed symbols)).
      { clear -E. induction (List.filter listed symbols) as [|raw l IH]; [done|].
        cbn in E. destruct (marketOf data raw) eqn:Em; [|by left].
        right. apply IH. cbn in E. by destruct (mapM _ l). }
      apply Exists_exists in Hex as (raw & Hin & Hnone).
      apply List_filter_elem in Hin as [Hin Hl]. by exists raw.
Qed.

End FetchFacts.

Lemma gtb_gt (a b : Q) : Js.gtb a b = true <-> b < a.
Proof. apply ltb_lt. Qed.

(** A [reduce] that appends at most one element per turn is an [omap]. *)
Lemma foldl_push_omap {A B} (g : A -> option B) (f : list B -> A -> list B) :
  (forall acc x, f acc x = match g x with Some y => push acc y | None => acc end) ->
  forall l acc, foldl f acc l = (acc ++ omap g l)%list.
Proof.
  intros Hf l. induction l as [|x l IH]; intros acc; cbn.
  - by rewrite app_nil_r.
  - rewrite IH, Hf. destruct (g x); [|done]. unfold push. by rewrite <- app_assoc.
Qed.

Lemma omap_fmap_sublist {A B C} (g : A -> option B) (h : B -> C) (k : A -> C) (l : list A) :
  (forall x y, g x = Some y -> h y = k x) ->
  sublist (h <$> omap g l) (k <$> l).
Proof.
  intros Hg. induction l as [|x l IH]; cbn; [constructor|].
  destruct (g x) as [y|] eqn:E; cbn.
  - rewrite (Hg x y E). by constructor.
  - by constructor.
Qed.

Lemma existsb_eqb_elem {A} (key : A -> string) (s : string) (l : list A) :
  existsb (fun x => String.eqb (key x) s) l = true <-> s ∈ key <$> l.
Proof.
  rewrite existsb_exists, list_elem_of_fmap. split.
  - intros (x & Hin & Hx). apply String.eqb_eq in Hx. exists x.
    by rewrite list_elem_of_In.
  - intros (x & -> & Hin). exists x. rewrite <- list_elem_of_In. by rewrite String.eqb_refl.
Qed.

Lemma find_eqb_is_Some {A} (key : A -> string) (s : string) (l : list A) :
  s ∈ key <$> l -> is_Some (find (fun x => String.eqb (key x) s) l).
Proof.
  intros (x & -> & Hin)%list_elem_of_fmap. apply list_elem_of_In in Hin.
  destruct (find _ l) eqn:E; [done|].
  eapply find_none in E; [|exact Hin]. by rewrite String.eqb_refl in E.
Qed.

(** What [addAssets] does to a balance. *)
Lemma addAssets_spec (st : Store.t) (assets : list RawAsset.t)
    (balance : Balance.t) (w : World.t) :
  Balance.total balance = foldl Qplus 0 (List.map WalletAsset.usdValue (Balance.assets balance)) ->
  (exists balance' added,
     addAssets st balance assets w = (Return balance', w)
     /\ Balance.total balance'
        = foldl Qplus 0 (List.map WalletAsset.usdValue (Balance.assets balance'))
     /\ Balance.free balance' = Balance.free balance
     /\ Balance.used balance' = Balance.used balance
     /\ Balance.upnl balance' = Balance.upnl balance
     /\ Balance.assets balance' = (Balance.assets balance ++ added)%list
     /\ WalletAsset.symbol <$> added
        = RawAsset.asset <$> List.filter (fun a => Js.gtb (RawAsset.walletBalance a) 0) assets
     /\ Forall (fun a =>
          0 < WalletAsset.walletBalance a
          /\ (stableCoin (WalletAsset.symbol a) = true ->
              WalletAsset.usdValue a = WalletAsset.walletBalance a)
          /\ (stableCoin (WalletAsset.symbol a) = false ->
              exists ticker,
                find (fun t => String.eqb (Ticker.symbol t) (WalletAsset.symbol a +:+ "USDT"))
                     (Store.tickers st) = Some ticker
                /\ WalletAsset.usdValue a = Ticker.last ticker * WalletAsset.walletBalance a))
          added)
  \/ (exists raw,
        raw ∈ assets /\ 0 < RawAsset.walletBalance raw
        /\ stableCoin (RawAsset.asset raw) = false
        /\ find (fun t => String.eqb (Ticker.symbol t) (RawAsset.asset raw +:+ "USDT"))
                (Store.tickers st) = None
        /\ addAssets st balance assets w
           = (Throw (TickerNotFound (RawAsset.asset raw +:+ "USDT")), w)).
Proof.
  revert balance. induction assets as [|a rest IH]; intros balance Htotal.
  - left. exists balance, []. cbn. rewrite app_nil_r. by repeat split.
  - cbn [addAssets]. unfold bind at 1, addAsset. cbn [List.filter].
    destruct (Js.gtb (RawAsset.walletBalance a) 0) eqn:Epos.
    + apply gtb_gt in Epos. unfold bind at 1. fold (stableCoin (RawAsset.asset a)).
      set (grown usd := Balance.mk
             (foldl Qplus 0 (List.map WalletAsset.usdValue
                (push (Balance.assets balance)
                   (WalletAsset.mk (RawAsset.asset a) (RawAsset.walletBalance a) usd))))
             (Balance.free balance) (Balance.used balance) (Balance.upnl balance)
             (push (Balance.assets balance)
                (WalletAsset.mk (RawAsset.asset a) (RawAsset.walletBalance a) usd))).
      assert (Hstep : forall usd,
        (stableCoin (RawAsset.asset a) = true -> usd = RawAsset.walletBalance a) ->
        (stableCoin (RawAsset.asset a) = false ->
           exists ticker,
             find (fun t => String.eqb (Ticker.symbol t) (RawAsset.asset a +:+ "USDT"))
                  (Store.tickers st) = Some ticker
             /\ usd = Ticker.last ticker * RawAsset.walletBalance a) ->
        forall res, res = addAssets st (grown usd) rest w ->
        (exists balance' added,
           res = (Return balance', w)
           /\ Balance.total balance'
              = foldl Qplus 0 (List.map WalletAsset.usdValue (Balance.assets balance'))
           /\ Balance.free balance' = Balance.free balance
           /\ Balance.used balance' = Balance.used balance
           /\ Balance.upnl balance' = Balance.upnl balance
           /\ Balance.assets balance' = (Balance.assets balance ++ added)%list
           /\ WalletAsset.symbol <$> added
              = (RawAsset.asset a ::
                 (RawAsset.asset <$>
                    List.filter (fun a => Js.gtb (RawAsset.walletBalance a) 0) rest))
           /\ Forall (fun a =>
                0 < WalletAsset.walletBalance a
                /\ (stableCoin (WalletAsset.symbol a) = true ->
                    WalletAsset.usdValue a = WalletAsset.walletBalance a)
                /\ (stableCoin (WalletAsset.symbol a) = false ->
                    exists ticker,
                      find (fun t => String.eqb (Ticker.symbol t)
                                       (WalletAsset.symbol a +:+ "USDT"))
                           (Store.tickers st) = Some ticker
                      /\ WalletAsset.usdValue a
                         = Ticker.last ticker * WalletAsset.walletBalance a))
                added)
        \/ (exists raw,
              raw ∈ a :: rest /\ 0 < RawAsset.walletBalance raw
              /\ stableCoin (RawAsset.asset raw) = false
              /\ find (fun t => String.eqb (Ticker.symbol t) (RawAsset.asset raw +:+ "USDT"))
                      (Store.tickers st) = None
              /\ res = (Throw (TickerNotFound (RawAsset.asset raw +:+ "USDT")), w))).
      { intros usd Hstable Hother res ->.
        destruct (IH (grown usd) eq_refl)
          as [(b' & added & Hrun & Ht & Hf & Hu & Hp & Ha & Hs & Hall)
             |(raw & Hin & Hpos & Hns & Hnone & Hrun)].
        - left. exists b', (WalletAsset.mk (RawAsset.asset a) (RawAsset.walletBalance a) usd
                            :: added).
          split; [done|]. split; [done|]. split; [done|]. split; [done|]. split; [done|].
          split; [|split].
          + rewrite Ha. subst grown. cbn. unfold push. by rewrite <- app_assoc.
          + cbn. by rewrite Hs.
          + constructor; [|done]. cbn. done.
        - right. exists raw. split; [by right|done]. }
      destruct (stableCoin (RawAsset.asset a)) eqn:Es; cbn [negb].
      * unfold ret at 1. cbv beta iota. unfold ret at 1.
        apply (Hstep (RawAsset.walletBalance a)); [done|done|reflexivity].
      * destruct (find _ (Store.tickers st)) as [ticker|] eqn:Ef.
        -- unfold ret at 1. cbv beta iota. unfold ret at 1.
           apply (Hstep (Ticker.last ticker * RawAsset.walletBalance a));
             [done| |reflexivity].
           intros _. by exists ticker.
        -- right. exists a. split; [by left|]. done.
    + destruct (IH balance Htotal)
        as [(b' & added & Hrun & Hrest)|(raw & Hin & Hrest)].
      * left. by exists b', added.
      * right. exists raw. split; [by right|done].
Qed.

Lemma positionOf_side (raw : RawPosition.t) :
  let side := Position.side (positionOf raw) in
  (RawPosition.positionSide raw = "LONG" -> side = PositionSide.Long)
  /\ (RawPosition.positionSide raw = "SHORT" -> side = PositionSide.Short)
  /\ (RawPosition.positionSide raw <> "LONG" -> RawPosition.positionSide raw <> "SHORT" ->
      side = if Js.gtb (RawPosition.positionAmt raw) 0
             then PositionSide.Long else PositionSide.Short).
Proof.
  cbn. unfold POSITION_SIDE. split; [|split].
  - by intros ->.
  - by intros ->.
  - intros H1 H2. apply String.eqb_neq in H1, H2. by rewrite H1, H2.
Qed.

Section FeedFacts.
Context `{Ext : Externals}.

(** An answered account request: the fetch returns, the store is as it
    was. *)
Lemma fetchBalanceAndPositions_answered (w : World.t) (data : RawAccount.t) (d : bool) :
  exists result emitted,
    fetchBalanceAndPositions (Reply.mk (Resolved data) d) w
    = (Return result,
       World.mk (World.store w) (World.isDisposed w || d) (World.ids w) emitted
                (push (World.requests w) Request.get_ACCOUNT)).
Proof.
  unfold fetchBalanceAndPositions, try_catch, bind at 1, await.
  cbn [Reply.outcome Reply.disposedMeanwhile].
  unfold bind at 1, getStore. cbn [World.store]. unfold bind at 1.
  match goal with |- context [addAssets ?st ?b ?l ?w0] =>
    pose proof (addAssets_world st l b w0) as Hw;
    destruct (addAssets st b l w0) as [[bal|e] w1]
  end; cbn in Hw; subst w1.
  - by eexists _, _.
  - unfold emitAndReturn, bind, emit, getStore, ret. cbn. by eexists _, _.
Qed.

(** X9. When the three ticker requests are answered, [fetchTickers] returns,
    in the order of the book feed, one ticker per book entry whose symbol is
    in the stored catalog and in the daily and price feeds, and none for any
    other entry: each ticker takes identity from the catalog, bid and ask
    from the book, last from the daily feed, mark from the price feed, and
    has open interest 0.  Nothing is emitted and the store is not written. *)
Theorem fetchTickers_joins_the_feeds
    (w : World.t) (dailys : list RawDaily.t) (books : list RawBook.t)
    (prices : list RawPrice.t) (d1 d2 d3 : bool) :
  exists tickers,
    fetchTickers (Reply.mk (Resolved dailys) d1) (Reply.mk (Resolved books) d2)
                 (Reply.mk (Resolved prices) d3) w
    = (Return tickers,
       answered w (d1 || d2 || d3)
         [Request.get_TICKERS_24H; Request.get_TICKERS_BOOK; Request.get_TICKERS_PRICE])
    /\ sublist (Ticker.symbol <$> tickers) (RawBook.symbol <$> books)
    /\ Forall (fun t =>
         Ticker.openInterest t = 0
         /\ exists market book daily price,
              market ∈ Store.markets (World.store w) /\ book ∈ books
              /\ daily ∈ dailys /\ price ∈ prices
              /\ Market.symbol market = Ticker.symbol t
              /\ RawBook.symbol book = Ticker.symbol t
              /\ RawDaily.symbol daily = Ticker.symbol t
              /\ RawPrice.symbol price = Ticker.symbol t
              /\ Ticker.id t = Market.id market
              /\ Ticker.bid t = RawBook.bidPrice book
              /\ Ticker.ask t = RawBook.askPrice book
              /\ Ticker.last t = RawDaily.lastPrice daily
              /\ Ticker.mark t = RawPrice.markPrice price) tickers
    /\ (forall book, book ∈ books ->
          RawBook.symbol book ∈ Market.symbol <$> Store.markets (World.store w) ->
          RawBook.symbol book ∈ RawDaily.symbol <$> dailys ->
          RawBook.symbol book ∈ RawPrice.symbol <$> prices ->
          RawBook.symbol book ∈ Ticker.symbol <$> tickers).
Proof.
  set (g := fun book =>
         match find (fun m => String.eqb (Market.symbol m) (RawBook.symbol book))
                    (Store.markets (World.store w)),
               find (fun d => String.eqb (RawDaily.symbol d) (RawBook.symbol book)) dailys,
               find (fun p => String.eqb (RawPrice.symbol p) (RawBook.symbol book)) prices
         with
         | Some market, Some daily, Some price =>
             Some (Ticker.mk (Market.id market) (Market.symbol market)
                     (RawBook.bidPrice book) (RawBook.askPrice book)
                     (RawDaily.lastPrice daily)
                     (RawPrice.markPrice price) (RawPrice.indexPrice price)
                     (RawDaily.priceChangePercent daily)
                     (RawPrice.lastFundingRate price)
                     (RawDaily.volume daily) (RawDaily.quoteVolume daily) 0)
         | _, _, _ => None
         end).
  assert (Hg : forall book t, g book = Some t ->
    Ticker.openInterest t = 0
    /\ exists market daily price,
         market ∈ Store.markets (World.store w)
         /\ daily ∈ dailys /\ price ∈ prices
         /\ Market.symbol market = Ticker.symbol t
         /\ RawBook.symbol book = Ticker.symbol t
         /\ RawDaily.symbol daily = Ticker.symbol t
         /\ RawPrice.symbol price = Ticker.symbol t
         /\ Ticker.id t = Market.id market
         /\ Ticker.bid t = RawBook.bidPrice book
         /\ Ticker.ask t = RawBook.askPrice book
         /\ Ticker.last t = RawDaily.lastPrice daily
         /\ Ticker.mark t = RawPrice.markPrice price).
  { intros book t. unfold g.
    destruct (find _ (Store.markets _)) as [market|] eqn:Em; [|done].
    destruct (find _ dailys) as [daily|] eqn:Ed; [|done].
    destruct (find _ prices) as [price|] eqn:Ep; [|done].
    intros [= <-]. cbn. split; [done|].
    apply find_Some_elem in Em as [Hm Hms], Ed as [Hd Hds], Ep as [Hp Hps].
    apply String.eqb_eq in Hms, Hds, Hps.
    exists market, daily, price. by rewrite Hds, Hps, Hms. }
  exists (omap g books). split; [|split; [|split]].
  - unfold fetchTickers, try_catch, bind, await, getStore, ret, answered, push.
    cbn [Reply.outcome Reply.disposedMeanwhile World.store World.isDisposed World.ids
         World.emitted World.requests].
    rewrite (foldl_push_omap g).
    + cbn [app]. by rewrite !orb_assoc, <- !app_assoc.
    + intros acc book. unfold g.
      destruct (find _ (Store.markets _)); [|done].
      destruct (find _ dailys); [|done]. by destruct (find _ prices).
  - apply omap_fmap_sublist. intros book t Ht.
    apply Hg in Ht as (_ & m & d & p & _ & _ & _ & _ & Hb & _). done.
  - apply Forall_forall. intros t (book & Hin & Ht)%list_elem_of_omap.
    apply Hg in Ht as (Hoi & m & d & p & Hrest). split; [done|].
    exists m, book, d, p. tauto.
  - intros book Hin Hm Hd Hp.
    apply find_eqb_is_Some in Hm as [m Hm], Hd as [d Hd], Hp as [p Hp].
    apply list_elem_of_fmap.
    eexists. split; [|apply list_elem_of_omap; exists book; split; [exact Hin|]].
    2:{ unfold g. rewrite Hm, Hd, Hp. reflexivity. }
    cbn. apply find_Some_elem in Hm as [_ Hms]. by apply String.eqb_eq in Hms.
Qed.

(** X10. When the account request is answered, [fetchBalanceAndPositions]
    either returns, emitting nothing, a balance whose assets are the venue
    assets with a positive wallet balance, in order, valued at the wallet
    balance for USDC, USDT and FDUSD and at the stored last price of
    [asset + USDT] otherwise, whose total is the sum of those values, and the
    positions of the catalog symbols only, with non-negative contracts and
    notional and, outside LONG and SHORT, the side read off the sign of the
    amount; or, a counted asset having no stored ticker, it emits
    [Ticker ... not found] and returns the stored positions and balance. *)
Theorem fetchBalanceAndPositions_values_the_wallet
    (w : World.t) (data : RawAccount.t) (d : bool) :
  let run := fetchBalanceAndPositions (Reply.mk (Resolved data) d) w in
  let st := World.store w in
  (exists positions balance,
     run = (Return (positions, balance), answered w d [Request.get_ACCOUNT])
     /\ Balance.total balance
        = foldl Qplus 0 (List.map WalletAsset.usdValue (Balance.assets balance))
     /\ Balance.free balance = RawAccount.availableBalance data
     /\ Balance.used balance = RawAccount.totalInitialMargin data
     /\ Balance.upnl balance = RawAccount.totalUnrealizedProfit data
     /\ WalletAsset.symbol <$> Balance.assets balance
        = RawAsset.asset <$>
            List.filter (fun a => Js.gtb (RawAsset.walletBalance a) 0) (RawAccount.assets data)
     /\ Forall (fun a =>
          0 < WalletAsset.walletBalance a
          /\ (stableCoin (WalletAsset.symbol a) = true ->
              WalletAsset.usdValue a = WalletAsset.walletBalance a)
          /\ (stableCoin (WalletAsset.symbol a) = false ->
              exists ticker,
                find (fun t => String.eqb (Ticker.symbol t) (WalletAsset.symbol a +:+ "USDT"))
                     (Store.tickers st) = Some ticker
                /\ WalletAsset.usdValue a = Ticker.last ticker * WalletAsset.walletBalance a))
          (Balance.assets balance)
     /\ sublist (Position.symbol <$> positions)
                (RawPosition.symbol <$> RawAccount.positions data)
     /\ Forall (fun p =>
          Position.symbol p ∈ Market.symbol <$> Store.markets st
          /\ 0 <= Position.contracts p /\ 0 <= Position.notional p
          /\ exists raw,
               raw ∈ RawAccount.positions data /\ p = positionOf raw
               /\ Position.contracts p = Qabs (RawPosition.positionAmt raw)
               /\ (RawPosition.positionSide raw <> "LONG" ->
                   RawPosition.positionSide raw <> "SHORT" ->
                   (0 < RawPosition.positionAmt raw -> Position.side p = PositionSide.Long)
                   /\ (RawPosition.positionAmt raw <= 0 ->
                       Position.side p = PositionSide.Short))) positions
     /\ (forall raw, raw ∈ RawAccount.positions data ->
           RawPosition.symbol raw ∈ Market.symbol <$> Store.markets st ->
           positionOf raw ∈ positions))
  \/ (exists raw,
        raw ∈ RawAccount.assets data /\ 0 < RawAsset.walletBalance raw
        /\ stableCoin (RawAsset.asset raw) = false
        /\ find (fun t => String.eqb (Ticker.symbol t) (RawAsset.asset raw +:+ "USDT"))
                (Store.tickers st) = None
        /\ run = (Return (Store.positions st, Store.balance st),
                  failed w d [Request.get_ACCOUNT]
                         (TickerNotFound (RawAsset.asset raw +:+ "USDT")))).
Proof.
  intros run st.
  destruct (addAssets_spec st (RawAccount.assets data)
              (Balance.mk 0 (RawAccount.availableBalance data)
                 (RawAccount.totalInitialMargin data)
                 (RawAccount.totalUnrealizedProfit data) [])
              (World.mk st (World.isDisposed w || d) (World.ids w)
                 (World.emitted w) (push (World.requests w) Request.get_ACCOUNT))
              eq_refl)
    as [(b' & added & Hrun & Ht & Hf & Hu & Hp & Ha & Hs & Hall)
       |(raw & Hin & Hpos & Hns & Hnone & Hrun)];
    subst run; unfold fetchBalanceAndPositions, try_catch, bind, await, getStore;
    cbn [Reply.outcome Reply.disposedMeanwhile World.store]; fold st; rewrite Hrun.
  - left. eexists _, b'. split; [reflexivity|]. cbn in Ha. subst added.
    split; [done|]. split; [done|]. split; [done|]. split; [done|]. split; [done|].
    split; [done|]. split; [|split].
    + change (List.map positionOf ?l) with (positionOf <$> l).
      rewrite <- list_fmap_compose. apply fmap_sublist, List_filter_sublist.
    + apply Forall_forall. intros p Hp'.
      change (List.map positionOf ?l) with (positionOf <$> l) in Hp'.
      apply list_elem_of_fmap in Hp' as (raw & -> & Hraw).
      apply List_filter_elem in Hraw as [Hraw Hsup].
      apply existsb_eqb_elem in Hsup.
      split; [done|]. split; [apply Qabs_nonneg|]. split; [apply Qabs_nonneg|].
      exists raw. split; [done|]. split; [done|]. split; [done|].
      intros H1 H2. destruct (positionOf_side raw) as (_ & _ & Hside).
      rewrite (Hside H1 H2). split.
      * intros Hgt. apply gtb_gt in Hgt. by rewrite Hgt.
      * intros Hle. destruct (Js.gtb _ 0) eqn:E; [|done]. apply gtb_gt in E. lra.
    + intros raw Hin Hsym.
      change (List.map positionOf ?l) with (positionOf <$> l).
      apply list_elem_of_fmap. exists raw. split; [done|].
      apply List_filter_elem. split; [done|]. by apply existsb_eqb_elem.
  - right. exists raw. split; [done|]. split; [done|]. split; [done|]. split; [done|].
    unfold emitAndReturn, bind, emit, getStore, ret, failed, push. cbn.
    reflexivity.
Qed.

(** X11. When the open-orders request is answered, [fetchOrders] returns
    one open order per venue order, in order and under its client identifier.
    Its amount is the venue's original quantity and its filled quantity the
    executed one, both as the venue states them; its remaining quantity is
    what [subtract] of [utils/safe-math] makes of those two, whatever that
    function is; its price is the venue price, or the stop price when that
    price is zero. *)
Theorem fetchOrders_reads_each_venue_order
    (w : World.t) (data : list RawOrder.t) (d : bool) :
  exists orders,
    fetchOrders (Reply.mk (Resolved data) d) w
    = (Return orders, answered w d [Request.get_OPEN_ORDERS])
    /\ Order.id <$> orders = RawOrder.clientOrderId <$> data
    /\ Forall (fun o => Order.status o = OrderStatus.Open) orders
    /\ Forall2 (fun raw o =>
         Order.amount o = RawOrder.origQty raw
         /\ Order.filled o = RawOrder.executedQty raw
         /\ Order.remaining o
            = subtract (RawOrder.origQty raw) (RawOrder.executedQty raw)
         /\ (~ RawOrder.price raw == 0 -> Order.price o = RawOrder.price raw)
         /\ (RawOrder.price raw == 0 -> Order.price o = RawOrder.stopPrice raw))
       data orders.
Proof.
  exists (orderOf <$> data). split; [reflexivity|]. split; [|split].
  - rewrite <- list_fmap_compose. reflexivity.
  - apply Forall_fmap, Forall_forall. intros raw _. reflexivity.
  - apply Forall2_fmap_r, Forall2_same_length_lookup_2; [done|].
    intros i raw raw' H1 H2. rewrite H1 in H2. injection H2 as <-. cbn.
    split; [done|]. split; [done|]. split; [done|].
    unfold Js.truthy. destruct (Qeq_bool (RawOrder.price raw) 0) eqn:E; cbn.
    + apply Qeq_bool_iff in E. split; [done|done].
    + split; [done|]. intros H0. apply Qeq_bool_iff in H0. congruence.
Qed.

End FeedFacts.

(** ** Bootstrap and tick *)

Lemma bind_Return {A B} (m : M A) (k : A -> M B) (w w' : World.t) (a : A) :
  m w = (Return a, w') -> bind m k w = k a w'.
Proof. unfold bind. by intros ->. Qed.

Lemma bind_Throw {A B} (m : M A) (k : A -> M B) (w w' : World.t) (err : JsError.t) :
  m w = (Throw err, w') -> bind m k w = (Throw err, w').
Proof. unfold bind. by intros ->. Qed.

Lemma modifyStore_run (f : Store.t -> Store.t) (w : World.t) :
  modifyStore f w = (Return tt, withStore (f (World.store w)) w).
Proof. reflexivity. Qed.

Lemma getDisposed_run (w : World.t) : getDisposed w = (Return (World.isDisposed w), w).
Proof. reflexivity. Qed.

Section BootstrapFacts.
Context `{Ext : Externals}.

(** The fetchers never throw and never write the store; disposal only comes
    from the replies they consult. *)
Lemma fetchMarkets_total (r1 : Reply.t (list RawSymbol.t)) (r2 : Reply.t (list RawBracket.t))
    (w : World.t) :
  exists markets w',
    fetchMarkets r1 r2 w = (Return markets, w')
    /\ World.store w' = World.store w
    /\ (World.isDisposed w || Reply.disposedMeanwhile r1 = true -> World.isDisposed w' = true)
    /\ (World.isDisposed w = false -> Reply.disposedMeanwhile r1 = false ->
        Reply.disposedMeanwhile r2 = false -> World.isDisposed w' = false)
    /\ exists sent, World.requests w' = (World.requests w ++ Request.get_MARKETS :: sent)%list
                    /\ sent `sublist_of` [Request.get_LEVERAGE_BRACKET].
Proof.
  destruct r1 as [[symbols|e1] d1], r2 as [[data|e2] d2];
    unfold fetchMarkets, try_catch, bind, await, emitAndReturn, bind, emit, getStore, ret,
           throw, push;
    cbn [Reply.outcome Reply.disposedMeanwhile World.store World.isDisposed World.requests].
  1: destruct (mapM _ _).
  all: eexists _, _; (split; [reflexivity|]);
    cbn [World.store World.isDisposed World.requests];
    (split; [reflexivity|]);
    (split; [intros H; rewrite ?H; try (by rewrite ?orb_true_r)|]).
  all: try (split; [by intros -> -> ->|]).
  all: try (split; [by intros -> ->|]).
  all: rewrite <- ?app_assoc; eexists; (split; [reflexivity|]); cbn.
  all: by repeat constructor.
Qed.

Lemma fetchTickers_total (r1 : Reply.t (list RawDaily.t)) (r2 : Reply.t (list RawBook.t))
    (r3 : Reply.t (list RawPrice.t)) (w : World.t) :
  exists tickers w',
    fetchTickers r1 r2 r3 w = (Return tickers, w')
    /\ World.store w' = World.store w
    /\ (World.isDisposed w = false -> Reply.disposedMeanwhile r1 = false ->
        Reply.disposedMeanwhile r2 = false -> Reply.disposedMeanwhile r3 = false ->
        World.isDisposed w' = false).
Proof.
  destruct r1 as [[dailys|e1] d1], r2 as [[books|e2] d2], r3 as [[prices|e3] d3];
    unfold fetchTickers, try_catch, bind, await, emitAndReturn, bind, emit, getStore, ret,
           throw, push;
    cbn [Reply.outcome Reply.disposedMeanwhile World.store World.isDisposed World.requests].
  all: eexists _, _; (split; [reflexivity|]);
    cbn [World.store World.isDisposed World.requests];
    (split; [reflexivity|]).
  all: try (by intros -> -> -> ->).
  all: try (by intros -> -> ->).
  all: try (by intros -> ->).
Qed.

Lemma fetchBalanceAndPositions_total (r : Reply.t RawAccount.t) (w : World.t) :
  exists result w',
    fetchBalanceAndPositions r w = (Return result, w')
    /\ World.store w' = World.store w
    /\ World.isDisposed w' = World.isDisposed w || Reply.disposedMeanwhile r.
Proof.
  destruct r as [[data|err] d].
  - destruct (fetchBalanceAndPositions_answered w data d) as (result & emitted & Hrun).
    rewrite Hrun. by eexists _, _.
  - by eexists _, _.
Qed.

Lemma fetchOrders_total (r : Reply.t (list RawOrder.t)) (w : World.t) :
  exists orders w',
    fetchOrders r w = (Return orders, w')
    /\ World.store w' = World.store w
    /\ World.isDisposed w' = World.isDisposed w || Reply.disposedMeanwhile r.
Proof. destruct r as [[data|err] d]; by eexists _, _. Qed.

(** A live tick that is not disposed meanwhile writes what the fetch returned
    and marks balance and positions loaded. *)
Lemma tick_live (reply : Reply.t RawAccount.t) (w : World.t) :
  World.isDisposed w = false -> Reply.disposedMeanwhile reply = false ->
  exists positions balance w1,
    fetchBalanceAndPositions reply w = (Return (positions, balance), w1)
    /\ World.store w1 = World.store w /\ World.isDisposed w1 = false
    /\ tick reply w =
         (Return tt,
          withStore
            (StoreOps.update
               (Partial.mk None None (Some positions) (Some balance) None
                  (Some (Loaded.mk (Loaded.markets (Store.loaded (World.store w)))
                                   (Loaded.tickers (Store.loaded (World.store w)))
                                   true true
                                   (Loaded.orders (Store.loaded (World.store w)))))
                  None)
               (World.store w)) w1).
Proof.
  intros Hlive Hd.
  destruct (fetchBalanceAndPositions_total reply w) as ([ps b] & w1 & Hrun & Hst & Hdis).
  rewrite Hlive, Hd in Hdis. cbn in Hdis. exists ps, b, w1. split; [done|]. split; [done|]. split; [done|].
  unfold tick, bind at 1, getDisposed. rewrite Hlive. cbn [negb].
  unfold try_catch, bind at 1. rewrite Hrun.
  unfold bind at 1, getDisposed. rewrite Hdis.
  unfold modifyStore, bind, getStore, setStore, setLoaded, withStore.
  cbn [fst snd]. by rewrite Hst.
Qed.

(** X12. [tick] never throws.  On a disposed adapter it does nothing at
    all, not even a request; disposed while its request is in flight it
    leaves the store as it was; otherwise it writes positions and balance
    and marks both loaded, leaving markets, tickers, orders and the position
    mode untouched, whether or not the venue accepted the request. *)
Theorem tick_writes_only_while_live (reply : Reply.t RawAccount.t) (w : World.t) :
  (World.isDisposed w = true -> tick reply w = (Return tt, w))
  /\ exists w',
       tick reply w = (Return tt, w')
       /\ (World.isDisposed w || Reply.disposedMeanwhile reply = true ->
           World.store w' = World.store w)
       /\ (World.isDisposed w || Reply.disposedMeanwhile reply = false ->
           let st := World.store w in
           let st' := World.store w' in
           Loaded.balance (Store.loaded st') = true
           /\ Loaded.positions (Store.loaded st') = true
           /\ Loaded.markets (Store.loaded st') = Loaded.markets (Store.loaded st)
           /\ Loaded.tickers (Store.loaded st') = Loaded.tickers (Store.loaded st)
           /\ Loaded.orders (Store.loaded st') = Loaded.orders (Store.loaded st)
           /\ Store.markets st' = Store.markets st
           /\ Store.tickers st' = Store.tickers st
           /\ Store.orders st' = Store.orders st
           /\ Store.isHedged st' = Store.isHedged st
           /\ World.requests w' = (World.requests w ++ [Request.get_ACCOUNT])%list).
Proof.
  assert (Hdead : World.isDisposed w = true -> tick reply w = (Return tt, w)).
  { intros H. unfold tick, bind, getDisposed. by rewrite H. }
  split; [done|].
  destruct (World.isDisposed w) eqn:Hdis.
  { exists w. split; [by apply Hdead|]. split; [done|]. by cbn. }
  destruct (Reply.disposedMeanwhile reply) eqn:Hd.
  - destruct (fetchBalanceAndPositions_total reply w) as (res & w1 & Hrun & Hst & Hdis1).
    rewrite Hdis, Hd in Hdis1. cbn in Hdis1.
    exists w1. split; [|split; [done|by cbn]].
    unfold tick. rewrite (bind_Return _ _ _ _ _ (getDisposed_run w)), Hdis. cbn [negb].
    unfold try_catch. rewrite (bind_Return _ _ _ _ _ Hrun).
    rewrite (bind_Return _ _ _ _ _ (getDisposed_run w1)), Hdis1. reflexivity.
  - destruct (tick_live reply w Hdis Hd) as (ps & b & w1 & Hrun & Hst & Hdis1 & Htick).
    eexists. split; [exact Htick|]. split; [by cbn|]. intros _. cbn.
    repeat split.
    destruct reply as [[data|err] d].
    + destruct (fetchBalanceAndPositions_answered w data d) as (res & em & Hrun').
      rewrite Hrun' in Hrun. by injection Hrun as _ <-.
    + cbn in Hrun. by injection Hrun as _ _ <-.
Qed.

(** X13. A bootstrap that is not disposed on the way and whose position-mode
    request is answered always ends with markets, tickers, balance, positions
    and orders marked loaded and with the venue's position mode stored, also
    when the venue rejected every other request. *)
Theorem start_marks_everything_loaded (r : StartReplies.t) (isHedged : bool) (w : World.t) :
  World.isDisposed w = false ->
  undisturbed r = true ->
  Reply.outcome (StartReplies.positionMode r) = Resolved isHedged ->
  exists w',
    start r w = (Return tt, w')
    /\ Store.loaded (World.store w') = allLoaded
    /\ Store.isHedged (World.store w') = isHedged
    /\ World.isDisposed w' = false.
Proof.
  intros Hlive Hund Hmode. unfold undisturbed in Hund.
  apply negb_true_iff in Hund. repeat (apply orb_false_iff in Hund as [Hund ?]).
  unfold start.
  destruct (fetchMarkets_total (StartReplies.symbols r) (StartReplies.brackets r) w)
    as (ms & w1 & Hrun1 & Hst1 & _ & Hdis1 & _).
  specialize (Hdis1 Hlive ltac:(done) ltac:(done)).
  rewrite (bind_Return _ _ _ _ _ Hrun1), (bind_Return _ _ _ _ _ (getDisposed_run w1)), Hdis1.
  rewrite (bind_Return _ _ _ _ _ (modifyStore_run _ w1)).
  match goal with |- context [withStore ?st w1] => set (w2 := withStore st w1) end.
  destruct (fetchTickers_total (StartReplies.dailys r) (StartReplies.books r)
              (StartReplies.prices r) w2) as (ts & w3 & Hrun3 & Hst3 & Hdis3).
  specialize (Hdis3 Hdis1 ltac:(done) ltac:(done) ltac:(done)).
  rewrite (bind_Return _ _ _ _ _ Hrun3), (bind_Return _ _ _ _ _ (getDisposed_run w3)), Hdis3.
  rewrite (bind_Return _ _ _ _ _ (modifyStore_run _ w3)).
  match goal with |- context [withStore ?st w3] => set (w4 := withStore st w3) end.
  assert (Hmode_run : fetchPositionMode (StartReplies.positionMode r) w4
                      = (Return isHedged, requested w4 false Request.get_HEDGE_MODE)).
  { unfold fetchPositionMode, await, requested, push. by rewrite Hmode, H1. }
  rewrite (bind_Return _ _ _ _ _ Hmode_run).
  rewrite (bind_Return _ _ _ _ _ (modifyStore_run _ _)).
  match goal with |- context [withStore ?st ?w0] => set (w5 := withStore st w0) end.
  assert (Hdis5 : World.isDisposed w5 = false) by (cbn; by rewrite Hdis3).
  destruct (tick_live (StartReplies.account r) w5 Hdis5 ltac:(done))
    as (ps & b & w6 & _ & Hst6 & Hdis6 & Htick).
  rewrite (bind_Return _ _ _ _ _ Htick).
  match goal with |- context [withStore ?st w6] => set (w7 := withStore st w6) end.
  rewrite (bind_Return _ _ _ _ _ (getDisposed_run w7)).
  change (World.isDisposed w7) with (World.isDisposed w6). rewrite Hdis6.
  destruct (fetchOrders_total (StartReplies.orders r) w7) as (os & w8 & Hrun8 & Hst8 & Hdis8).
  change (World.isDisposed w7) with (World.isDisposed w6) in Hdis8.
  rewrite Hdis6 in Hdis8. replace (Reply.disposedMeanwhile (StartReplies.orders r))
    with false in Hdis8 by done. cbn in Hdis8.
  rewrite (bind_Return _ _ _ _ _ Hrun8), (bind_Return _ _ _ _ _ (getDisposed_run w8)), Hdis8.
  rewrite modifyStore_run. eexists. split; [reflexivity|].
  cbn. rewrite Hst8. cbn. rewrite Hst3. cbn. done.
Qed.

(** X14. A rejected position-mode request is not caught: the bootstrap
    throws the venue's error after the catalog and the tickers were stored and
    marked loaded, before any account or order request; positions, balance
    and orders stay as they were and are not marked loaded. *)
Theorem start_throws_on_rejected_position_mode
    (r : StartReplies.t) (err : JsError.t) (w : World.t) :
  World.isDisposed w = false ->
  undisturbed r = true ->
  Reply.outcome (StartReplies.positionMode r) = Rejected err ->
  exists w',
    start r w = (Throw err, w')
    /\ let st := World.store w in
       let st' := World.store w' in
       Loaded.markets (Store.loaded st') = true
       /\ Loaded.tickers (Store.loaded st') = true
       /\ Loaded.balance (Store.loaded st') = Loaded.balance (Store.loaded st)
       /\ Loaded.positions (Store.loaded st') = Loaded.positions (Store.loaded st)
       /\ Loaded.orders (Store.loaded st') = Loaded.orders (Store.loaded st)
       /\ Store.positions st' = Store.positions st
       /\ Store.balance st' = Store.balance st
       /\ Store.orders st' = Store.orders st
       /\ Store.isHedged st' = Store.isHedged st
       /\ last (World.requests w') = Some Request.get_HEDGE_MODE.
Proof.
  intros Hlive Hund Hmode. unfold undisturbed in Hund.
  apply negb_true_iff in Hund. repeat (apply orb_false_iff in Hund as [Hund ?]).
  unfold start.
  destruct (fetchMarkets_total (StartReplies.symbols r) (StartReplies.brackets r) w)
    as (ms & w1 & Hrun1 & Hst1 & _ & Hdis1 & _).
  specialize (Hdis1 Hlive ltac:(done) ltac:(done)).
  rewrite (bind_Return _ _ _ _ _ Hrun1), (bind_Return _ _ _ _ _ (getDisposed_run w1)), Hdis1.
  rewrite (bind_Return _ _ _ _ _ (modifyStore_run _ w1)).
  match goal with |- context [withStore ?st w1] => set (w2 := withStore st w1) end.
  destruct (fetchTickers_total (StartReplies.dailys r) (StartReplies.books r)
              (StartReplies.prices r) w2) as (ts & w3 & Hrun3 & Hst3 & Hdis3).
  specialize (Hdis3 Hdis1 ltac:(done) ltac:(done) ltac:(done)).
  rewrite (bind_Return _ _ _ _ _ Hrun3), (bind_Return _ _ _ _ _ (getDisposed_run w3)), Hdis3.
  rewrite (bind_Return _ _ _ _ _ (modifyStore_run _ w3)).
  match goal with |- context [withStore ?st w3] => set (w4 := withStore st w3) end.
  assert (Hmode_run : fetchPositionMode (StartReplies.positionMode r) w4
                      = (Throw err, requested w4 false Request.get_HEDGE_MODE)).
  { unfold fetchPositionMode, await, requested, push. by rewrite Hmode, H1. }
  rewrite (bind_Throw _ _ _ _ _ Hmode_run).
  eexists. split; [reflexivity|].
  cbn. rewrite Hst3. cbn. rewrite Hst1. repeat split. apply last_snoc.
Qed.

(** X15. [start] does not look at the disposal flag before asking for the
    catalog; on an adapter that is disposed already, or while the first
    request is in flight, it sends the catalog requests only, returns and
    writes nothing. *)
Theorem start_disposed_early_writes_nothing (r : StartReplies.t) (w : World.t) :
  World.isDisposed w || Reply.disposedMeanwhile (StartReplies.symbols r) = true ->
  exists w' sent,
    start r w = (Return tt, w')
    /\ World.store w' = World.store w
    /\ World.isDisposed w' = true
    /\ World.requests w' = (World.requests w ++ Request.get_MARKETS :: sent)%list
    /\ sent `sublist_of` [Request.get_LEVERAGE_BRACKET].
Proof.
  intros Hdis. unfold start.
  destruct (fetchMarkets_total (StartReplies.symbols r) (StartReplies.brackets r) w)
    as (ms & w1 & Hrun1 & Hst1 & Hdis1 & _ & sent & Hreq & Hsent).
  specialize (Hdis1 Hdis).
  rewrite (bind_Return _ _ _ _ _ Hrun1), (bind_Return _ _ _ _ _ (getDisposed_run w1)), Hdis1.
  by exists w1, sent.
Qed.

End BootstrapFacts.

(** ** The dispatch queue: what goes in comes out *)

Section QueueTraceFacts.
Import OrderQueueManager QueueTrace.
Local Open Scope Z_scope.

Lemma run_cons (i : input) (rest : list input) (s : t) :
  (run (i :: rest) s).1 = (run rest (step i s).1).1.
Proof. reflexivity. Qed.

Lemma pass_queue (now : Z) (s : t) :
  match (processOrdersPass now s).2 with
  | Dispatched batch _ => queue s = (batch ++ queue (processOrdersPass now s).1)%list
  | Saturated _ => queue (processOrdersPass now s).1 = queue s
  end.
Proof.
  unfold processOrdersPass. destruct (_ || _); cbn; [done|].
  by rewrite take_drop.
Qed.

Lemma step_queue (i : input) (s : t) :
  (queue s ++ enqueued [i])%list = (batchOf i s ++ queue (step i s).1)%list.
Proof.
  destruct i as [orders|now|res|err|];
    [cbn; by rewrite ?app_nil_r| |cbn; by rewrite ?app_nil_r..].
  unfold enqueued, batchOf, step, flat_map. rewrite app_nil_r.
  unfold resume. destruct (processing s); [|done].
  destruct (queue s) as [|p q] eqn:Eq; [done|]. cbn [fst snd].
  pose proof (pass_queue now s) as H. rewrite Eq in H.
  by destruct ((processOrdersPass now s).2).
Qed.

(** X16. The queue is first-in first-out and loses nothing: along any run,
    what was queued at the start followed by what the callers enqueued is
    what the task handed over, in that order, followed by what is still
    queued. *)
Theorem queue_hands_over_in_order (inputs : list input) (s : t) :
  (queue s ++ enqueued inputs)%list
  = (dispatched inputs s ++ queue (run inputs s).1)%list.
Proof.
  revert s. induction inputs as [|i rest IH]; intros s.
  - cbn. by rewrite app_nil_r.
  - rewrite run_cons. cbn [dispatched].
    replace (enqueued (i :: rest)) with (enqueued [i] ++ enqueued rest)%list
      by (cbn; by rewrite app_nil_r).
    rewrite app_assoc, step_queue, <- !app_assoc. f_equal. apply IH.
Qed.

Lemma step_results (i : input) (s : t) :
  (results s ++ succeeded [i])%list
  = ((match i with GetResults => (getResults s).1 | _ => [] end)
       ++ results (step i s).1)%list.
Proof.
  destruct i as [orders|now|res|err|];
    [cbn; by rewrite ?app_nil_r| |cbn; by rewrite ?app_nil_r..].
  unfold succeeded, step, flat_map. rewrite app_nil_r. cbn [app fst].
  unfold resume. destruct (processing s); [|done].
  destruct (queue s); [done|]. cbn [fst].
  unfold processOrdersPass. by destruct (_ || _).
Qed.

(** X19. No successful identifier is lost or reported twice: along any run,
    the results held at the start followed by the identifiers the resolved
    batches report without an error are what the [getResults] calls returned,
    in order, followed by the results still held. *)
Theorem results_are_reported_once (inputs : list input) (s : t) :
  (results s ++ succeeded inputs)%list
  = (drained inputs s ++ results (run inputs s).1)%list.
Proof.
  revert s. induction inputs as [|i rest IH]; intros s.
  - cbn. by rewrite app_nil_r.
  - rewrite run_cons. cbn [drained].
    replace (succeeded (i :: rest)) with (succeeded [i] ++ succeeded rest)%list
      by (cbn; by rewrite app_nil_r).
    rewrite app_assoc, step_results, <- !app_assoc. f_equal. apply IH.
Qed.

Lemma step_processing (i : input) (s : t) :
  queue s = [] \/ processing s = true ->
  queue (step i s).1 = [] \/ processing (step i s).1 = true.
Proof.
  intros H. destruct i as [orders|now|res|err|]; [by right| |done..].
  unfold step. cbn [fst]. unfold resume. destruct (processing s) eqn:Ep.
  - destruct (queue s) eqn:Eq; cbn [fst]; [by left|]. right.
    unfold processOrdersPass. by destruct (_ || _).
  - cbn [fst]. by rewrite Ep.
Qed.

(** X18. From a fresh manager on, whenever payloads are queued a processing
    task is running: no payload is ever left without a task to dispatch
    it. *)
Theorem queued_payloads_have_a_task (inputs : list input) :
  let s := (run inputs init).1 in
  queue s = [] \/ processing s = true.
Proof.
  cbv zeta.
  assert (H : forall s, queue s = [] \/ processing s = true ->
                        queue (run inputs s).1 = [] \/ processing (run inputs s).1 = true).
  { induction inputs as [|i rest IH]; intros s Hs; [done|].
    rewrite run_cons. by apply IH, step_processing. }
  apply H. by left.
Qed.

Lemma prune_keeps (window now : Z) (ts : list Z) (t : Z) :
  t ∈ prune window now ts -> now - t < window.
Proof.
  unfold prune. intros [_ H]%List_filter_elem. by apply Z.ltb_lt in H.
Qed.

Lemma sleepTime_positive (window cap now : Z) (old : list Z) (n : nat) :
  0 < window -> (0 < n)%nat ->
  exists q, sleepTime window cap now (prune window now old ++ replicate n now)%list = Some q
            /\ (0 < q)%Q.
Proof.
  intros Hw Hn. unfold sleepTime.
  set (ts := (prune window now old ++ replicate n now)%list).
  assert (Hhead : exists oldest, head ts = Some oldest /\ now - oldest < window).
  { subst ts. destruct (prune window now old) as [|t l] eqn:E.
    - destruct n; [lia|]. exists now. split; [done|lia].
    - exists t. split; [done|]. apply (prune_keeps window now old). rewrite E. by left. }
  destruct Hhead as (oldest & -> & Hold).
  destruct (0 <? (cap - Z.of_nat (length ts)) / 5) eqn:El.
  - apply Z.ltb_lt in El. eexists. split; [reflexivity|].
    apply Qlt_shift_div_l.
    + change 0%Q with (inject_Z 0). rewrite <- Zlt_Qlt. lia.
    + rewrite Qmult_0_l. change 0%Q with (inject_Z 0). rewrite <- Zlt_Qlt. lia.
  - exists 1000%Q. by split.
Qed.

(** X17. A pass that dispatches takes between one and five payloads off
    the head of the queue, leaves both windows within their caps and asks for
    a sleep that is a number, and positive. *)
Theorem dispatch_takes_one_to_five
    (now : Z) (s s' : t) (batch : list PayloadOrder) (sleep : option Q) :
  resume now s = (s', Some (Dispatched batch sleep)) ->
  (1 <= length batch <= 5)%nat
  /\ queue s = (batch ++ queue s')%list
  /\ (length (orderTimestamps10s s') <= 300)%nat
  /\ (length (orderTimestamps60s s') <= 1200)%nat
  /\ exists ms, sleep = Some ms /\ (0 < ms)%Q.
Proof.
  unfold resume. destruct (processing s); [|done].
  destruct (queue s) as [|p q] eqn:Eq; [done|].
  cbn [fst snd]. unfold processOrdersPass.
  set (w10 := prune 10000 now (orderTimestamps10s s)).
  set (w60 := prune 60000 now (orderTimestamps60s s)).
  destruct (_ || _) eqn:Esat; [done|].
  apply orb_false_iff in Esat as [H10 H60].
  apply Z.leb_gt in H10, H60.
  rewrite Eq. set (n := Z.to_nat (maxAllowedSize w10 w60 (p :: q))).
  assert (Hn : (1 <= n <= 5)%nat /\ (n <= length (p :: q))%nat
               /\ (length w10 + n <= 300)%nat /\ (length w60 + n <= 1200)%nat).
  { subst n. unfold maxAllowedSize. cbn [length]. lia. }
  destruct Hn as (Hn & Hq & Hc10 & Hc60).
  assert (Hlen : length (take n (p :: q)) = n) by (rewrite length_take; lia).
  intros [= <- <- <-]. cbn [queue orderTimestamps10s orderTimestamps60s].
  rewrite !length_app, !length_replicate, Hlen.
  split; [lia|]. split; [by rewrite take_drop|]. split; [lia|]. split; [lia|].
  destruct (sleepTime_positive 10000 300 now (orderTimestamps10s s) n) as (a & Ha & Hpa);
    [lia|lia|].
  destruct (sleepTime_positive 60000 1200 now (orderTimestamps60s s) n) as (b & Hb & Hpb);
    [lia|lia|].
  fold w10 in Ha. fold w60 in Hb. rewrite Ha, Hb. cbn [nan_min].
  eexists. split; [reflexivity|].
  unfold Js.Math_min. by destruct (Qle_bool a b).
Qed.

End QueueTraceFacts.

(** ** The private stream: account and order events *)

Lemma replaceFirst_fmap {A K} (key : A -> K) (test : A -> bool) (f : A -> A) (l : list A) :
  (forall x, key (f x) = key x) ->
  key <$> StoreOps.replaceFirst test f l = key <$> l.
Proof.
  intros Hf. induction l as [|x l IH]; [done|]. cbn.
  destruct (test x); cbn; [by rewrite Hf|by rewrite IH].
Qed.

Lemma replaceFirst_const_elem {A} (test : A -> bool) (y : A) (l : list A) :
  existsb test l = true -> y ∈ StoreOps.replaceFirst test (fun _ => y) l.
Proof.
  induction l as [|x l IH]; [done|]. cbn.
  destruct (test x); cbn; [by left|]. intros H. right. by apply IH.
Qed.

Lemma replaceFirst_other {A} (test : A -> bool) (f : A -> A) (l : list A) (x : A) :
  x ∈ l -> test x = false -> x ∈ StoreOps.replaceFirst test f l.
Proof.
  induction l as [|y l IH]; [done|]. cbn. intros [->|Hin]%elem_of_cons Hx.
  - rewrite Hx. by left.
  - destruct (test y); right; [done|by apply IH].
Qed.

Lemma sameShape_refl (st : Store.t) : sameShape st st.
Proof. by repeat split. Qed.

Lemma sameShape_trans (a b c : Store.t) : sameShape a b -> sameShape b c -> sameShape a c.
Proof.
  unfold sameShape.
  intros (?&?&?&?&?&?&?&?&?&?&?) (?&?&?&?&?&?&?&?&?&?&?).
  repeat split; congruence.
Qed.

Lemma sameShapeWorld_refl (w : World.t) : sameShapeWorld w w.
Proof. split; [apply sameShape_refl|done]. Qed.

Lemma sameShapeWorld_trans (a b c : World.t) :
  sameShapeWorld a b -> sameShapeWorld b c -> sameShapeWorld a c.
Proof.
  intros (Hab & ? & ? & ?) (Hbc & ? & ? & ?).
  split; [by eapply sameShape_trans|]. repeat split; congruence.
Qed.

(** A loop whose turns keep a preorder on worlds keeps it. *)
Lemma forEach_keeps {A B} (R : World.t -> World.t -> Prop) (f : A -> M B) :
  (forall w, R w w) -> (forall a b c, R a b -> R b c -> R a c) ->
  (forall x w, R w (f x w).2) ->
  forall xs w, R w (forEach f xs w).2.
Proof.
  intros Hrefl Htrans Hf xs. induction xs as [|x xs IH]; intros w; [apply Hrefl|].
  cbn [forEach]. unfold bind at 1. specialize (Hf x w).
  destruct (f x w) as [[y|err] w1]; cbn in Hf; [|done].
  unfold bind at 1. specialize (IH w1).
  destruct (forEach f xs w1) as [[ys|err] w2]; cbn in IH |- *; by eapply Htrans.
Qed.

Section AccountEventFacts.
Context `{Ext : Externals}.

Lemma handlePositionSlot_shape (p : PositionSlot.t) (w : World.t) :
  sameShapeWorld w (PrivateWs.handlePositionSlot p w).2.
Proof.
  unfold PrivateWs.handlePositionSlot, bind, getStore.
  destruct (find _ _) as [position|]; [|apply sameShapeWorld_refl].
  split; [|done]. cbn. repeat split.
  by apply replaceFirst_fmap.
Qed.

Lemma handleBalanceSlot_shape (b : BalanceSlot.t) (w : World.t) :
  sameShapeWorld w (PrivateWs.handleBalanceSlot b w).2.
Proof.
  split; [|done]. cbn. repeat split. by apply replaceFirst_fmap.
Qed.

Lemma handleAccountEvent_shape (event : Message.t) (w : World.t) :
  sameShapeWorld w (PrivateWs.handleAccountEvent event w).2.
Proof.
  unfold PrivateWs.handleAccountEvent. unfold bind at 1, emit.
  eapply sameShapeWorld_trans; [|].
  { instantiate (1 := emits w [Ev_positionUpdate]). split; [apply sameShape_refl|done]. }
  change (World.mk (World.store w) (World.isDisposed w) (World.ids w)
            (push (World.emitted w) Ev_positionUpdate) (World.requests w))
    with (emits w [Ev_positionUpdate]).
  generalize (emits w [Ev_positionUpdate]). clear w. intros w.
  destruct (Message.a event) as [a|]; [|apply sameShapeWorld_refl].
  unfold bind at 1.
  pose proof (forEach_keeps sameShapeWorld PrivateWs.handlePositionSlot
                sameShapeWorld_refl sameShapeWorld_trans handlePositionSlot_shape
                (AccountData.P a) w) as H1.
  destruct (forEach PrivateWs.handlePositionSlot (AccountData.P a) w) as [[u|err] w1];
    cbn in H1; [|done].
  unfold bind at 1.
  pose proof (forEach_keeps sameShapeWorld PrivateWs.handleBalanceSlot
                sameShapeWorld_refl sameShapeWorld_trans handleBalanceSlot_shape
                (AccountData.B a) w1) as H2.
  destruct (forEach PrivateWs.handleBalanceSlot (AccountData.B a) w1) as [[u2|err] w2];
    cbn in H2; [|by eapply sameShapeWorld_trans].
  eapply sameShapeWorld_trans; [exact H1|]. eapply sameShapeWorld_trans; [exact H2|].
  split; [|done]. cbn. by repeat split.
Qed.

(** The slot loops return. *)
Lemma forEach_returns {A} (f : A -> M unit) (xs : list A) (w : World.t) :
  (forall x w, (f x w).1 = Return tt) ->
  exists ys, (forEach f xs w).1 = Return ys.
Proof.
  intros Hf. revert w. induction xs as [|x xs IH]; intros w; [by eexists|].
  cbn [forEach]. unfold bind at 1. specialize (Hf x w).
  destruct (f x w) as [o w1]. cbn in Hf. subst o.
  unfold bind at 1. destruct (IH w1) as [ys Hys].
  destruct (forEach f xs w1) as [o w2]. cbn in Hys. subst o. by eexists.
Qed.

Lemma handlePositionSlot_returns (p : PositionSlot.t) (w : World.t) :
  (PrivateWs.handlePositionSlot p w).1 = Return tt.
Proof.
  unfold PrivateWs.handlePositionSlot, bind, getStore. by destruct (find _ _).
Qed.

Lemma forEach_emitted {A} (f : A -> M unit) (xs : list A) (w : World.t) :
  (forall x w, World.emitted (f x w).2 = World.emitted w) ->
  World.emitted (forEach f xs w).2 = World.emitted w.
Proof.
  intros Hf.
  apply (forEach_keeps (fun a b => World.emitted b = World.emitted a) f); try done.
  intros ? ? ? ? ?. congruence.
Qed.

Lemma handleAccountEvent_run (event : Message.t) (a : AccountData.t) (w : World.t) :
  Message.a event = Some a ->
  exists w',
    PrivateWs.handleAccountEvent event w = (Return tt, w')
    /\ World.emitted w' = (World.emitted w ++ [Ev_positionUpdate])%list
    /\ Balance.total (Store.balance (World.store w'))
       = foldl Qplus 0 (List.map WalletAsset.usdValue
                          (Balance.assets (Store.balance (World.store w')))).
Proof.
  intros Ha. unfold PrivateWs.handleAccountEvent. rewrite Ha.
  assert (He : emit Ev_positionUpdate w = (Return tt, emits w [Ev_positionUpdate]))
    by reflexivity.
  rewrite (bind_Return _ _ _ _ _ He).
  set (w0 := emits w [Ev_positionUpdate]).
  destruct (forEach_returns PrivateWs.handlePositionSlot (AccountData.P a) w0
              handlePositionSlot_returns) as [ys1 Hr1].
  pose proof (forEach_emitted PrivateWs.handlePositionSlot (AccountData.P a) w0) as H1.
  destruct (forEach PrivateWs.handlePositionSlot (AccountData.P a) w0) as [o1 w1] eqn:E1.
  cbn in Hr1. subst o1. cbn in H1.
  rewrite (bind_Return _ _ _ _ _ E1).
  destruct (forEach_returns PrivateWs.handleBalanceSlot (AccountData.B a) w1
              ltac:(done)) as [ys2 Hr2].
  pose proof (forEach_emitted PrivateWs.handleBalanceSlot (AccountData.B a) w1) as H2.
  destruct (forEach PrivateWs.handleBalanceSlot (AccountData.B a) w1) as [o2 w2] eqn:E2.
  cbn in Hr2. subst o2. cbn in H2.
  rewrite (bind_Return _ _ _ _ _ E2), modifyStore_run.
  eexists. split; [reflexivity|]. split; [|reflexivity].
  cbn. rewrite H2, H1; [done| |done].
  intros p w'. unfold PrivateWs.handlePositionSlot, bind, getStore.
  by destruct (find _ _).
Qed.

(** X20. Whatever an [ACCOUNT_UPDATE] batch carries, handling it changes of
    the store only entry price, contracts, notional and unrealised PnL of
    positions, the wallet balance of assets and the balance total: markets,
    tickers, orders, position mode, the symbol, side, leverage and
    liquidation price of every position, and the symbol and USD value of
    every asset stay.  No request is sent.  Each event with account data
    emits one [positionUpdate] and ends with the total equal to the sum of the
    (unchanged) USD values; an event without account data throws after the
    emission. *)
Theorem account_events_keep_the_shape (events : list Message.t) (w : World.t) :
  sameShapeWorld w (PrivateWs.handleAccountEvents events w).2
  /\ (Forall (fun event => is_Some (Message.a event)) events ->
      exists w',
        PrivateWs.handleAccountEvents events w = (Return tt, w')
        /\ World.emitted w'
           = (World.emitted w ++ replicate (length events) Ev_positionUpdate)%list
        /\ (events <> [] ->
            Balance.total (Store.balance (World.store w'))
            = foldl Qplus 0 (List.map WalletAsset.usdValue
                               (Balance.assets (Store.balance (World.store w))))))
  /\ (forall event, Message.a event = None ->
      PrivateWs.handleAccountEvents [event] w
      = (Throw TypeError, emits w [Ev_positionUpdate])).
Proof.
  split; [|split].
  - unfold PrivateWs.handleAccountEvents, bind.
    pose proof (forEach_keeps sameShapeWorld PrivateWs.handleAccountEvent
                  sameShapeWorld_refl sameShapeWorld_trans handleAccountEvent_shape
                  events w) as H.
    by destruct (forEach _ events w) as [[u|err] w1].
  - intros Hall.
    assert (Hgen : forall w0,
      exists us w',
        forEach PrivateWs.handleAccountEvent events w0 = (Return us, w')
        /\ World.emitted w'
           = (World.emitted w0 ++ replicate (length events) Ev_positionUpdate)%list
        /\ sameShapeWorld w0 w'
        /\ (events <> [] ->
            Balance.total (Store.balance (World.store w'))
            = foldl Qplus 0 (List.map WalletAsset.usdValue
                               (Balance.assets (Store.balance (World.store w')))))).
    { induction Hall as [|event rest Hev _ IH]; intros w0.
      - exists [], w0. cbn. rewrite app_nil_r. split; [done|]. split; [done|].
        split; [apply sameShapeWorld_refl|done].
      - destruct Hev as [a Ha].
        destruct (handleAccountEvent_run event a w0 Ha) as (w1 & Hr & Hem & Htot).
        pose proof (handleAccountEvent_shape event w0) as Hsh.
        cbn [forEach]. rewrite (bind_Return _ _ _ _ _ Hr). rewrite Hr in Hsh. cbn in Hsh.
        destruct (IH w1) as (us & w2 & Hrun & Hem2 & Hsh2 & Htot2).
        rewrite (bind_Return _ _ _ _ _ Hrun). exists (tt :: us), w2.
        split; [done|]. split; [|split].
        + rewrite Hem2, Hem. cbn. by rewrite <- app_assoc.
        + by eapply sameShapeWorld_trans.
        + intros _. destruct rest as [|e2 rest]; [|by apply Htot2].
          cbn in Hrun. by injection Hrun as _ <-. }
    destruct (Hgen w) as (us & w' & Hrun & Hem & Hsh & Htot).
    exists w'. unfold PrivateWs.handleAccountEvents, bind. rewrite Hrun.
    split; [done|]. split; [done|]. intros Hne. rewrite (Htot Hne).
    destruct Hsh as ((_&_&_&_&_&_&_&Hassets&_) & _).
    assert (Hval : forall l l' : list WalletAsset.t,
              assetKey <$> l' = assetKey <$> l ->
              List.map WalletAsset.usdValue l' = List.map WalletAsset.usdValue l).
    { intros l l' H. change (List.map WalletAsset.usdValue ?x) with (WalletAsset.usdValue <$> x).
      change WalletAsset.usdValue with (snd ∘ assetKey).
      by rewrite !list_fmap_compose, H. }
    by rewrite (Hval _ _ Hassets).
  - intros event Ha. unfold PrivateWs.handleAccountEvents, PrivateWs.handleAccountEvent.
    cbn [forEach]. unfold bind, emit. rewrite Ha. reflexivity.
Qed.

End AccountEventFacts.

Section OrderEventFacts.
Context `{Ext : Externals}.

(** X21. One [ORDER_TRADE_UPDATE] never throws, sends nothing and touches
    only the open orders and the emitter.  [NEW] upserts an open order under
    the client identifier, whose amount is [q] and whose filled quantity is
    [z] as the event states them, and whose remaining quantity is the whole
    amount when nothing is filled yet ([z] is zero), and keeps every order of
    another identifier; [FILLED], [CANCELED] and
    [EXPIRED] leave no order of that identifier and keep the others;
    [PARTIALLY_FILLED] leaves the stored orders as they are.  A fill is
    emitted exactly for [FILLED] and [PARTIALLY_FILLED], with notional
    [l * ap]; any other status changes nothing at all. *)
Theorem order_event_lifecycle (data : OrderData.t) (w : World.t) :
  let X := OrderData.X data in
  let c := OrderData.c data in
  exists w',
    PrivateWs.handleOrderEvents [orderEvent data] w = (Return tt, w')
    /\ (let st := World.store w in
        let st' := World.store w' in
        Store.markets st' = Store.markets st /\ Store.tickers st' = Store.tickers st
        /\ Store.positions st' = Store.positions st /\ Store.balance st' = Store.balance st
        /\ Store.isHedged st' = Store.isHedged st /\ Store.loaded st' = Store.loaded st
        /\ World.requests w' = World.requests w)
    /\ (X = "NEW" ->
        World.emitted w' = World.emitted w
        /\ (exists o, o ∈ Store.orders (World.store w')
                      /\ Order.id o = c /\ Order.status o = OrderStatus.Open
                      /\ Order.amount o = OrderData.q data
                      /\ Order.filled o = OrderData.z data
                      /\ (OrderData.z data == 0 ->
                          Order.remaining o == Order.amount o))
        /\ (forall o, o ∈ Store.orders (World.store w) -> Order.id o <> c ->
                      o ∈ Store.orders (World.store w')))
    /\ (X = "FILLED" \/ X = "CANCELED" \/ X = "EXPIRED" ->
        Forall (fun o => Order.id o <> c) (Store.orders (World.store w'))
        /\ (forall o, o ∈ Store.orders (World.store w) -> Order.id o <> c ->
                      o ∈ Store.orders (World.store w')))
    /\ (X = "PARTIALLY_FILLED" -> World.store w' = World.store w)
    /\ (X = "FILLED" \/ X = "PARTIALLY_FILLED" ->
        exists fill,
          World.emitted w' = (World.emitted w ++ [Ev_fill fill])%list
          /\ Fill.id fill = c
          /\ Fill.notional fill = OrderData.l data * OrderData.ap data)
    /\ (X <> "FILLED" -> X <> "PARTIALLY_FILLED" -> World.emitted w' = World.emitted w)
    /\ (X <> "NEW" -> X <> "FILLED" -> X <> "PARTIALLY_FILLED" -> X <> "CANCELED" ->
        X <> "EXPIRED" -> w' = w).
Proof.
  intros X c.
  assert (Hremoved : forall orders : list Order.t,
    Forall (fun o => Order.id o <> c)
           (List.filter (fun o => negb (String.eqb (Order.id o) c)) orders)
    /\ (forall o, o ∈ orders -> Order.id o <> c ->
          o ∈ List.filter (fun o => negb (String.eqb (Order.id o) c)) orders)).
  { intros orders. split.
    - apply Forall_forall. intros o [_ Ho]%List_filter_elem.
      apply negb_true_iff, String.eqb_neq in Ho. done.
    - intros o Hin Hne. apply List_filter_elem. split; [done|].
      by apply negb_true_iff, String.eqb_neq. }
  assert (Hadded : forall (orders : list Order.t) (o : Order.t),
    Order.id o = c ->
    let same (o' : Order.t) := String.eqb (Order.id o') (Order.id o) in
    let orders' := if existsb same orders
                   then StoreOps.replaceFirst same (fun _ => o) orders
                   else push orders o in
    o ∈ orders' /\ (forall o', o' ∈ orders -> Order.id o' <> c -> o' ∈ orders')).
  { intros orders o Ho same orders'. subst orders'.
    destruct (existsb same orders) eqn:E; split.
    - by apply replaceFirst_const_elem.
    - intros o' Hin Hne. apply replaceFirst_other; [done|].
      subst same. cbn. apply String.eqb_neq. by rewrite Ho.
    - unfold push. apply elem_of_app. right. by left.
    - intros o' Hin _. unfold push. apply elem_of_app. by left. }
  set (run := PrivateWs.handleOrderEvents [orderEvent data] w).
  assert (Hrun : run = PrivateWs.handleOrderEvents [orderEvent data] w) by reflexivity.
  clearbody run. unfold PrivateWs.handleOrderEvents in Hrun. cbn [forEach] in Hrun.
  exists run.2.
  split; [|split; [|split; [|split; [|split; [|split; [|split]]]]]].
  - rewrite Hrun. unfold PrivateWs.handleOrderEvent, orderEvent. cbn [Message.o]. fold X c.
    unfold bind, modifyStore, bind, getStore, setStore, emit, ret.
    destruct (String.eqb X "PARTIALLY_FILLED" || String.eqb X "FILLED");
      destruct (String.eqb X "NEW");
      destruct (String.eqb X "CANCELED" || String.eqb X "FILLED" || String.eqb X "EXPIRED");
      reflexivity.
  - rewrite Hrun. unfold PrivateWs.handleOrderEvent, orderEvent. cbn [Message.o]. fold X c.
    unfold bind, modifyStore, bind, getStore, setStore, emit, ret.
    destruct (String.eqb X "PARTIALLY_FILLED" || String.eqb X "FILLED");
      destruct (String.eqb X "NEW");
      destruct (String.eqb X "CANCELED" || String.eqb X "FILLED" || String.eqb X "EXPIRED");
      cbn; by repeat split.
  - intros HX. rewrite Hrun.
    unfold PrivateWs.handleOrderEvent, orderEvent. cbn [Message.o]. fold X c.
    rewrite HX. cbn -[StoreOps.replaceFirst existsb find].
    split; [done|].
    match goal with |- context [if existsb ?same ?orders then StoreOps.replaceFirst _ (fun _ => ?o) _ else _] =>
      destruct (Hadded orders o eq_refl) as [Hin Hkeep]
    end.
    split; [|exact Hkeep].
    eexists. split; [exact Hin|]. cbn. split; [done|]. split; [done|].
    split; [done|]. split; [done|]. intros Hz. rewrite Hz. ring.
  - intros HX. rewrite Hrun.
    unfold PrivateWs.handleOrderEvent, orderEvent. cbn [Message.o]. fold X c.
    destruct (Hremoved (Store.orders (World.store w))) as [Hnone Hkeep].
    destruct HX as [HX|[HX|HX]]; rewrite HX; cbn -[List.filter]; by split.
  - intros HX. rewrite Hrun.
    unfold PrivateWs.handleOrderEvent, orderEvent. cbn [Message.o]. fold X c.
    rewrite HX. reflexivity.
  - intros HX. rewrite Hrun.
    unfold PrivateWs.handleOrderEvent, orderEvent. cbn [Message.o]. fold X c.
    destruct HX as [HX|HX]; rewrite HX; eexists; (split; [reflexivity|]); by split.
  - intros H1 H2. apply String.eqb_neq in H1, H2. rewrite Hrun.
    unfold PrivateWs.handleOrderEvent, orderEvent. cbn [Message.o]. fold X c.
    rewrite H1, H2. cbn [orb].
    unfold bind, modifyStore, bind, getStore, setStore, emit, ret.
    destruct (String.eqb X "NEW");
      destruct (String.eqb X "CANCELED" || false || String.eqb X "EXPIRED");
      reflexivity.
  - intros H1 H2 H3 H4 H5. apply String.eqb_neq in H1, H2, H3, H4, H5. rewrite Hrun.
    unfold PrivateWs.handleOrderEvent, orderEvent. cbn [Message.o]. fold X c.
    rewrite H1, H2, H3, H4, H5. cbn. by destruct w.
Qed.

End OrderEventFacts.

(** ** The private stream: timers and ignored messages *)

Section StreamRunFacts.
Context `{Ext : Externals}.

Lemma ping_timers (now : Q) (s : PrivateWs.t) :
  PrivateWs.timers (PrivateWs.ping now s) = PrivateWs.timers s
  /\ PrivateWs.pingTimeoutId (PrivateWs.ping now s) = PrivateWs.pingTimeoutId s.
Proof. unfold PrivateWs.ping. by destruct (negb _). Qed.

Lemma onMessage_timers (now : Q) (json : option Message.t) (s : PrivateWs.t) (w : World.t) :
  timersOnRecord s -> timersOnRecord (PrivateWs.onMessage now json s w).2.1.
Proof.
  intros Hs. unfold PrivateWs.onMessage.
  destruct (negb (PrivateWs.isDisposed s)); [|done].
  match goal with |- context [match ?m w with _ => _ end] => destruct (m w) as [[u|err] w1] end;
    [|done].
  destruct (match json ≫= Message.id with Some id => Js.eqb id 42 | None => false end);
    [|done].
  destruct (PrivateWs.pingTimeoutId s) as [id|] eqn:Eid;
    unfold timersOnRecord; cbn; intros t Ht.
  - destruct (decide (PrivateWs.nextTimer s = t)) as [->|Hne]; [done|].
    rewrite lookup_insert_ne in Ht by done.
    destruct (decide (id = t)) as [->|Hid].
    + rewrite lookup_delete_eq in Ht. by destruct Ht.
    + rewrite lookup_delete_ne in Ht by done. apply Hs in Ht. congruence.
  - destruct (decide (PrivateWs.nextTimer s = t)) as [->|Hne]; [done|].
    rewrite lookup_insert_ne in Ht by done. apply Hs in Ht. congruence.
Qed.

Lemma streamStep_timers (i : streamInput) (sw : PrivateWs.t * World.t) :
  timersOnRecord sw.1 -> timersOnRecord (streamStep i sw).1.
Proof.
  intros Hs. destruct i as [now|now json|id now]; cbn.
  - unfold PrivateWs.onOpen. destruct (negb _); [|done].
    intros t. destruct (ping_timers now sw.1) as [-> ->]. apply Hs.
  - by apply onMessage_timers.
  - destruct (PrivateWs.timers sw.1 !! id) eqn:E; [|done]. cbn.
    intros t. destruct (ping_timers now (PrivateWs.clearTimeout id sw.1)) as [-> ->]. cbn.
    destruct (decide (id = t)) as [->|Hne].
    + rewrite lookup_delete_eq. by intros [? ?].
    + rewrite lookup_delete_ne by done. apply Hs.
Qed.

(** X22. The stream never has two ping timers pending: from a stream with
    no timer pending, whatever opens, messages and timer firings follow, every
    pending timer is the one recorded in [pingTimeoutId], so any two pending
    timers are the same one. *)
Theorem at_most_one_ping_timer
    (inputs : list streamInput) (s : PrivateWs.t) (w : World.t) :
  PrivateWs.timers s = ∅ ->
  let s' := (streamRun inputs (s, w)).1 in
  timersOnRecord s'
  /\ forall t1 t2, is_Some (PrivateWs.timers s' !! t1) ->
                   is_Some (PrivateWs.timers s' !! t2) -> t1 = t2.
Proof.
  intros Hempty s'.
  assert (Hrec : timersOnRecord s').
  { subst s'. unfold streamRun.
    assert (H0 : timersOnRecord (s, w).1).
    { intros t. cbn. rewrite Hempty, lookup_empty. by intros [? ?]. }
    revert H0. generalize (s, w). induction inputs as [|i rest IH]; intros sw Hsw; [done|].
    cbn [foldl]. by apply IH, streamStep_timers. }
  split; [done|]. intros t1 t2 H1 H2. apply Hrec in H1, H2. congruence.
Qed.

(** X23. What the stream ignores.  A disposed stream does nothing on a
    message, on open or on ping.  A live stream leaves itself and the store
    untouched on data that does not decode and on a message that is neither
    an account update, an order update nor the echo of the ping; and a
    message without its [a] or [o] data throws before the echo is looked at,
    so no timer is armed. *)
Theorem stream_ignores_what_it_does_not_know
    (now : Q) (s : PrivateWs.t) (w : World.t) :
  (PrivateWs.isDisposed s = true ->
     (forall json, PrivateWs.onMessage now json s w = (Return tt, (s, w)))
     /\ PrivateWs.onOpen now s = s /\ PrivateWs.ping now s = s)
  /\ PrivateWs.onMessage now None s w = (Return tt, (s, w))
  /\ (forall m,
        PrivateWs.eventIs (Message.e m) "ACCOUNT_UPDATE" = false ->
        PrivateWs.eventIs (Message.e m) "ORDER_TRADE_UPDATE" = false ->
        (forall id, Message.id m = Some id -> ~ id == 42) ->
        PrivateWs.onMessage now (Some m) s w = (Return tt, (s, w)))
  /\ (forall m,
        PrivateWs.isDisposed s = false ->
        (Message.e m = Some "ACCOUNT_UPDATE" /\ Message.a m = None
         \/ Message.e m = Some "ORDER_TRADE_UPDATE" /\ Message.o m = None) ->
        exists w', PrivateWs.onMessage now (Some m) s w = (Throw TypeError, (s, w'))
                   /\ World.store w' = World.store w).
Proof.
  split; [|split; [|split]].
  - intros Hd. unfold PrivateWs.onMessage, PrivateWs.onOpen, PrivateWs.ping.
    by rewrite Hd.
  - unfold PrivateWs.onMessage. by destruct (negb _).
  - intros m Ha Ho Hid. unfold PrivateWs.onMessage.
    destruct (negb _); [|done]. cbn [mbind option_bind]. rewrite Ha, Ho.
    unfold bind, ret.
    destruct (Message.id m) as [id|]; [|done].
    destruct (Js.eqb id 42) eqn:E; [|done].
    apply eqb_Qeq in E. by destruct (Hid id eq_refl).
  - intros m Hlive [[He Ha]|[He Ho]]; unfold PrivateWs.onMessage; rewrite Hlive;
      cbn [negb mbind option_bind]; rewrite He; cbn [PrivateWs.eventIs].
    + change (String.eqb "ACCOUNT_UPDATE" "ACCOUNT_UPDATE") with true. cbv iota.
      unfold PrivateWs.handleAccountEvents, PrivateWs.handleAccountEvent.
      cbn [forEach]. unfold bind, emit. rewrite Ha. by eexists.
    + change (String.eqb "ORDER_TRADE_UPDATE" "ACCOUNT_UPDATE") with false.
      change (String.eqb "ORDER_TRADE_UPDATE" "ORDER_TRADE_UPDATE") with true. cbv iota.
      unfold PrivateWs.handleOrderEvents, PrivateWs.handleOrderEvent.
      cbn [forEach]. unfold bind, ret. rewrite Ho. by eexists.
Qed.

End StreamRunFacts.

(** ** The further properties at concrete inputs *)

Section FurtherWitnesses.
Existing Instance SpecModel.externals.

Lemma formatCreateOrders_one (o : PlaceOrderOpts.t) (w w' : World.t) out :
  formatCreateOrder o w = (Return out, w') ->
  formatCreateOrders [o] w = (Return (out ++ [])%list, w').
Proof. intros H. cbn [formatCreateOrders]. unfold bind. by rewrite H. Qed.

(** X1 at the same order placed twice. *)
Lemma client_ids_witness :
  exists out1 out2 w1 w2,
    formatCreateOrders [Examples.buyLimitWithStop] (Examples.world true) = (Return out1, w1)
    /\ formatCreateOrders [Examples.buyLimitWithStop] w1 = (Return out2, w2)
    /\ NoDup (clientIds (out1 ++ out2))
    /\ World.ids w2 = 4%nat.
Proof.
  pose proof (formatCreateOrders_one _ _ _ _
                (formatCreateOrder_simple Examples.buyLimitWithStop (Examples.world true)
                   Examples.market eq_refl eq_refl)) as H1.
  pose proof (formatCreateOrders_one _ _ _ _
                (formatCreateOrder_simple Examples.buyLimitWithStop
                   (withIds (Examples.world true) 2) Examples.market eq_refl eq_refl)) as H2.
  assert (Hinj : Inj (=) (=) uuid) by (intros a b; apply uuid_inj).
  destruct (client_ids_never_collide _ _ _ _ _ _ _ Hinj H1 H2) as (Hnd & _ & Hids).
  eexists _, _, _, _. split; [exact H1|]. split; [exact H2|]. split; [exact Hnd|].
  exact Hids.
Defined.

(** X2 at a batch whose second intent names an unlisted symbol. *)
Lemma unknown_market_witness :
  exists err w',
    formatCreateOrders [Examples.buyLimitWithStop; Scenarios.unlisted] (Examples.world true)
    = (Throw err, w')
    /\ World.store w' = Examples.store true
    /\ World.emitted w' = [].
Proof.
  exact (unknown_market_fails_the_batch
           [Examples.buyLimitWithStop; Scenarios.unlisted] Scenarios.unlisted
           (Examples.world true)
           ltac:(apply elem_of_cons; right; apply elem_of_cons; by left) eq_refl).
Defined.

(** X4 at the Buy Limit with a stop-loss. *)
Lemma price_fields_witness :
  exists out w',
    formatCreateOrder Examples.buyLimitWithStop (Examples.world true) = (Return out, w')
    /\ forall p, p ∈ out ->
         is_Some (p !! "stopPrice") -> p !! "closePosition" = Some (str "true").
Proof.
  destruct (price_fields_follow_the_order_type (Examples.world true)
              Examples.buyLimitWithStop Examples.market ltac:(discriminate) eq_refl)
    as (out & w' & Hrun & Hall).
  exists out, w'. split; [exact Hrun|].
  intros p Hp. exact (proj1 (proj2 (Hall p Hp))).
Defined.

(** X5 at the same order on a one-way account. *)
Lemma one_way_witness :
  exists out w',
    formatCreateOrder Examples.buyLimitWithStop (Examples.world false) = (Return out, w')
    /\ forall p, p ∈ out -> p !! "positionSide" = Some (str "BOTH").
Proof.
  eexists _, _. split.
  - apply (formatCreateOrder_simple Examples.buyLimitWithStop (Examples.world false)
             Examples.market eq_refl eq_refl).
  - intros p Hp.
    exact (proj1 (one_way_payloads (Examples.world false) Examples.buyLimitWithStop _ _
                    eq_refl
                    (formatCreateOrder_simple Examples.buyLimitWithStop
                       (Examples.world false) Examples.market eq_refl eq_refl) p Hp)).
Defined.



(** X13 at a bootstrap in which only the position mode is answered. *)
Lemma start_loaded_witness :
  exists w',
    start (Scenarios.replies (Resolved true)) (Examples.world false) = (Return tt, w')
    /\ Store.loaded (World.store w') = allLoaded
    /\ Store.isHedged (World.store w') = true.
Proof.
  destruct (start_marks_everything_loaded (Scenarios.replies (Resolved true)) true
              (Examples.world false) eq_refl eq_refl eq_refl)
    as (w' & Hrun & Hl & Hh & _).
  exists w'. split; [exact Hrun|]. split; [exact Hl|exact Hh].
Defined.

(** X14 at a bootstrap in which nothing is answered. *)
Lemma start_throws_witness :
  exists w',
    start (Scenarios.replies (Rejected Examples.networkError)) (Examples.world false)
    = (Throw Examples.networkError, w')
    /\ last (World.requests w') = Some Request.get_HEDGE_MODE.
Proof.
  destruct (start_throws_on_rejected_position_mode
              (Scenarios.replies (Rejected Examples.networkError)) Examples.networkError
              (Examples.world false) eq_refl eq_refl eq_refl)
    as (w' & Hrun & Hrest).
  exists w'. split; [exact Hrun|]. apply Hrest.
Defined.

(** X15 at an adapter disposed before the bootstrap. *)
Lemma start_disposed_witness :
  exists w' sent,
    start (Scenarios.replies (Resolved true)) Scenarios.disposedWorld = (Return tt, w')
    /\ World.store w' = Examples.store true
    /\ World.requests w' = Request.get_MARKETS :: sent.
Proof.
  destruct (start_disposed_early_writes_nothing (Scenarios.replies (Resolved true))
              Scenarios.disposedWorld eq_refl)
    as (w' & sent & Hrun & Hst & _ & Hreq & _).
  exists w', sent. split; [exact Hrun|]. split; [exact Hst|exact Hreq].
Defined.

End FurtherWitnesses.

Section QueueWitness.
Import OrderQueueManager.

(** X17 at seven payloads on a fresh queue. *)
Lemma dispatch_witness :
  exists s' batch sleep,
    resume 0 Scenarios.seven = (s', Some (Dispatched batch sleep))
    /\ (1 <= length batch <= 5)%nat.
Proof.
  eexists _, _, _. split; [reflexivity|].
  exact (proj1 (dispatch_takes_one_to_five 0 Scenarios.seven _ _ _ eq_refl)).
Defined.

End QueueWitness.

Section StreamRunWitness.
Existing Instance SpecModel.externals.

(** X22 at a ping answered twice with the timer firing in between. *)
Lemma one_ping_timer_witness :
  PrivateWs.timers Scenarios.freshStream = ∅
  /\ timersOnRecord (streamRun Scenarios.pingPong
                       (Scenarios.freshStream, Examples.world true)).1.
Proof.
  split; [reflexivity|].
  exact (proj1 (at_most_one_ping_timer Scenarios.pingPong Scenarios.freshStream
                  (Examples.world true) eq_refl)).
Defined.

End StreamRunWitness.

(** ** Placing orders *)

Lemma chunkFuel_nil {A} (fuel size : nat) : chunkFuel fuel size (@nil A) = [].
Proof. by destruct fuel. Qed.

(** [chunk] cuts the list into its consecutive groups: nothing is lost, no
    group is empty or longer than [size], and only the last may be short. *)
Lemma chunkFuel_spec {A} (size fuel : nat) (l : list A) :
  (0 < size)%nat -> (length l <= fuel)%nat ->
  concat (chunkFuel fuel size l) = l
  /\ Forall (fun lot => (1 <= length lot <= size)%nat) (chunkFuel fuel size l)
  /\ (length l <= length (chunkFuel fuel size l) * size < length l + size)%nat.
Proof.
  intros Hsize. revert l. induction fuel as [|fuel IH]; intros l Hlen.
  - destruct l; [|cbn in Hlen; lia]. cbn. split; [done|]. split; [constructor|lia].
  - destruct l as [|x l]; [cbn; split; [done|]; split; [constructor|lia]|].
    cbn [chunkFuel].
    assert (Hdrop : (length (drop size (x :: l)) <= fuel)%nat).
    { rewrite length_drop. cbn [length] in *. lia. }
    destruct (IH _ Hdrop) as (Hcat & Hall & Hcount).
    split; [|split].
    + cbn [concat]. rewrite Hcat. apply take_drop.
    + constructor; [|done]. rewrite length_take. cbn [length]. lia.
    + rewrite length_drop in Hcount. cbn [length] in *.
      destruct (decide (S (length l) <= size)%nat) as [Hle|Hgt].
      * replace (drop size (x :: l)) with (@nil A) in *.
        2:{ symmetry. apply drop_ge. cbn. lia. }
        rewrite chunkFuel_nil. cbn. lia.
      * lia.
Qed.

Lemma chunk_spec {A} (size : nat) (l : list A) :
  (0 < size)%nat ->
  concat (chunk l size) = l
  /\ Forall (fun lot => (1 <= length lot <= size)%nat) (chunk l size)
  /\ (length l <= length (chunk l size) * size < length l + size)%nat.
Proof.
  intros Hsize. unfold chunk. destruct size; [lia|]. by apply chunkFuel_spec.
Qed.

Lemma chunk_small {A} (size : nat) (l : list A) :
  (1 <= length l <= size)%nat -> chunk l size = [l].
Proof.
  intros Hl. unfold chunk. destruct size as [|n]; [lia|].
  destruct l as [|x l]; [cbn in Hl; lia|]. cbn [length chunkFuel].
  cbn [length] in Hl.
  rewrite take_ge, drop_ge by (cbn [length]; lia). by rewrite chunkFuel_nil.
Qed.

Lemma bindT_Return {A B} (m : T A) (k : A -> T B) (d d' : Desk.t) (a : A) :
  m d = (Return a, d') -> bindT m k d = k a d'.
Proof. unfold bindT. by intros ->. Qed.

Lemma bindT_Throw {A B} (m : T A) (k : A -> T B) (d d' : Desk.t) (err : JsError.t) :
  m d = (Throw err, d') -> bindT m k d = (Throw err, d').
Proof. unfold bindT. by intros ->. Qed.

Section PlacingFacts.
Context `{Ext : Externals}.

Lemma recordBatchItems_run (orderIds : list (option jsval)) (data : list BatchItem.t)
    (w : World.t) :
  recordBatchItems orderIds data w
  = (Return (orderIds
             ++ ((fun o => str <$> BatchItem.clientOrderId o)
                   <$> List.filter (fun o => negb (hasCode o)) data))%list,
     emits w ((fun o => Ev_error (BatchItem.msg o)) <$> List.filter hasCode data)).
Proof.
  revert orderIds w. induction data as [|o rest IH]; intros orderIds w.
  - cbn. rewrite app_nil_r. unfold ret, emits. destruct w. cbn. by rewrite app_nil_r.
  - cbn [recordBatchItems List.filter]. destruct (hasCode o); cbn [negb].
    + unfold bind, emit. rewrite IH. cbn. unfold emits, push. cbn.
      by rewrite <- app_assoc.
    + rewrite IH. unfold push. cbn. by rewrite <- app_assoc.
Qed.

(** One lot: one request, which carries the lot. *)
Lemma placeLot_sends (venue : Venue) (orderIds : list (option jsval))
    (lot : list PayloadOrder) (d : Desk.t) :
  (1 <= length lot)%nat ->
  exists out d' r,
    placeLot venue orderIds lot d = (out, d')
    /\ Desk.sent d' = (Desk.sent d ++ [r])%list
    /\ payloadsOf r = lot
    /\ World.store (Desk.world d') = World.store (Desk.world d)
    /\ World.requests (Desk.world d') = World.requests (Desk.world d).
Proof.
  intros Hlot. unfold placeLot.
  destruct lot as [|p [|q lot]]; [cbn in Hlot; lia| |].
  - unfold bindT, try_catchT, send, emitError, liftT, emit, retT, bindT. cbn.
    destruct (venue (length (Desk.sent d))); eexists _, _, _; by repeat split.
  - unfold bindT at 1, retT at 1. cbn [length Nat.ltb Nat.leb].
    unfold bindT, send, liftT, retT.
    destruct (venue (length (Desk.sent d))) as [[data|]|err]; cbn.
    + rewrite recordBatchItems_run. eexists _, _, _. by repeat split.
    + eexists _, _, _. by repeat split.
    + eexists _, _, _. by repeat split.
Qed.

Lemma placeLots_sends (venue : Venue) (lots : list (list PayloadOrder))
    (orderIds : list (option jsval)) (d : Desk.t) :
  Forall (fun lot => (1 <= length lot)%nat) lots ->
  exists out d' new k,
    placeLots venue orderIds lots d = (out, d')
    /\ Desk.sent d' = (Desk.sent d ++ new)%list
    /\ payloadsOf <$> new = take k lots
    /\ World.store (Desk.world d') = World.store (Desk.world d)
    /\ World.requests (Desk.world d') = World.requests (Desk.world d)
    /\ (forall ids, out = Return ids -> k = length lots).
Proof.
  intros Hlots. revert orderIds d.
  induction Hlots as [|lot lots Hlot _ IH]; intros orderIds d.
  - exists (Return orderIds), d, [], 0%nat. cbn. rewrite app_nil_r. by repeat split.
  - cbn [placeLots].
    destruct (placeLot_sends venue orderIds lot d Hlot)
      as ([ids1|err] & d1 & r & Hrun & Hsent & Hr & Hst & Hreq).
    + rewrite (bindT_Return _ _ _ _ _ Hrun).
      destruct (IH ids1 d1) as (out & d' & new & k & Hrun2 & Hsent2 & Hnew & Hst2 & Hreq2 & Hk).
      exists out, d', (r :: new), (S k). split; [done|].
      split; [by rewrite Hsent2, Hsent, <- app_assoc|].
      split; [cbn; by rewrite Hr, Hnew|].
      split; [congruence|]. split; [congruence|].
      intros ids Hout. cbn. f_equal. by eapply Hk.
    + rewrite (bindT_Throw _ _ _ _ _ Hrun).
      exists (Throw err), d1, [r], 1%nat. split; [done|]. split; [done|].
      split; [cbn; by rewrite Hr, take_0|]. split; [done|]. split; [done|]. done.
Qed.

(** X24. [placeOrders] formats first and sends nothing when the formatter
    throws.  Otherwise it hands every formatted payload to the venue at most
    once and in order, in requests of one to five payloads; the store is not
    written.  When it returns, every payload was sent exactly once, in
    [ceil(n / 5)] requests. *)
Theorem placeOrders_sends_each_payload_once
    (venue : Venue) (orders : list PlaceOrderOpts.t) (d : Desk.t) :
  (forall err w',
     formatCreateOrders orders (Desk.world d) = (Throw err, w') ->
     placeOrders venue orders d = (Throw err, Desk.mk w' (Desk.sent d)))
  /\ (forall payloads w',
       formatCreateOrders orders (Desk.world d) = (Return payloads, w') ->
       exists out d' new,
         placeOrders venue orders d = (out, d')
         /\ Desk.sent d' = (Desk.sent d ++ new)%list
         /\ flat_map payloadsOf new `prefix_of` payloads
         /\ Forall (fun r => (1 <= length (payloadsOf r) <= 5)%nat) new
         /\ World.store (Desk.world d') = World.store (Desk.world d)
         /\ (forall ids, out = Return ids ->
               flat_map payloadsOf new = payloads
               /\ (length payloads <= length new * 5 < length payloads + 5)%nat)).
Proof.
  split.
  - intros err w' Hf. unfold placeOrders, bindT, liftT. by rewrite Hf.
  - intros payloads w' Hf.
    destruct (chunk_spec 5 payloads ltac:(lia)) as (Hcat & Hall & Hcount).
    assert (Hne : Forall (fun lot : list PayloadOrder => (1 <= length lot)%nat)
                         (chunk payloads 5)).
    { eapply Forall_impl; [exact Hall|]. cbn. lia. }
    destruct (placeLots_sends venue (chunk payloads 5) [] (Desk.mk w' (Desk.sent d)) Hne)
      as (out & d' & new & k & Hrun & Hsent & Hnew & Hst & _ & Hk).
    exists out, d', new.
    assert (Hflat : flat_map payloadsOf new = concat (take k (chunk payloads 5))).
    { rewrite <- Hnew. clear. induction new as [|r new IH]; [done|]. cbn. by rewrite IH. }
    split; [|split; [done|split; [|split; [|split]]]].
    + unfold placeOrders, bindT at 1, liftT. rewrite Hf. exact Hrun.
    + rewrite Hflat. rewrite <- Hcat at 2.
      rewrite <- (take_drop k (chunk payloads 5)) at 2. rewrite concat_app.
      by apply prefix_app_r.
    + apply Forall_forall. intros r Hr.
      assert (Hin : payloadsOf r ∈ take k (chunk payloads 5)).
      { rewrite <- Hnew. apply list_elem_of_fmap. by exists r. }
      pose proof (proj1 (Forall_forall _ _) Hall (payloadsOf r)) as Hlot.
      apply Hlot. eapply elem_of_sublist; [exact Hin|]. apply sublist_take.
    + rewrite Hst. cbn.
      destruct (formatCreateOrders_ids _ _ _ _ Hf) as [_ ->]. done.
    + intros ids Hout. specialize (Hk ids Hout). subst k.
      rewrite take_ge in Hnew, Hflat by done.
      split; [by rewrite Hflat|].
      assert (Hlen : length new = length (chunk payloads 5)).
      { rewrite <- Hnew. by rewrite length_fmap. }
      by rewrite Hlen.
Qed.

(** X25. A rejected request is handled differently by lot size.  A single
    payload whose request is rejected is reported on [error] and skipped: the
    call returns no identifier.  Two to five payloads go in one batch
    request, and its rejection is not caught: the call throws the venue's
    error and emits nothing.  An answered batch returns the venue's client
    identifiers of the entries without a code and emits the message of each
    entry with one, in order. *)
Theorem placeOrderBatch_rejections (payloads : list PayloadOrder) (d : Desk.t) :
  (forall payload err,
     payloads = [payload] ->
     placeOrderBatch (refusing err) payloads d
     = (Return [],
        Desk.mk (emits (Desk.world d) [Ev_error (JsError.describe err)])
                (Desk.sent d ++ [OrderRequest.post_ORDER payload])))
  /\ ((2 <= length payloads <= 5)%nat ->
      (forall err,
         placeOrderBatch (refusing err) payloads d
         = (Throw err,
            Desk.mk (Desk.world d) (Desk.sent d ++ [OrderRequest.post_BATCH_ORDERS payloads])))
      /\ (forall data,
            placeOrderBatch (accepting (Some data)) payloads d
            = (Return ((fun o => str <$> BatchItem.clientOrderId o)
                         <$> List.filter (fun o => negb (hasCode o)) data),
               Desk.mk (emits (Desk.world d)
                          ((fun o => Ev_error (BatchItem.msg o)) <$> List.filter hasCode data))
                       (Desk.sent d ++ [OrderRequest.post_BATCH_ORDERS payloads]))))
  /\ (forall payload data,
        payloads = [payload] ->
        placeOrderBatch (accepting data) payloads d
        = (Return [payload !! "newClientOrderId"],
           Desk.mk (Desk.world d) (Desk.sent d ++ [OrderRequest.post_ORDER payload]))).
Proof.
  split; [|split].
  - intros payload err ->. reflexivity.
  - intros Hlen. unfold placeOrderBatch. rewrite chunk_small by lia.
    destruct payloads as [|p [|q rest]]; [cbn in Hlen; lia..|].
    split.
    + intros err. reflexivity.
    + intros data. cbn [placeLots]. unfold placeLot.
      unfold bindT at 1 2, retT at 1. cbn [length Nat.ltb Nat.leb].
      unfold bindT, send, accepting, liftT, retT. cbn.
      by rewrite recordBatchItems_run.
  - intros payload data ->. reflexivity.
Qed.

End PlacingFacts.

(** ** The fast path *)

Lemma lotFailed_spec (lot : list PayloadOrder) (err : JsError.t) :
  OrderResult.orderId <$> lotFailed lot err = clientIds lot
  /\ Forall (fun r => OrderResult.error r = Some (FailedRequest (JsError.describe err)))
            (lotFailed lot err).
Proof.
  unfold lotFailed, clientIds. split.
  - change (List.map ?f ?l) with (f <$> l). by rewrite <- list_fmap_compose.
  - change (List.map ?f ?l) with (f <$> l). apply Forall_fmap, Forall_forall. by intros.
Qed.

(** The entries of an answered batch are matched to the lot by position. *)
Lemma itemResults_within (lot : list PayloadOrder) (data : list BatchItem.t) :
  (length data <= length lot)%nat ->
  (itemResults lot data).2 = false
  /\ OrderResult.orderId <$> (itemResults lot data).1 = clientIds (take (length data) lot)
  /\ Forall2 (fun o r => OrderResult.error r
                         = if hasCode o then Some (RejectedItem o) else None)
             data (itemResults lot data).1.
Proof.
  revert lot. induction data as [|o data IH]; intros lot Hlen.
  - destruct lot; cbn; (split; [done|]); (split; [done|constructor]).
  - destruct lot as [|p lot]; [cbn in Hlen; lia|]. cbn in Hlen.
    destruct (IH lot ltac:(lia)) as (Hok & Hids & Herr).
    cbn. split; [done|]. split; [by rewrite Hids|]. by constructor.
Qed.

Lemma itemResults_beyond (lot : list PayloadOrder) (data : list BatchItem.t) :
  (length lot < length data)%nat ->
  (itemResults lot data).2 = true
  /\ OrderResult.orderId <$> (itemResults lot data).1 = clientIds lot.
Proof.
  revert lot. induction data as [|o data IH]; intros lot Hlen; [cbn in Hlen; lia|].
  destruct lot as [|p lot]; [done|]. cbn in Hlen.
  destruct (IH lot ltac:(lia)) as (Hthrew & Hids).
  cbn. split; [done|]. by rewrite Hids.
Qed.

Lemma lotRequest_payloads (lots : list (list PayloadOrder)) :
  Forall (fun lot => (1 <= length lot)%nat) lots ->
  payloadsOf <$> omap lotRequest lots = lots.
Proof.
  induction 1 as [|lot lots Hlot _ IH]; [done|].
  destruct lot as [|p [|q lot]]; [cbn in Hlot; lia| |]; cbn; by rewrite IH.
Qed.

Section FastPathFacts.
Context `{Ext : Externals}.

(** X26. [placeOrderBatchFast] never throws and never touches the world.
    It sends one request per lot of five, all at once and in order, so every
    payload goes out exactly once; the results are those of the lots, in the
    order the lots settle.  For a lot as the dispatch queue hands it over (one
    to five payloads): a rejected request gives every payload the same
    failure; an answered single order is a success; an answered batch is
    matched to the payloads by position, an entry with a code being that
    payload's error; an answer with more entries than payloads reports every
    payload twice, the second time as failed; and an answer that is not a list
    reports nothing at all. *)
Theorem placeOrderBatchFast_reports_by_position
    (venue : Venue) (payloads : list PayloadOrder) (d : Desk.t) :
  (forall completion,
     completion ≡ₚ seq 0 (length (chunk payloads 5)) ->
     exists results new,
       placeOrderBatchFast venue payloads completion d
       = (Return results, Desk.mk (Desk.world d) (Desk.sent d ++ new))
       /\ payloadsOf <$> new = chunk payloads 5
       /\ flat_map payloadsOf new = payloads
       /\ results ≡ₚ
            flat_map (fun k => match chunk payloads 5 !! k with
                               | Some lot => lotResults lot (venue (length (Desk.sent d) + k)%nat)
                               | None => []
                               end) (seq 0 (length (chunk payloads 5))))
  /\ ((1 <= length payloads <= 5)%nat ->
      let reply := venue (length (Desk.sent d)) in
      exists results r,
        placeOrderBatchFast venue payloads [0%nat] d
        = (Return results, Desk.mk (Desk.world d) (Desk.sent d ++ [r]))
        /\ payloadsOf r = payloads
        /\ (forall err, reply = Rejected err ->
              OrderResult.orderId <$> results = clientIds payloads
              /\ Forall (fun r => OrderResult.error r
                                  = Some (FailedRequest (JsError.describe err))) results)
        /\ (forall data, reply = Resolved data -> length payloads = 1%nat ->
              OrderResult.orderId <$> results = clientIds payloads
              /\ Forall (fun r => OrderResult.error r = None) results)
        /\ (forall data, reply = Resolved (Some data) ->
              (2 <= length payloads)%nat -> length data = length payloads ->
              OrderResult.orderId <$> results = clientIds payloads
              /\ Forall2 (fun o r => OrderResult.error r
                                     = if hasCode o then Some (RejectedItem o) else None)
                         data results)
        /\ (forall data, reply = Resolved (Some data) ->
              (2 <= length payloads)%nat -> (length payloads < length data)%nat ->
              OrderResult.orderId <$> results = (clientIds payloads ++ clientIds payloads)%list
              /\ Forall (fun r => OrderResult.error r
                                  = Some (FailedRequest (JsError.describe TypeError)))
                        (drop (length payloads) results))
        /\ (reply = Resolved None -> (2 <= length payloads)%nat -> results = [])).
Proof.
  destruct (chunk_spec 5 payloads ltac:(lia)) as (Hcat & Hall & _).
  assert (Hne : Forall (fun lot : list PayloadOrder => (1 <= length lot)%nat)
                       (chunk payloads 5)).
  { eapply Forall_impl; [exact Hall|]. cbn. lia. }
  split.
  - intros completion Hperm. eexists _, _. split; [reflexivity|].
    split; [by apply lotRequest_payloads|]. split.
    + rewrite <- Hcat at 2. rewrite <- (lotRequest_payloads _ Hne) at 2.
      generalize (omap lotRequest (chunk payloads 5)). clear.
      intros new. induction new as [|r new IH]; [done|]. cbn. by rewrite IH.
    + cbn. apply Permutation_flat_map. exact Hperm.
  - intros Hlen reply. unfold placeOrderBatchFast. rewrite (chunk_small 5 payloads Hlen).
    cbn [flat_map lookup list_lookup omap]. rewrite Nat.add_0_r, app_nil_r. fold reply.
    destruct payloads as [|p [|q rest]]; [cbn in Hlen; lia| |].
    + cbn [lotRequest]. eexists _, _. split; [reflexivity|]. split; [done|].
      split; [|split; [|split; [|split]]].
      * intros err ->. cbn. by repeat constructor.
      * intros data -> _. cbn. by repeat constructor.
      * intros data _ Hl. cbn in Hl. lia.
      * intros data _ Hl. cbn in Hl. lia.
      * intros _ Hl. cbn in Hl. lia.
    + set (lot := p :: q :: rest) in *.
      assert (Hres : forall reply,
                lotResults lot reply
                = match reply with
                  | Resolved (Some data) =>
                      if (itemResults lot data).2
                      then ((itemResults lot data).1 ++ lotFailed lot TypeError)%list
                      else (itemResults lot data).1
                  | Resolved None => []
                  | Rejected err => lotFailed lot err
                  end) by (intros [[?|]|?]; reflexivity).
      rewrite Hres. clear Hres.
      eexists _, (OrderRequest.post_BATCH_ORDERS lot). split; [reflexivity|]. split; [done|].
      split; [|split; [|split; [|split]]].
      * intros err ->. apply lotFailed_spec.
      * intros data _ Hl. cbn in Hl. lia.
      * intros data -> _ Hl.
        destruct (itemResults_within lot data ltac:(lia)) as (-> & Hids & Herr).
        split; [|done]. rewrite Hids, Hl. by rewrite take_ge.
      * intros data -> _ Hl.
        destruct (itemResults_beyond lot data Hl) as (-> & Hids).
        destruct (lotFailed_spec lot TypeError) as (Hids2 & Hfail).
        split; [by rewrite fmap_app, Hids, Hids2|].
        assert (Hn : length (itemResults lot data).1 = length lot).
        { apply (f_equal length) in Hids. unfold clientIds in Hids.
          by rewrite !length_fmap in Hids. }
        rewrite drop_app_length'; done.
      * by intros ->.
Qed.

End FastPathFacts.

(** ** Cancelling orders and switching the position mode *)

Lemma List_filter_filter {A} (p q : A -> bool) (l : list A) :
  List.filter p (List.filter q l) = List.filter (fun x => q x && p x) l.
Proof.
  induction l as [|x l IH]; [done|]. cbn.
  destruct (q x); cbn; [destruct (p x)|]; by rewrite IH.
Qed.

Lemma List_filter_ext {A} (p q : A -> bool) (l : list A) :
  (forall x, p x = q x) -> List.filter p l = List.filter q l.
Proof. intros H. induction l as [|x l IH]; [done|]. cbn. by rewrite H, IH. Qed.

(** [removeOrders] drops the orders whose identifier is listed, and nothing
    else. *)
Lemma removeOrders_spec (ids : list string) (st : Store.t) :
  removeOrders ids st
  = Store.mk (Store.markets st) (Store.tickers st) (Store.positions st) (Store.balance st)
             (List.filter (fun o => negb (includes ids (Order.id o))) (Store.orders st))
             (Store.isHedged st) (Store.loaded st) (Store.latency st).
Proof.
  unfold removeOrders. revert st. induction ids as [|id ids IH]; intros st.
  - cbn. destruct st. cbn. f_equal.
    induction orders as [|o l IHl]; [done|]. cbn. by rewrite <- IHl.
  - cbn [foldl]. rewrite IH. cbn. f_equal.
    rewrite List_filter_filter. apply List_filter_ext. intros o. cbn.
    by rewrite negb_orb.
Qed.

Lemma includes_elem (xs : list string) (x : string) : includes xs x = true <-> x ∈ xs.
Proof.
  unfold includes. rewrite existsb_exists. split.
  - intros (y & Hin & Hy). apply String.eqb_eq in Hy as ->. by apply list_elem_of_In.
  - intros Hin. exists x. split; [by apply list_elem_of_In|apply String.eqb_refl].
Qed.

(** *** The groups of [cancelOrders] *)

Lemma addToGroup_spec (groups : list (string * list Order.t)) (o : Order.t) :
  NoDup (fst <$> groups) ->
  flat_map snd (addToGroup groups o) ≡ₚ o :: flat_map snd groups
  /\ NoDup (fst <$> addToGroup groups o)
  /\ (groups = [] -> addToGroup groups o = [(Order.symbol o, [o])]).
Proof.
  intros Hnd. unfold addToGroup.
  destruct (existsb _ groups) eqn:Ex.
  - split; [|split; [|by intros ->]].
    + induction groups as [|g groups IH]; [done|].
      apply NoDup_cons in Hnd as [Hg Hnd]. cbn in Ex |- *.
      destruct (String.eqb g.1 (Order.symbol o)) eqn:Eg; cbn.
      * apply String.eqb_eq in Eg.
        assert (Hrest : List.map (fun g0 => if String.eqb g0.1 (Order.symbol o)
                                            then (g0.1, push g0.2 o) else g0) groups = groups).
        { clear -Hg Eg. induction groups as [|h groups IH]; [done|]. cbn.
          apply not_elem_of_cons in Hg as [Hh Hg].
          destruct (String.eqb h.1 (Order.symbol o)) eqn:Eh.
          - apply String.eqb_eq in Eh. congruence.
          - by rewrite IH. }
        rewrite Hrest. unfold push. rewrite <- app_assoc. cbn.
        first [apply Permutation_middle | symmetry; apply Permutation_middle].
      * rewrite (IH Hnd Ex).
        first [apply Permutation_middle | symmetry; apply Permutation_middle].
    + assert (Hkeys : fst <$> List.map (fun g0 => if String.eqb g0.1 (Order.symbol o)
                                                  then (g0.1, push g0.2 o) else g0) groups
                      = fst <$> groups).
      { clear. induction groups as [|g groups IH]; [done|]. cbn.
        destruct (String.eqb _ _); cbn; by rewrite IH. }
      by rewrite Hkeys.
  - split; [|split; [|by intros ->]].
    + unfold push. rewrite flat_map_app. cbn. by rewrite Permutation_app_comm.
    + unfold push. rewrite fmap_app. cbn.
      apply NoDup_app. split; [done|]. split; [|apply NoDup_singleton].
      intros key Hkey Hin. apply list_elem_of_singleton in Hin as ->.
      apply list_elem_of_fmap in Hkey as (g & Hg & Hin).
      assert (existsb (fun g => String.eqb g.1 (Order.symbol o)) groups = true)
        as Hex; [|congruence].
      apply existsb_exists. exists g. split; [by apply list_elem_of_In|].
      rewrite <- Hg. apply String.eqb_refl.
Qed.

Lemma groupBySymbol_spec (orders : list Order.t) :
  flat_map snd (groupBySymbol orders) ≡ₚ orders.
Proof.
  unfold groupBySymbol.
  assert (H : forall groups,
            NoDup (fst <$> groups) ->
            flat_map snd (foldl addToGroup groups orders)
            ≡ₚ (flat_map snd groups ++ orders)%list).
  { induction orders as [|o rest IH]; intros groups Hnd; [by rewrite app_nil_r|].
    cbn [foldl]. destruct (addToGroup_spec groups o Hnd) as (Hperm & Hnd' & _).
    rewrite (IH _ Hnd'), Hperm. cbn.
    first [apply Permutation_middle | symmetry; apply Permutation_middle]. }
  apply (H [] (NoDup_nil_2)).
Qed.

Lemma groupBySymbol_head (o : Order.t) (rest : list Order.t) :
  exists more others,
    groupBySymbol (o :: rest) = (Order.symbol o, o :: more) :: others.
Proof.
  unfold groupBySymbol. cbn [foldl].
  change (addToGroup [] o) with [(Order.symbol o, [o])].
  generalize (@nil Order.t) at 1. generalize (@nil (string * list Order.t)).
  induction rest as [|x rest IH]; intros others more; [by eexists _, _|].
  cbn [foldl]. unfold addToGroup at 2. cbn [existsb fst snd List.map].
  destruct (String.eqb (Order.symbol o) (Order.symbol x)) eqn:E; cbn [orb].
  - apply IH.
  - destruct (existsb _ others); apply IH.
Qed.

Section CancelFacts.
Context `{Ext : Externals}.

(** Under a venue that accepts everything, one group is cancelled with
    requests that list its identifiers once each, and its orders leave the
    store. *)
Lemma cancelRequest_accepted (data : option (list BatchItem.t))
    (symbol : string) (ids : list string) (d : Desk.t) :
  exists new,
    cancelRequest (accepting data) (symbol, ids) d
    = (Return tt,
       Desk.mk (withStore (removeOrders ids (World.store (Desk.world d))) (Desk.world d))
               (Desk.sent d ++ new))
    /\ flat_map cancelledBy new = ids.
Proof.
  assert (Hlots : forall lots d,
    forEachT (fun lot => send (accepting data) (OrderRequest.delete_BATCH_ORDERS symbol lot))
             lots d
    = (Return (replicate (length lots) data),
       Desk.mk (Desk.world d)
               (Desk.sent d ++ (OrderRequest.delete_BATCH_ORDERS symbol <$> lots)))).
  { intros batches. induction batches as [|lot batches IH]; intros d0.
    - cbn. unfold retT. destruct d0. cbn. by rewrite app_nil_r.
    - cbn [forEachT]. unfold bindT at 1, send at 1, accepting at 1.
      unfold bindT at 1. rewrite IH. unfold retT, push. cbn. by rewrite <- app_assoc. }
  assert (Hbatch : exists new,
    (let+ _ := forEachT
                 (fun lot => send (accepting data) (OrderRequest.delete_BATCH_ORDERS symbol lot))
                 (chunk ids 10) in retT tt) d
    = (Return tt, Desk.mk (Desk.world d) (Desk.sent d ++ new))
    /\ flat_map cancelledBy new = ids).
  { eexists. split.
    - unfold bindT. rewrite Hlots. reflexivity.
    - destruct (chunk_spec 10 ids ltac:(lia)) as (Hcat & _ & _).
      rewrite <- Hcat at 2. generalize (chunk ids 10). clear.
      intros lots. induction lots as [|lot lots IH]; [done|]. cbn. by rewrite IH. }
  unfold cancelRequest. cbn [fst snd].
  destruct ids as [|id [|id2 ids]].
  - destruct Hbatch as (new & Hrun & Hnew). exists new.
    rewrite (bindT_Return _ _ _ _ _ Hrun). done.
  - exists [OrderRequest.delete_ORDER symbol id]. done.
  - destruct Hbatch as (new & Hrun & Hnew). exists new.
    rewrite (bindT_Return _ _ _ _ _ Hrun). done.
Qed.

Lemma cancelRequests_accepted (data : option (list BatchItem.t))
    (requests : list (string * list string)) (d : Desk.t) :
  exists new units,
    forEachT (cancelRequest (accepting data)) requests d
    = (Return units,
       Desk.mk (withStore (removeOrders (flat_map snd requests) (World.store (Desk.world d)))
                          (Desk.world d))
               (Desk.sent d ++ new))
    /\ flat_map cancelledBy new = flat_map snd requests.
Proof.
  revert d. induction requests as [|[symbol ids] requests IH]; intros d.
  - exists [], []. cbn. unfold retT. destruct d as [[st dis n em rq] sent]. cbn.
    rewrite app_nil_r. split; [|done]. repeat f_equal.
  - destruct (cancelRequest_accepted data symbol ids d) as (new1 & Hrun1 & Hnew1).
    cbn [forEachT]. rewrite (bindT_Return _ _ _ _ _ Hrun1).
    destruct (IH (Desk.mk (withStore (removeOrders ids (World.store (Desk.world d)))
                                     (Desk.world d)) (Desk.sent d ++ new1)))
      as (new2 & units & Hrun2 & Hnew2).
    rewrite (bindT_Return _ _ _ _ _ Hrun2).
    exists (new1 ++ new2)%list, (tt :: units). split.
    + unfold retT, withStore. cbn. rewrite <- app_assoc.
      unfold removeOrders. by rewrite foldl_app.
    + rewrite flat_map_app. cbn. by rewrite Hnew1, Hnew2.
Qed.

(** Sending never touches the world. *)
Lemma sendLots_world (venue : Venue) (symbol : string) (lots : list (list string))
    (d : Desk.t) :
  Desk.world (forEachT (fun lot => send venue (OrderRequest.delete_BATCH_ORDERS symbol lot))
                       lots d).2
  = Desk.world d.
Proof.
  revert d. induction lots as [|lot lots IH]; intros d; [done|].
  cbn [forEachT]. unfold bindT at 1, send at 1.
  destruct (venue (length (Desk.sent d))); [|done].
  unfold bindT at 1. specialize (IH (Desk.mk (Desk.world d)
                                       (push (Desk.sent d)
                                          (OrderRequest.delete_BATCH_ORDERS symbol lot)))).
  by destruct (forEachT _ lots _) as [[?|?] ?].
Qed.

(** One group, whatever the venue answers: its orders leave the store when
    all its requests were accepted, and the world stays as it is
    otherwise. *)
Lemma cancelRequest_any (venue : Venue) (request : string * list string) (d : Desk.t) :
  (exists d', cancelRequest venue request d = (Return tt, d')
              /\ Desk.world d'
                 = withStore (removeOrders request.2 (World.store (Desk.world d)))
                             (Desk.world d))
  \/ (exists err d', cancelRequest venue request d = (Throw err, d')
                     /\ Desk.world d' = Desk.world d).
Proof.
  destruct request as [symbol ids]. unfold cancelRequest. cbn [fst snd].
  assert (Hbatch :
    (exists d', (let+ _ := forEachT
                   (fun lot => send venue (OrderRequest.delete_BATCH_ORDERS symbol lot))
                   (chunk ids 10) in retT tt) d = (Return tt, d')
                /\ Desk.world d' = Desk.world d)
    \/ (exists err d', (let+ _ := forEachT
                   (fun lot => send venue (OrderRequest.delete_BATCH_ORDERS symbol lot))
                   (chunk ids 10) in retT tt) d = (Throw err, d')
                /\ Desk.world d' = Desk.world d)).
  { pose proof (sendLots_world venue symbol (chunk ids 10) d) as Hw.
    unfold bindT. destruct (forEachT _ (chunk ids 10) d) as [[us|err] d1]; cbn in Hw.
    - left. by exists d1.
    - right. by exists err, d1. }
  assert (Hthen : forall (m : T unit),
    ((exists d', m d = (Return tt, d') /\ Desk.world d' = Desk.world d)
     \/ (exists err d', m d = (Throw err, d') /\ Desk.world d' = Desk.world d)) ->
    (exists d', (let+ _ := m in liftT (modifyStore (removeOrders ids))) d = (Return tt, d')
                /\ Desk.world d'
                   = withStore (removeOrders ids (World.store (Desk.world d))) (Desk.world d))
    \/ (exists err d', (let+ _ := m in liftT (modifyStore (removeOrders ids))) d
                       = (Throw err, d')
                       /\ Desk.world d' = Desk.world d)).
  { intros m [(d1 & Hm & Hw)|(err & d1 & Hm & Hw)].
    - left. rewrite (bindT_Return _ _ _ _ _ Hm). eexists. split; [reflexivity|].
      cbn. by rewrite Hw.
    - right. rewrite (bindT_Throw _ _ _ _ _ Hm). by exists err, d1. }
  destruct ids as [|id [|id2 ids]]; [by apply Hthen| |by apply Hthen].
  apply Hthen. unfold bindT, send, retT.
  destruct (venue (length (Desk.sent d))); [left|right]; by eexists + (eexists _, _).
Qed.

Lemma cancelRequests_any (venue : Venue) (requests : list (string * list string))
    (d : Desk.t) :
  exists out d' k,
    forEachT (cancelRequest venue) requests d = (out, d')
    /\ Desk.world d'
       = withStore (removeOrders (flat_map snd (take k requests)) (World.store (Desk.world d)))
                   (Desk.world d)
    /\ (forall units, out = Return units -> k = length requests).
Proof.
  revert d. induction requests as [|request requests IH]; intros d.
  - exists (Return []), d, 0%nat. split; [done|]. split; [|done].
    cbn. by destruct d as [[? ? ? ? ?] ?].
  - cbn [forEachT].
    destruct (cancelRequest_any venue request d) as [(d1 & Hrun & Hw)|(err & d1 & Hrun & Hw)].
    + rewrite (bindT_Return _ _ _ _ _ Hrun).
      destruct (IH d1) as (out & d2 & k & Hrun2 & Hw2 & Hk).
      destruct out as [units|err].
      * rewrite (bindT_Return _ _ _ _ _ Hrun2). exists (Return (tt :: units)), d2, (S k).
        split; [done|]. split.
        -- rewrite Hw2, Hw. cbn. unfold withStore, removeOrders. cbn.
           by rewrite foldl_app.
        -- intros ? _. cbn. f_equal. by eapply Hk.
      * rewrite (bindT_Throw _ _ _ _ _ Hrun2). exists (Throw err), d2, (S k).
        split; [done|]. split; [|done].
        rewrite Hw2, Hw. cbn. unfold withStore, removeOrders. cbn.
        by rewrite foldl_app.
    + rewrite (bindT_Throw _ _ _ _ _ Hrun). exists (Throw err), d1, 0%nat.
      split; [done|]. split; [|done]. rewrite Hw, take_0. cbn.
      by destruct (Desk.world d).
Qed.

(** X27. Under a venue that accepts every request, [cancelOrders] asks for
    every given order to be cancelled exactly once (a group of one through the
    single-order endpoint, the others through batch requests), emits nothing,
    and leaves in the store exactly the orders whose client identifier is not
    among the given ones.  Under a venue that rejects, it stops at the first
    request: one request, the error on [error], the store untouched.  Whatever
    the venue answers it never throws, and the orders that leave the store are
    those of the symbols whose requests were all accepted, the symbols being
    taken in the order they first occur: a failure keeps the orders of its own
    symbol and of every later one. *)
Theorem cancelOrders_cancels_each_once (orders : list Order.t) (d : Desk.t) :
  (forall data,
     exists new,
       cancelOrders (accepting data) orders d
       = (Return tt,
          Desk.mk (withStore
                     (removeOrders (Order.id <$> flat_map snd (groupBySymbol orders))
                                   (World.store (Desk.world d)))
                     (Desk.world d))
                  (Desk.sent d ++ new))
       /\ flat_map cancelledBy new ≡ₚ Order.id <$> orders
       /\ Store.orders (removeOrders (Order.id <$> flat_map snd (groupBySymbol orders))
                                     (World.store (Desk.world d)))
          = List.filter (fun o => negb (includes (Order.id <$> orders) (Order.id o)))
                        (Store.orders (World.store (Desk.world d))))
  /\ (forall err o rest,
        orders = o :: rest ->
        exists r,
          cancelOrders (refusing err) orders d
          = (Return tt,
             Desk.mk (emits (Desk.world d) [Ev_error (JsError.describe err)])
                     (Desk.sent d ++ [r]))
          /\ o ∈ orders /\ Order.id o ∈ cancelledBy r)
  /\ (forall venue,
        exists d' k,
          cancelOrders venue orders d = (Return tt, d')
          /\ World.store (Desk.world d')
             = removeOrders (Order.id <$> flat_map snd (take k (groupBySymbol orders)))
                            (World.store (Desk.world d))
          /\ (World.emitted (Desk.world d') = World.emitted (Desk.world d) ->
              k = length (groupBySymbol orders)))
  /\ (orders = [] -> forall venue, cancelOrders venue orders d = (Return tt, d)).
Proof.
  split; [|split; [|split]].
  - intros data. unfold cancelOrders, try_catchT.
    destruct (cancelRequests_accepted data
                (List.map (fun g => (g.1, List.map Order.id g.2)) (groupBySymbol orders)) d)
      as (new & units & Hrun & Hnew).
    rewrite (bindT_Return _ _ _ _ _ Hrun). unfold retT.
    assert (Hids : flat_map snd (List.map (fun g : string * list Order.t =>
                                             (g.1, List.map Order.id g.2))
                                          (groupBySymbol orders))
                   = Order.id <$> flat_map snd (groupBySymbol orders)).
    { generalize (groupBySymbol orders). clear.
      intros groups. induction groups as [|g groups IH]; [done|].
      cbn. by rewrite fmap_app, IH. }
    rewrite Hids in *. exists new. split; [done|]. split.
    + rewrite Hnew. by rewrite groupBySymbol_spec.
    + rewrite removeOrders_spec. cbn. apply List_filter_ext. intros x. f_equal.
      apply eq_true_iff_eq. rewrite !includes_elem.
      by rewrite groupBySymbol_spec.
  - intros err o rest ->.
    destruct (groupBySymbol_head o rest) as (more & others & Hgroups).
    unfold cancelOrders, try_catchT. rewrite Hgroups. cbn [List.map fst snd forEachT].
    unfold cancelRequest. cbn [fst snd].
    destruct more as [|o2 more]; cbn [List.map].
    + eexists. split; [reflexivity|]. split; [by left|by left].
    + cbn [List.map]. unfold chunk. cbn [length chunkFuel take].
      eexists. split; [reflexivity|]. split; [by left|]. cbn. by left.
  - intros venue. unfold cancelOrders, try_catchT.
    destruct (cancelRequests_any venue
                (List.map (fun g => (g.1, List.map Order.id g.2)) (groupBySymbol orders)) d)
      as (out & d' & k & Hrun & Hw & Hk).
    assert (Hids : forall groups : list (string * list Order.t),
              flat_map snd (List.map (fun g : string * list Order.t =>
                                        (g.1, List.map Order.id g.2)) groups)
              = Order.id <$> flat_map snd groups).
    { clear. intros groups. induction groups as [|g groups IH]; [done|].
      cbn. by rewrite fmap_app, IH. }
    assert (Htake : take k (List.map (fun g : string * list Order.t =>
                                        (g.1, List.map Order.id g.2)) (groupBySymbol orders))
                    = List.map (fun g : string * list Order.t =>
                                  (g.1, List.map Order.id g.2))
                               (take k (groupBySymbol orders))).
    { change (List.map ?f ?l) with (f <$> l). by rewrite fmap_take. }
    rewrite Htake, Hids in Hw.
    destruct out as [units|err].
    + rewrite (bindT_Return _ _ _ _ _ Hrun). exists d', k. split; [done|].
      split; [by rewrite Hw|]. intros _. rewrite (Hk units eq_refl).
      by rewrite length_map.
    + rewrite (bindT_Throw _ _ _ _ _ Hrun). eexists _, k. split; [reflexivity|].
      split; [cbn; by rewrite Hw|].
      cbn. rewrite Hw. cbn. intros Hem.
      apply (f_equal length) in Hem. rewrite length_app in Hem. cbn in Hem. lia.
  - intros -> venue. reflexivity.
Qed.

End CancelFacts.

Section ModeFacts.
Context `{Ext : Externals}.

(** X28. [cancelSymbolOrders] sends one request and never throws.  When the
    venue accepts it, no order of that symbol is left in the store, and an
    order stays when no order of that symbol shares its client identifier;
    when the venue rejects it, the error is emitted and the store is
    untouched. *)
Theorem cancelSymbolOrders_clears_the_symbol (symbol : string) (d : Desk.t) :
  let st := World.store (Desk.world d) in
  let request := OrderRequest.delete_CANCEL_SYMBOL_ORDERS symbol in
  (forall data,
     exists st',
       cancelSymbolOrders (accepting data) symbol d
       = (Return tt, Desk.mk (withStore st' (Desk.world d)) (Desk.sent d ++ [request]))
       /\ Forall (fun o => Order.symbol o <> symbol) (Store.orders st')
       /\ sublist (Store.orders st') (Store.orders st)
       /\ (forall o, o ∈ Store.orders st ->
             (forall o', o' ∈ Store.orders st -> Order.symbol o' = symbol ->
                         Order.id o' <> Order.id o) ->
             o ∈ Store.orders st')
       /\ Store.markets st' = Store.markets st /\ Store.positions st' = Store.positions st
       /\ Store.balance st' = Store.balance st /\ Store.isHedged st' = Store.isHedged st)
  /\ (forall err,
        cancelSymbolOrders (refusing err) symbol d
        = (Return tt,
           Desk.mk (emits (Desk.world d) [Ev_error (JsError.describe err)])
                   (Desk.sent d ++ [request]))).
Proof.
  intros st request. split; [|by intros err].
  intros data. eexists. split; [reflexivity|].
  rewrite removeOrders_spec. cbn. fold st.
  set (ids := List.map Order.id
                (List.filter (fun o => String.eqb (Order.symbol o) symbol) (Store.orders st))).
  assert (Hids : forall o, o ∈ Store.orders st -> Order.symbol o = symbol ->
                           includes ids (Order.id o) = true).
  { intros o Hin Hs. apply includes_elem. subst ids.
    change (List.map ?f ?l) with (f <$> l). apply list_elem_of_fmap. exists o.
    split; [done|]. apply List_filter_elem. split; [done|]. by apply String.eqb_eq. }
  split; [|split; [|split]].
  - apply Forall_forall. intros o [Hin Hkeep]%List_filter_elem Hs.
    rewrite (Hids o Hin Hs) in Hkeep. done.
  - apply List_filter_sublist.
  - intros o Hin Hfree. apply List_filter_elem. split; [done|].
    apply negb_true_iff. destruct (includes ids (Order.id o)) eqn:E; [|done].
    apply includes_elem in E. subst ids.
    change (List.map ?f ?l) with (f <$> l) in E.
    apply list_elem_of_fmap in E as (o' & Hid & Ho').
    apply List_filter_elem in Ho' as [Hin' Hs']. apply String.eqb_eq in Hs'.
    by destruct (Hfree o' Hin' Hs').
  - done.
Qed.

(** X29. [changePositionMode] refuses while a position has contracts above
    zero: it emits the request to close all positions, sends nothing and
    leaves the store as it is.  When no position has contracts above zero
    (positions with zero or negative contracts do not count) it sends one
    request; the venue accepting it, the position mode is stored and nothing
    else changes; the venue rejecting it, the error is emitted and the store
    is untouched.  It never throws. *)
Theorem changePositionMode_needs_flat_positions
    (venue : Venue) (hedged : bool) (d : Desk.t) :
  let positions := Store.positions (World.store (Desk.world d)) in
  let request := OrderRequest.post_HEDGE_MODE (if hedged then "true" else "false") in
  ((exists p, p ∈ positions /\ 0 < Position.contracts p) ->
     changePositionMode venue hedged d
     = (Return tt,
        Desk.mk (emits (Desk.world d)
                   [Ev_error (Some [Lit "Please close all positions before switching position mode"])])
                (Desk.sent d)))
  /\ (Forall (fun p => Position.contracts p <= 0) positions ->
      (forall data,
         venue (length (Desk.sent d)) = Resolved data ->
         changePositionMode venue hedged d
         = (Return tt,
            Desk.mk (withStore (StoreOps.setSetting_isHedged hedged (World.store (Desk.world d)))
                               (Desk.world d))
                    (Desk.sent d ++ [request])))
      /\ (forall err,
            venue (length (Desk.sent d)) = Rejected err ->
            changePositionMode venue hedged d
            = (Return tt,
               Desk.mk (emits (Desk.world d) [Ev_error (JsError.describe err)])
                       (Desk.sent d ++ [request])))).
Proof.
  intros positions request.
  set (open := List.filter (fun p => Js.gtb (Position.contracts p) 0) positions).
  assert (Hrun : changePositionMode venue hedged d
                 = if (0 <? length open)%nat
                   then (Return tt,
                         Desk.mk (emits (Desk.world d)
                                    [Ev_error (Some [Lit "Please close all positions before switching position mode"])])
                                 (Desk.sent d))
                   else match venue (length (Desk.sent d)) with
                        | Resolved _ =>
                            (Return tt,
                             Desk.mk (withStore
                                        (StoreOps.setSetting_isHedged hedged
                                           (World.store (Desk.world d)))
                                        (Desk.world d))
                                     (Desk.sent d ++ [request]))
                        | Rejected err =>
                            (Return tt,
                             Desk.mk (emits (Desk.world d) [Ev_error (JsError.describe err)])
                                     (Desk.sent d ++ [request]))
                        end).
  { unfold changePositionMode, bindT at 1, liftT at 1, getStore. cbn [fst snd Desk.world].
    fold positions. fold open. destruct (0 <? length open)%nat; [reflexivity|].
    unfold try_catchT, bindT, send. fold request.
    cbn [Desk.sent Desk.world].
    by destruct (venue (length (Desk.sent d))). }
  rewrite Hrun. split.
  - intros (p & Hin & Hpos).
    assert (Hopen : p ∈ open).
    { apply List_filter_elem. split; [done|]. by apply gtb_gt. }
    destruct open; [by apply elem_of_nil in Hopen|]. reflexivity.
  - intros Hflat.
    assert (Hnone : open = []).
    { subst open. clear Hrun. induction Hflat as [|p l Hp _ IH]; [done|]. cbn.
      destruct (Js.gtb (Position.contracts p) 0) eqn:E; [|exact IH].
      apply gtb_gt in E. lra. }
    rewrite Hnone. cbn. split; [by intros data ->|by intros err ->].
Qed.

End ModeFacts.

(** ** Waiting for the queue *)

Section IdleFacts.
Import OrderQueueManager QueueTrace.

(** X30. What the polling loops of [placeOrdersFast] and [placeSplitOrder]
    wait for: from a fresh manager on, once [isProcessing()] reads false the
    queue is empty and every payload that was enqueued has been handed to
    [placeOrderBatchFast], in the order it was enqueued. *)
Theorem idle_queue_has_handed_everything_over (inputs : list input) :
  isProcessing (run inputs init).1 = false ->
  queue (run inputs init).1 = []
  /\ dispatched inputs init = enqueued inputs.
Proof.
  assert (H : forall s,
    queue s = [] \/ processing s = true ->
    (queue (run inputs s).1 = [] \/ processing (run inputs s).1 = true)
    /\ (queue s ++ enqueued inputs)%list
       = (dispatched inputs s ++ queue (run inputs s).1)%list).
  { induction inputs as [|i rest IH]; intros s Hs.
    - cbn. by rewrite app_nil_r.
    - rewrite run_cons. cbn [dispatched].
      destruct (IH (step i s).1 (step_processing i s Hs)) as [Hflag Hqueue].
      split; [done|].
      replace (enqueued (i :: rest)) with (enqueued [i] ++ enqueued rest)%list
        by (cbn; by rewrite app_nil_r).
      by rewrite app_assoc, step_queue, <- !app_assoc, Hqueue. }
  intros Hidle. destruct (H init ltac:(by left)) as [[Hq|Hp] Hall].
  - split; [done|]. rewrite Hq, app_nil_r in Hall. done.
  - unfold isProcessing in Hidle. congruence.
Qed.

(** X30 at seven payloads, two passes and the resumption that ends the
    task. *)
Lemma idle_queue_witness :
  isProcessing (run QueueScenarios.untilIdle init).1 = false
  /\ dispatched QueueScenarios.untilIdle init = replicate 7 ∅.
Proof.
  split; [reflexivity|].
  exact (proj2 (idle_queue_has_handed_everything_over QueueScenarios.untilIdle eq_refl)).
Defined.

End IdleFacts.

